(** * cb-proxy: the message normalizer and the stream reducer of [main.ts]

    A shallow embedding of [src/main.ts] (the CodeBuddy chat-completion
    gateway) and the properties its specification states about
    [handleChatMessage], [collectStreamData] and [handleRequest].

    Conventions of the embedding.
    - A JavaScript string is the list of its UTF-16 code units ([jsstring]).
    - A [Uint8Array] chunk is a [list Byte.byte].
    - JavaScript values are the values [JSON.parse] can build, plus
      [Undefined] (the result of reading a missing property).
    - Numbers are IEEE 754 doubles [mant * 2 ^ exp2]: [JSON.parse] rounds
      a number literal to the nearest double, and a number prints with
      the fewest digits that read back as itself.
    - Code that can throw returns a [Result]; code inside the reducer's
      [try { ... } catch { }] runs in [Exc], which keeps the state reached
      when the exception was thrown (the assignments done before a throw are
      not undone by the [catch]).
    - In examples written with [sq] or [bytes], the apostrophe stands for
      the double quote of the JSON text. *)

From Stdlib Require Import ZArith NArith List Ascii String Lia Bool.
From Stdlib.Strings Require Import Byte.
From stdpp Require Import base decidable option list numbers.

Local Open Scope Z_scope.
Set Warnings "-register-all".

(** ** Strings *)

Module JSString.

Definition jsstring := list N.

(** An ASCII literal of the source as code units. *)
Definition js (s : string) : jsstring :=
  map N_of_ascii (list_ascii_of_string s).

(** The same, with the apostrophe read as the double quote. *)
Definition sq (s : string) : jsstring :=
  map (fun c => if N.eqb c 39 then 34%N else c) (js s).

(** The bytes of an ASCII text, the apostrophe read as the double quote. *)
Definition bytes (s : string) : list byte :=
  map (fun c => match Byte.of_N c with Some b => b | None => x00 end) (sq s).

Definition eqb (s t : jsstring) : bool := bool_decide (s = t).

(** [String.prototype.startsWith]. *)
Fixpoint startsWith (p s : jsstring) : bool :=
  match p, s with
  | [], _ => true
  | c :: p', d :: s' => N.eqb c d && startsWith p' s'
  | _ :: _, [] => false
  end.

(** [String.prototype.slice(n)] for [0 <= n]. *)
Definition slice (n : nat) (s : jsstring) : jsstring := drop n s.

(** [String.prototype.includes]. *)
Fixpoint includes (p s : jsstring) : bool :=
  startsWith p s ||
  match s with
  | [] => false
  | _ :: s' => includes p s'
  end.

(** [String.prototype.split] on a one-unit separator: the pieces between
    the separators, never an empty list. *)
Fixpoint split (sep : N) (s : jsstring) : list jsstring :=
  match s with
  | [] => [[]]
  | c :: s' =>
      if N.eqb c sep then [] :: split sep s'
      else match split sep s' with
           | l :: ls => (c :: l) :: ls
           | [] => [[c]]
           end
  end.

(** WhiteSpace and LineTerminator of ECMA-262, the units that
    [String.prototype.trim] strips. *)
Definition isWhiteSpace (c : N) : bool :=
  (N.leb 9 c && N.leb c 13) || N.eqb c 32 || N.eqb c 160 ||
  N.eqb c 5760 || (N.leb 8192 c && N.leb c 8202) ||
  N.eqb c 8232 || N.eqb c 8233 || N.eqb c 8239 || N.eqb c 8287 ||
  N.eqb c 12288 || N.eqb c 65279.

Fixpoint trimStart (s : jsstring) : jsstring :=
  match s with
  | c :: s' => if isWhiteSpace c then trimStart s' else s
  | [] => []
  end.

Definition trimEnd (s : jsstring) : jsstring := rev (trimStart (rev s)).

(** [String.prototype.trim]. *)
Definition trim (s : jsstring) : jsstring := trimEnd (trimStart s).

Definition newline : N := 10%N.

End JSString.
Import JSString.

(** ** Numbers

    A number is an IEEE 754 double: a finite value [mant * 2 ^ exp2], kept
    in the normal form in which [mant] is odd (zero is [Finite 0 0]), so
    that equal numbers are equal terms; an infinity; or [NaN].  Decimal
    text becomes a number by rounding to the nearest double, ties to even,
    and a number prints with the fewest digits that read back as itself.
    The two zeros are one value here: both are falsy and both print [0],
    and the program does nothing else with a zero. *)

Module JSNumber.

Inductive Number : Type :=
| Finite (mant exp2 : Z)
| Infinity (negative : bool)
| NaN.

Definition eqbNumber (a b : Number) : bool :=
  match a, b with
  | Finite m e, Finite m' e' => (m =? m') && (e =? e')
  | Infinity s, Infinity s' => Bool.eqb s s'
  | NaN, NaN => true
  | _, _ => false
  end.

(** [p = q * 2 ^ t] with [q] odd. *)
Fixpoint oddPart (p : positive) : positive * Z :=
  match p with
  | xO p' => let '(q, t) := oddPart p' in (q, t + 1)
  | _ => (p, 0)
  end.

(** The finite number of sign [neg] and magnitude [m * 2 ^ e], in normal
    form. *)
Definition finite (neg : bool) (m e : Z) : Number :=
  match m with
  | Zpos p =>
      let '(q, t) := oddPart p in
      Finite (if neg then Zneg q else Zpos q) (e + t)
  | _ => Finite 0 0
  end.

(** The double nearest to [n / d], for [0 <= n] and [0 < d], with the
    sign [neg]: 53 bits of precision, exponents from -1074 (where the
    subnormal numbers lie) to 971, ties to the even mantissa, infinity
    from [2 ^ 1024] on. *)
Definition roundRatio (neg : bool) (n d : Z) : Number :=
  if n <=? 0 then Finite 0 0 else
  let e1 := Z.log2 n - Z.log2 d - 52 in
  let scaled := if 0 <=? e1 then n / (d * 2 ^ e1) else (n * 2 ^ (- e1)) / d in
  let e2 := if 2 ^ 52 <=? scaled then e1 else e1 - 1 in
  let e := Z.max (-1074) e2 in
  let num := if 0 <=? e then n else n * 2 ^ (- e) in
  let den := if 0 <=? e then d * 2 ^ e else d in
  let q := num / den in
  let r := num mod den in
  let m := if (den <? 2 * r) || ((den =? 2 * r) && Z.odd q)
           then q + 1 else q in
  if (971 <? e) || ((e =? 971) && (2 ^ 53 <=? m)) then Infinity neg
  else finite neg m e.

(** The double nearest to [m * 10 ^ e10], for [0 <= m].  Beyond
    [10 ^ 310] every double is infinite and below [10 ^ -330] every
    double is zero: there the powers need not be computed. *)
Definition fromDecimal (neg : bool) (m e10 : Z) : Number :=
  if m <=? 0 then Finite 0 0
  else if 310 <? e10 then Infinity neg
  else if e10 + Z.log2 m + 1 <? -330 then Finite 0 0
  else if 0 <=? e10 then roundRatio neg (m * 10 ^ e10) 1
  else roundRatio neg m (10 ^ (- e10)).

Definition ofZ (z : Z) : Number := roundRatio (z <? 0) (Z.abs z) 1.

Definition isZero (n : Number) : bool :=
  match n with Finite m _ => m =? 0 | _ => false end.

Definition isNaN (n : Number) : bool :=
  match n with NaN => true | _ => false end.

(** [n > 0]. *)
Definition isPositive (n : Number) : bool :=
  match n with
  | Finite m _ => 0 <? m
  | Infinity negative => negb negative
  | NaN => false
  end.

(** [a + b] on numbers: the exact sum, rounded. *)
Definition add (a b : Number) : Number :=
  match a, b with
  | Finite ma ea, Finite mb eb =>
      let e := Z.min ea eb in
      let s := ma * 2 ^ (ea - e) + mb * 2 ^ (eb - e) in
      if 0 <=? e then roundRatio (s <? 0) (Z.abs s * 2 ^ e) 1
      else roundRatio (s <? 0) (Z.abs s) (2 ^ (- e))
  | Finite _ _, Infinity s | Infinity s, Finite _ _ => Infinity s
  | Infinity s, Infinity t => if Bool.eqb s t then Infinity s else NaN
  | _, _ => NaN
  end.

Fixpoint uintUnits (u : Decimal.uint) : jsstring :=
  match u with
  | Decimal.Nil => []
  | Decimal.D0 u' => 48%N :: uintUnits u'
  | Decimal.D1 u' => 49%N :: uintUnits u'
  | Decimal.D2 u' => 50%N :: uintUnits u'
  | Decimal.D3 u' => 51%N :: uintUnits u'
  | Decimal.D4 u' => 52%N :: uintUnits u'
  | Decimal.D5 u' => 53%N :: uintUnits u'
  | Decimal.D6 u' => 54%N :: uintUnits u'
  | Decimal.D7 u' => 55%N :: uintUnits u'
  | Decimal.D8 u' => 56%N :: uintUnits u'
  | Decimal.D9 u' => 57%N :: uintUnits u'
  end.

(** The decimal digits of a natural number. *)
Definition digitsOf (n : N) : jsstring := uintUnits (N.to_uint n).

Definition zeros (n : Z) : jsstring := replicate (Z.to_nat n) 48%N.

(** [n / d < 10 ^ k], for [0 < d]. *)
Definition belowPow10 (n d k : Z) : bool :=
  if 0 <=? k then n <? d * 10 ^ k else n * 10 ^ (- k) <? d.

(** The least [k] from [k0] on with [n / d < 10 ^ k]. *)
Fixpoint magnitudeFrom (fuel : nat) (n d k0 : Z) : Z :=
  match fuel with
  | O => k0
  | S fuel' =>
      if belowPow10 n d k0 then k0 else magnitudeFrom fuel' n d (k0 + 1)
  end.

(** The [n] with [10 ^ (n - 1) <= num / den < 10 ^ n], for a positive
    [num / den]: the search starts below the estimate that the binary
    logarithms give. *)
Definition magnitude (num den : Z) : Z :=
  let l := Z.log2 num - Z.log2 den in
  magnitudeFrom 8 num den ((l - 1) * 30102 / 100000 - 1).

(** The decimal of [k] digits that reads back as [x], the positive
    number [num / den]: of the two [k]-digit decimals around it, the one
    that rounds to [x], the nearer one when both do.  The result is
    [(s, p)] for the decimal [s * 10 ^ p]. *)
Definition digitsAt (x : Number) (num den n k : Z) : option (Z * Z) :=
  let p := n - k in
  let a := if 0 <=? p then num else num * 10 ^ (- p) in
  let b := if 0 <=? p then den * 10 ^ p else den in
  let lo := a / b in
  let r := a mod b in
  let hi := lo + 1 in
  let okLo := eqbNumber x (fromDecimal false lo p) in
  let okHi := eqbNumber x (fromDecimal false hi p) in
  if okLo && okHi
  then Some (if (2 * r <? b) || ((2 * r =? b) && Z.even lo) then lo else hi, p)
  else if okLo then Some (lo, p)
  else if okHi then Some (hi, p)
  else None.

(** The fewest digits: [k] grows from [k0] until a decimal reads back. *)
Fixpoint shortestFrom (fuel : nat) (x : Number) (num den n k0 : Z) : Z * Z :=
  match fuel with
  | O => (num / den, 0)
  | S fuel' =>
      match digitsAt x num den n k0 with
      | Some sp => sp
      | None => shortestFrom fuel' x num den n (k0 + 1)
      end
  end.

(** [s * 10 ^ p] without the trailing zeros of [s]. *)
Fixpoint stripZeros (fuel : nat) (s p : Z) : Z * Z :=
  match fuel with
  | O => (s, p)
  | S fuel' =>
      if (s =? 0) || negb (s mod 10 =? 0) then (s, p)
      else stripZeros fuel' (s / 10) (p + 1)
  end.

(** The digits [s] and the decimal exponent [p] that Number::toString
    prints for the positive number [m * 2 ^ e]: [s * 10 ^ p] reads back
    as the number, and [s] has as few digits as possible (17 always
    suffice). *)
Definition shortest (m e : Z) : Z * Z :=
  let num := if 0 <=? e then m * 2 ^ e else m in
  let den := if 0 <=? e then 1 else 2 ^ (- e) in
  let '(s, p) :=
    shortestFrom 17 (finite false m e) num den (magnitude num den) 1 in
  stripZeros 18 s p.

(** Number::toString of ECMA-262: [k] digits, decimal point after the
    [n]-th digit. *)
Definition NumberToString (x : Number) : jsstring :=
  match x with
  | NaN => js "NaN"
  | Infinity negative => if negative then js "-Infinity" else js "Infinity"
  | Finite m e =>
      if m =? 0 then js "0" else
      let '(s, p) := shortest (Z.abs m) e in
      let ds := digitsOf (Z.to_N s) in
      let k := Z.of_nat (length ds) in
      let n := k + p in
      let body :=
        if (k <=? n) && (n <=? 21) then ds ++ zeros (n - k)
        else if (0 <? n) && (n <=? 21) then
          take (Z.to_nat n) ds ++ js "." ++ drop (Z.to_nat n) ds
        else if (-6 <? n) && (n <=? 0) then js "0." ++ zeros (- n) ++ ds
        else
          let ex := (if n - 1 <? 0 then js "-" else js "+")
                      ++ digitsOf (Z.abs_N (n - 1)) in
          if k =? 1 then ds ++ js "e" ++ ex
          else take 1 ds ++ js "." ++ drop 1 ds ++ js "e" ++ ex in
      if m <? 0 then js "-" ++ body else body
  end.

Definition isDigit (c : N) : bool := N.leb 48 c && N.leb c 57.

Definition digitVal (c : N) : Z := Z.of_N c - 48.

(** The value of a run of decimal digits. *)
Definition digitsVal (ds : jsstring) : Z :=
  fold_left (fun acc c => acc * 10 + digitVal c) ds 0.

Fixpoint span (p : N -> bool) (s : jsstring) : jsstring * jsstring :=
  match s with
  | c :: s' =>
      if p c then let '(a, b) := span p s' in (c :: a, b) else ([], s)
  | [] => ([], [])
  end.

Definition isHexDigit (c : N) : bool :=
  isDigit c || (N.leb 65 c && N.leb c 70) || (N.leb 97 c && N.leb c 102).
Definition isOctalDigit (c : N) : bool := N.leb 48 c && N.leb c 55.
Definition isBinaryDigit (c : N) : bool := N.leb 48 c && N.leb c 49.

Definition someNonZero (ds : jsstring) : bool :=
  existsb (fun c => negb (N.eqb c 48)) ds.

(** [ds] is a non-empty run of [p]-digits with a non-zero one. *)
Definition positiveRun (p : N -> bool) (ds : jsstring) : bool :=
  negb (eqb ds []) && forallb p ds && someNonZero ds.

(** ExponentPart_opt of StrUnsignedDecimalLiteral: its value, [None]
    when the text is no exponent part. *)
Definition exponentOf (s : jsstring) : option Z :=
  match s with
  | [] => Some 0
  | c :: r =>
      if N.eqb c 101 || N.eqb c 69 then
        let '(neg, r') :=
          match r with
          | 43%N :: r'' => (false, r'')
          | 45%N :: r'' => (true, r'')
          | _ => (false, r)
          end in
        if negb (eqb r' []) && forallb isDigit r'
        then Some (if neg then - digitsVal r' else digitsVal r')
        else None
      else None
  end.

(** StrUnsignedDecimalLiteral (other than Infinity) with a value above
    zero: digits, an optional fraction, an optional exponent, read as
    the nearest double. *)
Definition unsignedDecimalPositive (u : jsstring) : bool :=
  let '(ip, r1) := span isDigit u in
  let '(fp, r2) :=
    match r1 with
    | 46%N :: r' => span isDigit r'
    | _ => ([], r1)
    end in
  negb (eqb (ip ++ fp) []) &&
  match exponentOf r2 with
  | Some x =>
      isPositive (fromDecimal false (digitsVal (ip ++ fp))
                    (x - Z.of_nat (length fp)))
  | None => false
  end.

(** StringToNumber of ECMA-262, as far as the program observes it: does
    the string denote a number greater than zero. *)
Definition stringIsPositive (s : jsstring) : bool :=
  let t := trim s in
  match t with
  | 48%N :: x :: r =>
      if N.eqb x 120 || N.eqb x 88 then positiveRun isHexDigit r
      else if N.eqb x 111 || N.eqb x 79 then positiveRun isOctalDigit r
      else if N.eqb x 98 || N.eqb x 66 then positiveRun isBinaryDigit r
      else unsignedDecimalPositive t
  | 45%N :: _ => false
  | 43%N :: u => eqb u (js "Infinity") || unsignedDecimalPositive u
  | _ => eqb t (js "Infinity") || unsignedDecimalPositive t
  end.

End JSNumber.
Import JSNumber.

(** ** Values, errors and coercions *)

Module JS.

Inductive JSVal : Type :=
| Undefined
| Null
| Boolean (b : bool)
| Num (n : Number)
| Str (s : jsstring)
| Arr (l : list JSVal)
| Obj (fields : list (jsstring * JSVal)).

Inductive JSError : Type := TypeError | SyntaxError | RangeError.

Inductive Result (A : Type) : Type :=
| Ok (a : A)
| Throw (e : JSError).
Arguments Ok {A} a.
Arguments Throw {A} e.

Definition bind {A B} (r : Result A) (f : A -> Result B) : Result B :=
  match r with
  | Ok a => f a
  | Throw e => Throw e
  end.

(** ToBoolean. *)
Definition truthy (v : JSVal) : bool :=
  match v with
  | Undefined | Null => false
  | Boolean b => b
  | Num n => negb (isZero n) && negb (isNaN n)
  | Str s => negb (eqb s [])
  | Arr _ | Obj _ => true
  end.

(** [a || b]. *)
Definition or_else (a b : JSVal) : JSVal := if truthy a then a else b.

(** The own property [k] of an object built by [JSON.parse]. *)
Fixpoint lookup (k : jsstring) (fields : list (jsstring * JSVal)) : JSVal :=
  match fields with
  | [] => Undefined
  | (k', v) :: fields' => if eqb k k' then v else lookup k fields'
  end.

Definition hasKey (k : jsstring) (fields : list (jsstring * JSVal)) : bool :=
  existsb (fun kv => eqb k (fst kv)) fields.

(** [o[k] = v] on the properties of an object: an existing property keeps
    its place, a new one comes last. *)
Fixpoint assign (k : jsstring) (v : JSVal) (fields : list (jsstring * JSVal))
  : list (jsstring * JSVal) :=
  match fields with
  | [] => [(k, v)]
  | (k', v') :: fields' =>
      if eqb k k' then (k, v) :: fields' else (k', v') :: assign k v fields'
  end.

(** A canonical numeric string of an integer below [2 ^ 32 - 1] is an
    array index. *)
Definition isArrayIndex (k : jsstring) : option nat :=
  match k with
  | [] => None
  | c :: r =>
      if forallb isDigit k && (negb (N.eqb c 48) || eqb r [])
         && (digitsVal k <=? 4294967294)
      then Some (Z.to_nat (digitsVal k))
      else None
  end.

(** [v[k]] where [v] is neither [null] nor [undefined].  Own properties
    only: the names this program reads ([id], [choices], [0], [delta],
    [length], ...) are not defined on the prototypes, except [length],
    which strings and arrays have. *)
Definition prop (v : JSVal) (k : jsstring) : JSVal :=
  match v with
  | Undefined | Null | Boolean _ | Num _ => Undefined
  | Str s =>
      if eqb k (js "length") then Num (ofZ (Z.of_nat (length s)))
      else match isArrayIndex k with
           | Some i => match s !! i with Some c => Str [c] | None => Undefined end
           | None => Undefined
           end
  | Arr l =>
      if eqb k (js "length") then Num (ofZ (Z.of_nat (length l)))
      else match isArrayIndex k with
           | Some i => default Undefined (l !! i)
           | None => Undefined
           end
  | Obj fields => lookup k fields
  end.

(** [v === undefined]. *)
Definition isUndefined (v : JSVal) : bool :=
  match v with Undefined => true | _ => false end.

Definition nullish (v : JSVal) : bool :=
  match v with Undefined | Null => true | _ => false end.

(** [v.k]: a TypeError on [null] and [undefined]. *)
Definition get (v : JSVal) (k : jsstring) : Result JSVal :=
  if nullish v then Throw TypeError else Ok (prop v k).

(** [a === b] against a string literal of the source. *)
Definition isStr (v : JSVal) (s : jsstring) : bool :=
  match v with Str t => eqb t s | _ => false end.

Definition primToString (v : JSVal) : jsstring :=
  match v with
  | Undefined => js "undefined"
  | Null => js "null"
  | Boolean true => js "true"
  | Boolean false => js "false"
  | Num n => NumberToString n
  | Str s => s
  | Arr _ | Obj _ => []
  end.

(** ToString.  An array joins its elements with commas ([null] prints as
    the empty string there); an object prints [[object Object]] through
    the inherited [toString], and throws when an own property (never
    callable in parsed JSON) shadows it. *)
Fixpoint ToString (v : JSVal) : Result jsstring :=
  match v with
  | Arr l =>
      (fix join (l : list JSVal) : Result jsstring :=
         match l with
         | [] => Ok []
         | x :: l' =>
             bind (if nullish x then Ok [] else ToString x) (fun s =>
             match l' with
             | [] => Ok s
             | _ :: _ => bind (join l') (fun r => Ok (s ++ js "," ++ r))
             end)
         end) l
  | Obj fields =>
      if hasKey (js "toString") fields then Throw TypeError
      else Ok (js "[object Object]")
  | _ => Ok (primToString v)
  end.

(** ToPrimitive: arrays and objects become their string. *)
Definition ToPrimitive (v : JSVal) : Result JSVal :=
  match v with
  | Arr _ | Obj _ => bind (ToString v) (fun s => Ok (Str s))
  | _ => Ok v
  end.

(** ToNumber of a primitive other than a string. *)
Definition primToNumber (v : JSVal) : Number :=
  match v with
  | Null | Boolean false => ofZ 0
  | Boolean true => ofZ 1
  | Num n => n
  | _ => NaN
  end.

(** [a + b]: concatenation when a side is a string after ToPrimitive,
    numeric addition otherwise. *)
Definition plus (a b : JSVal) : Result JSVal :=
  bind (ToPrimitive a) (fun pa =>
  bind (ToPrimitive b) (fun pb =>
  match pa, pb with
  | Str _, _ | _, Str _ => Ok (Str (primToString pa ++ primToString pb))
  | _, _ => Ok (Num (add (primToNumber pa) (primToNumber pb)))
  end)).

(** [v > 0]. *)
Definition gtZero (v : JSVal) : Result bool :=
  bind (ToPrimitive v) (fun p =>
  match p with
  | Str s => Ok (stringIsPositive s)
  | _ => Ok (isPositive (primToNumber p))
  end).

(** The values a [for ... of] loop draws from [v]: the elements of an
    array, the code points of a string; other parsed values are not
    iterable. *)
Fixpoint codePoints (s : jsstring) : list JSVal :=
  match s with
  | [] => []
  | c :: s' =>
      match s' with
      | d :: s'' =>
          if (N.leb 55296 c && N.leb c 56319 && N.leb 56320 d && N.leb d 57343)
          then Str [c; d] :: codePoints s''
          else Str [c] :: codePoints s'
      | [] => [Str [c]]
      end
  end.

Definition iterate (v : JSVal) : Result (list JSVal) :=
  match v with
  | Arr l => Ok l
  | Str s => Ok (codePoints s)
  | _ => Throw TypeError
  end.

(** [{...v}]: the own enumerable properties of [v]. *)
Definition spread (v : JSVal) : list (jsstring * JSVal) :=
  match v with
  | Obj fields => fields
  | Arr l => imap (fun i x => (digitsOf (N.of_nat i), x)) l
  | Str s => imap (fun i c => (digitsOf (N.of_nat i), Str [c])) s
  | _ => []
  end.

End JS.
Import JS.

Notation "'let!' x ':=' r 'in' k" := (JS.bind r (fun x => k))
  (at level 10, x name, r at level 100, k at level 200).

(** ** [JSON.parse]

    The grammar of ECMA-404 on code units.  A repeated key of an object
    keeps the place of its first occurrence and the value of its last. *)

Module JSON.

Definition isJSONSpace (c : N) : bool :=
  N.eqb c 9 || N.eqb c 10 || N.eqb c 13 || N.eqb c 32.

Fixpoint skipWs (s : jsstring) : jsstring :=
  match s with
  | c :: s' => if isJSONSpace c then skipWs s' else s
  | [] => []
  end.

Definition hexVal (c : N) : option N :=
  if isDigit c then Some (c - 48)%N
  else if N.leb 65 c && N.leb c 70 then Some (c - 55)%N
  else if N.leb 97 c && N.leb c 102 then Some (c - 87)%N
  else None.

Definition hex4 (a b c d : N) : option N :=
  match hexVal a, hexVal b, hexVal c, hexVal d with
  | Some x, Some y, Some z, Some w => Some (((x * 16 + y) * 16 + z) * 16 + w)%N
  | _, _, _, _ => None
  end.

Definition escape (c : N) : option N :=
  if N.eqb c 34 then Some 34%N          (* quote *)
  else if N.eqb c 92 then Some 92%N     (* backslash *)
  else if N.eqb c 47 then Some 47%N     (* slash *)
  else if N.eqb c 98 then Some 8%N      (* b *)
  else if N.eqb c 102 then Some 12%N    (* f *)
  else if N.eqb c 110 then Some 10%N    (* n *)
  else if N.eqb c 114 then Some 13%N    (* r *)
  else if N.eqb c 116 then Some 9%N     (* t *)
  else None.

(** The characters of a string literal after its opening quote, up to the
    closing quote. *)
Fixpoint parseChars (s : jsstring) : option (jsstring * jsstring) :=
  match s with
  | [] => None
  | c :: r =>
      if N.eqb c 34 then Some ([], r)
      else if N.eqb c 92 then
        match r with
        | e :: r1 =>
            if N.eqb e 117 then
              match r1 with
              | h1 :: h2 :: h3 :: h4 :: r2 =>
                  match hex4 h1 h2 h3 h4, parseChars r2 with
                  | Some u, Some (t, rest) => Some (u :: t, rest)
                  | _, _ => None
                  end
              | _ => None
              end
            else
              match escape e, parseChars r1 with
              | Some u, Some (t, rest) => Some (u :: t, rest)
              | _, _ => None
              end
        | [] => None
        end
      else if N.ltb c 32 then None
      else match parseChars r with
           | Some (t, rest) => Some (c :: t, rest)
           | None => None
           end
  end.

(** A run of one or more digits. *)
Definition digits1 (s : jsstring) : option (jsstring * jsstring) :=
  let '(ds, r) := span isDigit s in
  if eqb ds [] then None else Some (ds, r).

(** [int frac? exp?] after the optional minus sign. *)
Definition parseUnsigned (s : jsstring) : option (Z * Z * jsstring) :=
  let intPart :=
    match s with
    | 48%N :: r => Some ([48%N], r)
    | _ => digits1 s
    end in
  match intPart with
  | None => None
  | Some (ip, r1) =>
      let fracPart :=
        match r1 with
        | 46%N :: r2 => digits1 r2
        | _ => Some ([], r1)
        end in
      match fracPart with
      | None => None
      | Some (fp, r3) =>
          let m := digitsVal (ip ++ fp) in
          let e := - Z.of_nat (length fp) in
          match r3 with
          | c :: r4 =>
              if N.eqb c 101 || N.eqb c 69 then
                let '(neg, r5) :=
                  match r4 with
                  | 43%N :: r' => (false, r')
                  | 45%N :: r' => (true, r')
                  | _ => (false, r4)
                  end in
                match digits1 r5 with
                | Some (ds, r6) =>
                    let x := digitsVal ds in
                    Some (m, e + (if neg then - x else x), r6)
                | None => None
                end
              else Some (m, e, r3)
          | [] => Some (m, e, r3)
          end
      end
  end.

Definition parseNumber (s : jsstring) : option (JSVal * jsstring) :=
  match s with
  | 45%N :: r =>
      match parseUnsigned r with
      | Some (m, e, rest) => Some (Num (fromDecimal true m e), rest)
      | None => None
      end
  | _ =>
      match parseUnsigned s with
      | Some (m, e, rest) => Some (Num (fromDecimal false m e), rest)
      | None => None
      end
  end.

Definition parseLiteral (s : jsstring) : option (JSVal * jsstring) :=
  if startsWith (js "true") s then Some (Boolean true, drop 4 s)
  else if startsWith (js "false") s then Some (Boolean false, drop 5 s)
  else if startsWith (js "null") s then Some (Null, drop 4 s)
  else parseNumber s.

Fixpoint parseValue (fuel : nat) (s : jsstring) : option (JSVal * jsstring) :=
  match fuel with
  | O => None
  | S fuel' =>
      match skipWs s with
      | [] => None
      | c :: r =>
          if N.eqb c 123 then                             (* object *)
            match skipWs r with
            | [] => None
            | c' :: r' =>
                if N.eqb c' 125 then Some (Obj [], r')
                else parseMembers fuel' (c' :: r') []
            end
          else if N.eqb c 91 then                         (* array *)
            match skipWs r with
            | [] => None
            | c' :: r' =>
                if N.eqb c' 93 then Some (Arr [], r')
                else parseElements fuel' (c' :: r') []
            end
          else if N.eqb c 34 then                         (* string *)
            match parseChars r with
            | Some (t, rest) => Some (Str t, rest)
            | None => None
            end
          else parseLiteral (c :: r)
      end
  end
with parseElements (fuel : nat) (s : jsstring) (acc : list JSVal)
  : option (JSVal * jsstring) :=
  match fuel with
  | O => None
  | S fuel' =>
      match parseValue fuel' s with
      | Some (v, r) =>
          match skipWs r with
          | [] => None
          | c :: r' =>
              if N.eqb c 44 then parseElements fuel' r' (acc ++ [v])
              else if N.eqb c 93 then Some (Arr (acc ++ [v]), r')
              else None
          end
      | None => None
      end
  end
with parseMembers (fuel : nat) (s : jsstring) (acc : list (jsstring * JSVal))
  : option (JSVal * jsstring) :=
  match fuel with
  | O => None
  | S fuel' =>
      match skipWs s with
      | [] => None
      | q :: r =>
          if N.eqb q 34 then
            match parseChars r with
            | Some (k, r1) =>
                match skipWs r1 with
                | [] => None
                | c :: r2 =>
                    if N.eqb c 58 then
                      match parseValue fuel' r2 with
                      | Some (v, r3) =>
                          match skipWs r3 with
                          | [] => None
                          | d :: r4 =>
                              if N.eqb d 44
                              then parseMembers fuel' r4 (assign k v acc)
                              else if N.eqb d 125
                              then Some (Obj (assign k v acc), r4)
                              else None
                          end
                      | None => None
                      end
                    else None
                end
            | None => None
            end
          else None
      end
  end.

(** [JSON.parse]: one value, then only white space.  Twice the length of
    the text is fuel enough: more fuel never changes the result. *)
Definition parse (s : jsstring) : Result JSVal :=
  match parseValue (2 * length s + 2) s with
  | Some (v, r) => if eqb (skipWs r) [] then Ok v else Throw SyntaxError
  | None => Throw SyntaxError
  end.

End JSON.

(** ** [TextDecoder]

    The UTF-8 decoder of the Encoding standard, in replacement mode, as
    [new TextDecoder()] runs it under [decode(value, { stream: true })]: the
    bytes of an unfinished sequence stay in the decoder until the next
    call, and the first scalar value of the stream is dropped when it is
    the byte order mark.  Only bytes are carried over; text is not. *)

Module TextDecoder.

Record Decoder : Type := mkDecoder {
  codePoint : N;
  bytesSeen : N;
  bytesNeeded : N;
  lowerBoundary : N;
  upperBoundary : N;
  bomSeen : bool
}.

Definition fresh : Decoder := mkDecoder 0 0 0 128 191 false.

(** The decoder between two sequences. *)
Definition reset (d : Decoder) : Decoder :=
  mkDecoder 0 0 0 128 191 (bomSeen d).

(** A byte met when no sequence is open: the new state and the scalar
    value it completes, if any. *)
Definition lead (d : Decoder) (b : N) : Decoder * list N :=
  if N.leb b 127 then (d, [b])
  else if N.leb 194 b && N.leb b 223 then
    (mkDecoder (N.land b 31) 0 1 128 191 (bomSeen d), [])
  else if N.leb 224 b && N.leb b 239 then
    (mkDecoder (N.land b 15) 0 2
       (if N.eqb b 224 then 160 else 128)
       (if N.eqb b 237 then 159 else 191) (bomSeen d), [])
  else if N.leb 240 b && N.leb b 244 then
    (mkDecoder (N.land b 7) 0 3
       (if N.eqb b 240 then 144 else 128)
       (if N.eqb b 244 then 143 else 191) (bomSeen d), [])
  else (d, [65533%N]).

(** The handler of the UTF-8 decoder on one byte.  A byte that cannot
    continue the open sequence closes it with U+FFFD and is read again
    as a lead byte. *)
Definition handler (d : Decoder) (b : N) : Decoder * list N :=
  if N.eqb (bytesNeeded d) 0 then lead d b
  else if negb (N.leb (lowerBoundary d) b && N.leb b (upperBoundary d)) then
    let '(d', out) := lead (reset d) b in (d', 65533%N :: out)
  else
    let cp := N.lor (N.shiftl (codePoint d) 6) (N.land b 63) in
    let seen := (bytesSeen d + 1)%N in
    if N.eqb seen (bytesNeeded d) then (reset d, [cp])
    else (mkDecoder cp seen (bytesNeeded d) 128 191 (bomSeen d), []).

(** A scalar value as UTF-16 code units. *)
Definition utf16 (cp : N) : jsstring :=
  if N.ltb cp 65536 then [cp]
  else
    let c := (cp - 65536)%N in
    [(55296 + N.shiftr c 10)%N; (56320 + N.land c 1023)%N].

(** Serialising the scalar values: the first one of the stream is
    dropped when it is U+FEFF. *)
Fixpoint serialize (seen : bool) (out : list N) : bool * jsstring :=
  match out with
  | [] => (seen, [])
  | cp :: out' =>
      if seen then
        let '(s, t) := serialize seen out' in (s, utf16 cp ++ t)
      else if N.eqb cp 65279 then serialize true out'
      else let '(s, t) := serialize true out' in (s, utf16 cp ++ t)
  end.

Definition withBom (d : Decoder) (seen : bool) : Decoder :=
  mkDecoder (codePoint d) (bytesSeen d) (bytesNeeded d)
    (lowerBoundary d) (upperBoundary d) seen.

Definition decodeByte (d : Decoder) (b : byte) : Decoder * jsstring :=
  let '(d', out) := handler d (Byte.to_N b) in
  let '(seen, text) := serialize (bomSeen d') out in
  (withBom d' seen, text).

(** [decoder.decode(value, { stream: true })]. *)
Fixpoint decode (d : Decoder) (value : list byte) : Decoder * jsstring :=
  match value with
  | [] => (d, [])
  | b :: value' =>
      let '(d1, t1) := decodeByte d b in
      let '(d2, t2) := decode d1 value' in
      (d2, t1 ++ t2)
  end.

(** Decoding a whole body at once ([request.json()], [response.text()]):
    an unfinished sequence at the end becomes U+FFFD. *)
Definition decodeAll (value : list byte) : jsstring :=
  let '(d, t) := decode fresh value in
  if N.eqb (bytesNeeded d) 0 then t
  else t ++ snd (serialize (bomSeen d) [65533%N]).

(** A decoder state the decoder can be in: inside a sequence the lower
    boundary is a continuation byte. *)
Definition wellFormed (d : Decoder) : Prop :=
  bytesNeeded d = 0%N \/ (128 <= lowerBoundary d)%N.

End TextDecoder.

(** ** The stream reducer: [collectStreamData] *)

Module StreamReducer.

(** [currentToolCall]: [{ id, type, function: { name, arguments } }]. *)
Record ToolCall : Type := mkToolCall {
  tc_id : JSVal;
  tc_type : JSVal;
  tc_name : JSVal;
  tc_arguments : JSVal
}.

(** The array [toolCalls]: its elements ([None] is a hole; [length] is the
    length of [slots]) and the own properties stored under keys that are
    not array indices. *)
Record ToolCalls : Type := mkToolCalls {
  slots : list (option ToolCall);
  named : list (jsstring * ToolCall)
}.

(** The names an array inherits from [Array.prototype] and
    [Object.prototype] (ECMAScript 2023): under each of them a read finds
    a function, unless an own property hides it.  [length] is an own
    property, and [__proto__] is not in the list: Deno deletes that
    accessor from [Object.prototype]. *)
Definition inheritedNames : list jsstring :=
  [js "at"; js "concat"; js "constructor"; js "copyWithin"; js "entries";
   js "every"; js "fill"; js "filter"; js "find"; js "findIndex";
   js "findLast"; js "findLastIndex"; js "flat"; js "flatMap";
   js "forEach"; js "includes"; js "indexOf"; js "join"; js "keys";
   js "lastIndexOf"; js "map"; js "pop"; js "push"; js "reduce";
   js "reduceRight"; js "reverse"; js "shift"; js "slice"; js "some";
   js "sort"; js "splice"; js "toLocaleString"; js "toReversed";
   js "toSorted"; js "toSpliced"; js "toString"; js "unshift";
   js "values"; js "with"; js "hasOwnProperty"; js "isPrototypeOf";
   js "propertyIsEnumerable"; js "valueOf"; js "__defineGetter__";
   js "__defineSetter__"; js "__lookupGetter__"; js "__lookupSetter__"].

Definition inherited (s : jsstring) : bool := existsb (eqb s) inheritedNames.

Inductive Key : Type :=
| Index (i : nat)
| Length
| Name (s : jsstring).

Definition toKey (k : jsstring) : Key :=
  match isArrayIndex k with
  | Some i => Index i
  | None => if eqb k (js "length") then Length else Name k
  end.

(** [a[i] = x] on array elements: in range it overwrites, beyond the end
    it extends the array, leaving holes. *)
Definition setSlot (i : nat) (x : ToolCall) (l : list (option ToolCall))
  : list (option ToolCall) :=
  if decide (i < length l)%nat then <[i := Some x]> l
  else l ++ replicate (i - length l) None ++ [Some x].

Fixpoint lookupNamed (k : jsstring) (l : list (jsstring * ToolCall))
  : option ToolCall :=
  match l with
  | [] => None
  | (k', x) :: l' => if eqb k k' then Some x else lookupNamed k l'
  end.

Fixpoint setNamed (k : jsstring) (x : ToolCall)
    (l : list (jsstring * ToolCall)) : list (jsstring * ToolCall) :=
  match l with
  | [] => [(k, x)]
  | (k', x') :: l' =>
      if eqb k k' then (k, x) :: l' else (k', x') :: setNamed k x l'
  end.

(** The state of the fold: the local variables of [collectStreamData]. *)
Record Acc : Type := mkAcc {
  content : jsstring;
  model : JSVal;
  id : JSVal;
  created : JSVal;
  finishReason : JSVal;
  toolCalls : ToolCalls;
  usage : JSVal
}.

Definition set_content (x : jsstring) (a : Acc) : Acc :=
  mkAcc x (model a) (id a) (created a) (finishReason a) (toolCalls a) (usage a).
Definition set_model (x : JSVal) (a : Acc) : Acc :=
  mkAcc (content a) x (id a) (created a) (finishReason a) (toolCalls a) (usage a).
Definition set_id (x : JSVal) (a : Acc) : Acc :=
  mkAcc (content a) (model a) x (created a) (finishReason a) (toolCalls a) (usage a).
Definition set_created (x : JSVal) (a : Acc) : Acc :=
  mkAcc (content a) (model a) (id a) x (finishReason a) (toolCalls a) (usage a).
Definition set_finishReason (x : JSVal) (a : Acc) : Acc :=
  mkAcc (content a) (model a) (id a) (created a) x (toolCalls a) (usage a).
Definition set_toolCalls (x : ToolCalls) (a : Acc) : Acc :=
  mkAcc (content a) (model a) (id a) (created a) (finishReason a) x (usage a).
Definition set_usage (x : JSVal) (a : Acc) : Acc :=
  mkAcc (content a) (model a) (id a) (created a) (finishReason a) (toolCalls a) x.

(** Running a statement of the [try] block: it completes, or it throws
    and the [catch] receives the state as the statement left it. *)
Inductive Exc (S : Type) : Type :=
| Next (s : S)
| Abort (s : S).
Arguments Next {S} s.
Arguments Abort {S} s.

Definition andThen {S} (r : Exc S) (f : S -> Exc S) : Exc S :=
  match r with
  | Next s => f s
  | Abort s => Abort s
  end.

(** The state after the [catch]. *)
Definition caught {S} (r : Exc S) : S :=
  match r with Next s | Abort s => s end.

(** A [for ... of] loop whose body may throw. *)
Fixpoint forOf {S A} (body : S -> A -> Exc S) (l : list A) (s : S) : Exc S :=
  match l with
  | [] => Next s
  | x :: l' => andThen (body s x) (forOf body l')
  end.

(** Lines 196-202: the delta continues the tool call [tc] stored under its
    index. *)
Definition continueToolCall (fn : JSVal) (tc : ToolCall) : Result ToolCall :=
  let! tc1 :=
    match prop fn (js "arguments") with
    | Undefined => Ok tc
    | frag =>
        let! args := plus (tc_arguments tc) frag in
        Ok (mkToolCall (tc_id tc) (tc_type tc) (tc_name tc) args)
    end in
  if truthy (prop fn (js "name"))
  then Ok (mkToolCall (tc_id tc1) (tc_type tc1) (prop fn (js "name"))
             (tc_arguments tc1))
  else Ok tc1.

(** Lines 182-203: the body of the loop over [choice.delta.tool_calls].
    Reading [toolCall.index] throws on [null]; converting the index to a
    property key throws when ToString does.  Under the key [length] the
    assignment of line 194 is a RangeError, and line 195 reads the length
    of the array, a number: when it is not zero, lines 198 and 201 throw
    on its missing [function].  They throw in the same way under an
    inherited name that no own property hides, where line 195 reads a
    function. *)
Definition applyToolCall (tcs : ToolCalls) (toolCall : JSVal) : Exc ToolCalls :=
  if nullish toolCall then Abort tcs else
  let toolIndex := or_else (prop toolCall (js "index")) (Num (ofZ 0)) in
  let fn := prop toolCall (js "function") in
  if truthy (prop toolCall (js "id")) && truthy (prop toolCall (js "type"))
     && truthy fn
  then
    let currentToolCall :=
      mkToolCall (prop toolCall (js "id")) (prop toolCall (js "type"))
        (or_else (prop fn (js "name")) (Str []))
        (or_else (prop fn (js "arguments")) (Str [])) in
    match ToString toolIndex with
    | Throw _ => Abort tcs
    | Ok k =>
        match toKey k with
        | Index i =>
            Next (mkToolCalls (setSlot i currentToolCall (slots tcs)) (named tcs))
        | Length => Abort tcs
        | Name s =>
            Next (mkToolCalls (slots tcs) (setNamed s currentToolCall (named tcs)))
        end
    end
  else
    match ToString toolIndex with
    | Throw _ => Abort tcs
    | Ok k =>
        match toKey k with
        | Index i =>
            match slots tcs !! i with
            | Some (Some tc) =>
                if truthy fn then
                  match continueToolCall fn tc with
                  | Ok tc' =>
                      Next (mkToolCalls (<[i := Some tc']> (slots tcs)) (named tcs))
                  | Throw _ => Abort tcs
                  end
                else Next tcs
            | _ => Next tcs
            end
        | Length =>
            if decide (length (slots tcs) = 0%nat) then Next tcs
            else if truthy fn
                    && (negb (isUndefined (prop fn (js "arguments")))
                        || truthy (prop fn (js "name")))
            then Abort tcs
            else Next tcs
        | Name s =>
            match lookupNamed s (named tcs) with
            | Some tc =>
                if truthy fn then
                  match continueToolCall fn tc with
                  | Ok tc' =>
                      Next (mkToolCalls (slots tcs) (setNamed s tc' (named tcs)))
                  | Throw _ => Abort tcs
                  end
                else Next tcs
            | None =>
                if inherited s && truthy fn
                   && (negb (isUndefined (prop fn (js "arguments")))
                       || truthy (prop fn (js "name")))
                then Abort tcs
                else Next tcs
            end
        end
    end.

(** Lines 175-177: [content += choice.delta.content].  [content] is a
    string, so the sum is the concatenation with ToString of the delta. *)
Definition appendContent (delta : JSVal) (acc : Acc) : Exc Acc :=
  if truthy delta && truthy (prop delta (js "content")) then
    match ToString (prop delta (js "content")) with
    | Ok s => Next (set_content (content acc ++ s) acc)
    | Throw _ => Abort acc
    end
  else Next acc.

(** Lines 180-205: the tool calls of the delta. *)
Definition applyToolCalls (delta : JSVal) (acc : Acc) : Exc Acc :=
  let tool_calls := prop delta (js "tool_calls") in
  if truthy delta && truthy tool_calls then
    match gtZero (prop tool_calls (js "length")) with
    | Throw _ => Abort acc
    | Ok false => Next acc
    | Ok true =>
        match iterate tool_calls with
        | Throw _ => Abort acc
        | Ok l =>
            match forOf applyToolCall l (toolCalls acc) with
            | Next tcs => Next (set_toolCalls tcs acc)
            | Abort tcs => Abort (set_toolCalls tcs acc)
            end
        end
    end
  else Next acc.

(** Lines 207-209. *)
Definition setFinishReason (choice : JSVal) (acc : Acc) : Exc Acc :=
  if truthy (prop choice (js "finish_reason"))
  then Next (set_finishReason (prop choice (js "finish_reason")) acc)
  else Next acc.

(** Lines 164-169: last write wins for [id], [model], [created], [usage]. *)
Definition setHeader (parsed : JSVal) (acc : Acc) : Acc :=
  let acc1 := if truthy (prop parsed (js "id"))
              then set_id (prop parsed (js "id")) acc else acc in
  let acc2 := if truthy (prop parsed (js "model"))
              then set_model (prop parsed (js "model")) acc1 else acc1 in
  let acc3 := if truthy (prop parsed (js "created"))
              then set_created (prop parsed (js "created")) acc2 else acc2 in
  if truthy (prop parsed (js "usage"))
  then set_usage (prop parsed (js "usage")) acc3 else acc3.

(** Lines 164-210: the body of the [try] after [JSON.parse].  Reading
    [parsed.id] throws when [parsed] is [null]; every later read is on a
    value just tested truthy. *)
Definition processParsed (parsed : JSVal) (acc : Acc) : Exc Acc :=
  if nullish parsed then Abort acc else
  let acc' := setHeader parsed acc in
  let choices := prop parsed (js "choices") in
  if truthy choices && truthy (prop choices (js "0")) then
    let choice := prop choices (js "0") in
    let delta := prop choice (js "delta") in
    andThen (appendContent delta acc') (fun a =>
    andThen (applyToolCalls delta a) (fun a =>
    setFinishReason choice a))
  else Next acc'.

(** Lines 154-214: one line of a chunk. *)
Definition processLine (acc : Acc) (line : jsstring) : Acc :=
  if startsWith (js "data: ") line then
    let data := trim (slice 6 line) in
    if eqb data (js "[DONE]") then acc
    else
      match JSON.parse data with
      | Ok parsed => caught (processParsed parsed acc)
      | Throw _ => acc
      end
  else acc.

(** Lines 150-215: one value read from the stream. *)
Definition processChunk (st : TextDecoder.Decoder * Acc) (value : list byte)
  : TextDecoder.Decoder * Acc :=
  let '(decoder, acc) := st in
  let '(decoder', chunk) := TextDecoder.decode decoder value in
  let lines := split newline chunk in
  (decoder', fold_left processLine lines acc).

Definition zeroUsage : JSVal :=
  Obj [(js "prompt_tokens", Num (ofZ 0));
       (js "completion_tokens", Num (ofZ 0));
       (js "total_tokens", Num (ofZ 0))].

(** Lines 133-143; [now] is [Date.now()] at the start. *)
Definition initial (now : Z) : Acc :=
  mkAcc [] (Str []) (Str []) (Num (ofZ (now / 1000))) (Str (js "stop"))
    (mkToolCalls [] []) zeroUsage.

(** Lines 146-216: the read loop, over the values of a stream that ends
    normally. *)
Definition readAll (now : Z) (stream : list (list byte)) : Acc :=
  snd (fold_left processChunk stream (TextDecoder.fresh, initial now)).

Module Message.
Record t : Type := mk {
  role : jsstring;
  content : JSVal;
  tool_calls : option ToolCalls
}.
End Message.

Module Choice.
Record t : Type := mk {
  index : Z;
  message : Message.t;
  finish_reason : JSVal
}.
End Choice.

Module Completion.
Record t : Type := mk {
  id : JSVal;
  object : jsstring;
  created : JSVal;
  model : JSVal;
  choices : list Choice.t;
  usage : JSVal
}.
End Completion.

(** Lines 221-242; [now] is [Date.now()] at the end. *)
Definition build (now : Z) (acc : Acc) : Completion.t :=
  let message :=
    Message.mk (js "assistant")
      (if eqb (content acc) [] then Null else Str (content acc))
      (if decide (0 < length (slots (toolCalls acc)))%nat
       then Some (toolCalls acc) else None) in
  Completion.mk
    (or_else (id acc) (Str (js "chatcmpl-" ++ NumberToString (ofZ now))))
    (js "chat.completion")
    (created acc)
    (or_else (model acc) (Str (js "gpt-3.5-turbo")))
    [Choice.mk 0 message (finishReason acc)]
    (usage acc).

(** [collectStreamData]: [clock] gives the two readings of [Date.now()],
    before the loop and when the document is built. *)
Definition collectStreamData (clock : Z * Z) (stream : list (list byte))
  : Completion.t :=
  build (snd clock) (readAll (fst clock) stream).

End StreamReducer.

(** ** The message normalizer: [handleChatMessage] *)

Module Normalizer.

(** [{ type: 'text', text: t }]. *)
Definition textBlock (t : jsstring) : JSVal :=
  Obj [(js "type", Str (js "text")); (js "text", Str t)].

(** Line 272, the predicate of the [filter]:
    [item && item.type === 'text' && item.text && item.text.trim()].
    A truthy [item.text] that is not a string has no [trim] method, and
    calling it is a TypeError. *)
Definition keepItem (item : JSVal) : Result bool :=
  if truthy item && isStr (prop item (js "type")) (js "text")
     && truthy (prop item (js "text"))
  then
    match prop item (js "text") with
    | Str t => Ok (truthy (Str (trim t)))
    | _ => Throw TypeError
    end
  else Ok false.

Fixpoint filterItems (items : list JSVal) : Result (list JSVal) :=
  match items with
  | [] => Ok []
  | item :: items' =>
      let! keep := keepItem item in
      let! rest := filterItems items' in
      Ok (if keep then item :: rest else rest)
  end.

(** Lines 273-276, the function of the [map]:
    [{ ...item, text: item.text.trim() }] on an item the filter kept. *)
Definition trimItem (item : JSVal) : JSVal :=
  match prop item (js "text") with
  | Str t => Obj (assign (js "text") (Str (trim t)) (spread item))
  | _ => Obj (spread item)
  end.

(** Lines 252-287, the body of the loop: [None] is [continue], [Some m]
    is the message pushed on [fixedMessages]. *)
Definition fixMessage (message : JSVal) : Result (option JSVal) :=
  let content := prop message (js "content") in
  if negb (truthy message)
     || (negb (truthy content) && negb (truthy (prop message (js "role"))))
  then Ok None
  else
    let fixedMessage := spread message in
    match content with
    | Str s =>
        if truthy content then
          let textContent := trim s in
          if truthy (Str textContent)
          then Ok (Some (Obj (assign (js "content")
                                (Arr [textBlock textContent]) fixedMessage)))
          else Ok None
        else Ok None
    | Arr items =>
        let! kept := filterItems items in
        let validContent := map trimItem kept in
        if decide (length validContent = 0%nat) then Ok None
        else Ok (Some (Obj (assign (js "content") (Arr validContent)
                              fixedMessage)))
    | _ =>
        if negb (truthy content) then Ok None
        else Ok (Some (Obj fixedMessage))
    end.

(** Lines 248-288: the loop that fills [fixedMessages]. *)
Fixpoint fixMessages (messages : list JSVal) : Result (list JSVal) :=
  match messages with
  | [] => Ok []
  | message :: messages' =>
      let! fixed := fixMessage message in
      let! rest := fixMessages messages' in
      Ok (match fixed with Some m => m :: rest | None => rest end)
  end.

Definition defaultSystemMessage : JSVal :=
  Obj [(js "role", Str (js "system"));
       (js "content", Arr [textBlock (js "You are a helpful assistant.")])].

(** [handleChatMessage], lines 246-307. *)
Definition handleChatMessage (messages : list JSVal) : Result (list JSVal) :=
  let! fixedMessages := fixMessages messages in
  match fixedMessages with
  | [m] =>
      if negb (isStr (prop m (js "role")) (js "system"))
      then Ok (defaultSystemMessage :: fixedMessages)
      else Ok fixedMessages
  | _ => Ok fixedMessages
  end.

End Normalizer.

(** ** The request handler: [handleRequest] *)

Module Gateway.

Record Request : Type := mkRequest {
  method : jsstring;
  pathname : jsstring;
  headers : list (jsstring * jsstring);
  body : list byte
}.

Definition lowerUnit (c : N) : N :=
  if N.leb 65 c && N.leb c 90 then (c + 32)%N else c.

Definition lower (s : jsstring) : jsstring := map lowerUnit s.

Fixpoint joinValues (l : list jsstring) : jsstring :=
  match l with
  | [] => []
  | [v] => v
  | v :: l' => v ++ js ", " ++ joinValues l'
  end.

(** [Headers.prototype.get]: names compare without case; the values of a
    repeated header are joined; [None] is [null]. *)
Definition headersGet (name : jsstring) (hs : list (jsstring * jsstring))
  : option jsstring :=
  match filter (fun h => lower (fst h) = lower name) hs with
  | [] => None
  | l => Some (joinValues (map snd l))
  end.

(** [a || b] on the result of [headers.get]. *)
Definition orHeader (a b : option jsstring) : option jsstring :=
  match a with
  | Some (_ :: _) => a
  | _ => b
  end.

(** Lines 29-31. *)
Definition token (request : Request) : option jsstring :=
  orHeader (headersGet (js "authorization") (headers request))
    (orHeader (headersGet (js "x-api-key") (headers request))
       (headersGet (js "Authorization") (headers request))).

(** [!token]. *)
Definition missing (t : option jsstring) : bool :=
  match t with
  | Some (_ :: _) => false
  | _ => true
  end.

Inductive ErrorText : Type :=
| Text (v : JSVal)
| MessageOf (e : JSError).

Inductive Body : Type :=
| Plain (text : jsstring)
| ErrorEnvelope (message : ErrorText) (type : jsstring)
| Document (doc : StreamReducer.Completion.t)
| PassThrough (stream : list (list byte)).

Record Response : Type := mkResponse {
  status : Z;
  contentType : option jsstring;
  payload : Body
}.

(** [{ error: { message, type }, type: 'error' }] with a status. *)
Definition errorResponse (st : Z) (message : ErrorText) (type : jsstring)
  : Response :=
  mkResponse st (Some (js "application/json")) (ErrorEnvelope message type).

Record UpstreamRequest : Type := mkUpstreamRequest {
  url : jsstring;
  authorization : jsstring;
  forwarded : list (jsstring * JSVal)
}.

Inductive FetchResult : Type :=
| NetworkError
| Upstream (status : Z) (stream : list (list byte)).

Definition modelMapping : list (jsstring * JSVal) :=
  [(js "claude-4.0", Str (js "default-model"))].

(** Lines 64-85: the answer to an upstream status outside 200-299. *)
Definition upstreamError (st : Z) (stream : list (list byte)) : Response :=
  let errorData := TextDecoder.decodeAll (concat stream) in
  let fallback := Str (js "API request failed") in
  let errorMessage :=
    match JSON.parse errorData with
    | Ok parsed =>
        if nullish parsed then fallback
        else
          let err := prop parsed (js "error") in
          let m := if nullish err then Undefined else prop err (js "message") in
          or_else m (or_else (prop parsed (js "message")) fallback)
    | Throw _ => fallback
    end in
  errorResponse st (Text errorMessage) (js "server_error").

(** Lines 27-62, up to the call of [fetch]: the 401 answer, or the
    request to send and whether the client asked for a stream. *)
Definition prepare (request : Request)
  : Result (Response + bool * UpstreamRequest) :=
  let! body := JSON.parse (TextDecoder.decodeAll (body request)) in
  let! stream := get body (js "stream") in
  let isStream := match stream with Boolean true => true | _ => false end in
  match token request with
  | Some (c :: t) =>
      let! list := iterate (prop body (js "messages")) in
      let! messages := Normalizer.handleChatMessage list in
      let! key := ToString (prop body (js "model")) in
      let mappedModel :=
        or_else (lookup key modelMapping) (prop body (js "model")) in
      Ok (inr (isStream,
               mkUpstreamRequest
                 (js "https://www.codebuddy.ai/v2/chat/completions")
                 (c :: t)
                 (assign (js "model") mappedModel
                    (assign (js "messages") (Arr messages)
                       (assign (js "stream") (Boolean true) (spread body))))))
  | _ =>
      Ok (inl (errorResponse 401
                 (Text (Str (js "Authorization header is required")))
                 (js "auth_error")))
  end.

Definition internalError (e : JSError) : Response :=
  errorResponse 500 (MessageOf e) (js "server_error").

(** [handleRequest]: the response and the upstream calls made. *)
Definition handleRequest (fetch : UpstreamRequest -> FetchResult)
    (clock : Z * Z) (request : Request) : Response * list UpstreamRequest :=
  if negb (eqb (method request) (js "POST"))
  then (mkResponse 405 None (Plain (js "Method Not Allowed")), [])
  else if negb (includes (js "/chat/completions") (pathname request))
  then (mkResponse 404 None (Plain (js "Not Found")), [])
  else
    match prepare request with
    | Throw e => (internalError e, [])
    | Ok (inl response) => (response, [])
    | Ok (inr (isStream, upstream)) =>
        match fetch upstream with
        | NetworkError => (internalError TypeError, [upstream])
        | Upstream st stream =>
            if negb ((200 <=? st) && (st <=? 299))
            then (upstreamError st stream, [upstream])
            else if isStream
            then (mkResponse 200 (Some (js "text/event-stream"))
                    (PassThrough stream), [upstream])
            else (mkResponse 200 (Some (js "application/json"))
                    (Document (StreamReducer.collectStreamData clock stream)),
                  [upstream])
        end
    end.

(** The three header names [handleRequest] reads the credential from. *)
Definition credentialNames : list jsstring :=
  [js "authorization"; js "x-api-key"; js "Authorization"].

(** The header [name] of the request carries a non-empty value. *)
Definition carriesValue (name : jsstring) (request : Request) : Prop :=
  exists c t, headersGet name (headers request) = Some (c :: t).

(** The 401 answer of lines 34-43. *)
Definition unauthorized : Response :=
  errorResponse 401 (Text (Str (js "Authorization header is required")))
    (js "auth_error").

End Gateway.

(** ** The vocabulary of the properties *)

Module Canonical.

(** A content block of the canonical form: [type] is [text] and [text]
    is a non-empty string equal to its trimmed form. *)
Definition validBlock (block : JSVal) : Prop :=
  exists t : jsstring,
    prop block (js "type") = Str (js "text") /\
    prop block (js "text") = Str t /\ t <> [] /\ trim t = t.

(** A message of the canonical form: [content] is a non-empty sequence
    of valid blocks. *)
Definition validMessage (m : JSVal) : Prop :=
  exists blocks : list JSVal,
    prop m (js "content") = Arr blocks /\ blocks <> [] /\
    Forall validBlock blocks.

(** A truthy value that is neither a string nor an array. *)
Definition otherShape (v : JSVal) : bool :=
  truthy v && match v with Str _ | Arr _ => false | _ => true end.

(** [m] is a copy of an input message whose [content] the normalizer
    neither repairs nor rejects. *)
Definition passedThrough (messages : list JSVal) (m : JSVal) : Prop :=
  exists message : JSVal,
    In message messages /\ m = Obj (spread message) /\
    otherShape (prop message (js "content")) = true.

(** A block with usable text: truthy, of type [text], with a string for
    [text] that is not blank. *)
Definition usableBlock (item : JSVal) : bool :=
  truthy item && isStr (prop item (js "type")) (js "text")
  && match prop item (js "text") with
     | Str t => negb (eqb (trim t) [])
     | _ => false
     end.

(** A message with usable content: a string that is not blank, an array
    with a usable block, or another truthy value.  The others have no
    content, a falsy one, a blank string, or an array without usable
    block. *)
Definition usable (message : JSVal) : bool :=
  match prop message (js "content") with
  | Str s => negb (eqb (trim s) [])
  | Arr items => existsb usableBlock items
  | v => truthy v
  end.

(** [m] has the fields of [message], [content] apart. *)
Definition sameOtherFields (message m : JSVal) : Prop :=
  forall k, k <> js "content" -> prop m k = prop message k.

(** The [text] of a content block is a string whenever it is truthy. *)
Definition textIsString (item : JSVal) : Prop :=
  truthy (prop item (js "text")) = true ->
  exists t, prop item (js "text") = Str t.

(** The blocks of an array [content] have strings for texts. *)
Definition textsAreStrings (message : JSVal) : Prop :=
  forall items, prop message (js "content") = Arr items ->
                Forall textIsString items.

End Canonical.

Module Trace.
Import StreamReducer.

(** The chunks of text the loop obtains from [decoder.decode]. *)
Fixpoint decodeChunks (d : TextDecoder.Decoder) (stream : list (list byte))
  : list jsstring :=
  match stream with
  | [] => []
  | value :: stream' =>
      let '(d', chunk) := TextDecoder.decode d value in
      chunk :: decodeChunks d' stream'
  end.

(** The lines the loop visits, in order: each decoded chunk split at its
    newlines. *)
Definition seenLines (stream : list (list byte)) : list jsstring :=
  concat (map (split newline) (decodeChunks TextDecoder.fresh stream)).

(** The value a line hands to the merge: [None] for a line without the
    [data: ] prefix, for the [[DONE]] marker and for a parse failure. *)
Definition parsedOf (line : jsstring) : option JSVal :=
  if startsWith (js "data: ") line then
    let data := trim (slice 6 line) in
    if eqb data (js "[DONE]") then None
    else match JSON.parse data with Ok v => Some v | Throw _ => None end
  else None.

(** The deltas parsed from the stream, in order. *)
Definition parsedDeltas (stream : list (list byte)) : list JSVal :=
  omap parsedOf (seenLines stream).

(** A line that starts with [data: ] and is the end marker. *)
Definition isDone (line : jsstring) : bool :=
  startsWith (js "data: ") line && eqb (trim (slice 6 line)) (js "[DONE]").

(** A line that starts with [data: ]. *)
Definition isData (line : jsstring) : bool := startsWith (js "data: ") line.

(** The document the reducer builds when no delta was merged. *)
Definition emptyCompletion (clock : Z * Z) : Completion.t :=
  Completion.mk
    (Str (js "chatcmpl-" ++ NumberToString (ofZ (snd clock))))
    (js "chat.completion")
    (Num (ofZ (fst clock / 1000)))
    (Str (js "gpt-3.5-turbo"))
    [Choice.mk 0
       (Message.mk (js "assistant") Null None)
       (Str (js "stop"))]
    zeroUsage.

(** The merge of one parsed delta, after the [catch]. *)
Definition merge (acc : Acc) (parsed : JSVal) : Acc :=
  caught (processParsed parsed acc).

(** A statement that leaves the part [part] of the state alone, whether
    it completes or throws. *)
Definition keeps {A} (part : Acc -> A) (f : Acc -> Exc Acc) : Prop :=
  forall acc, part (caught (f acc)) = part acc.

(** Line 182: the property key of [toolCall.index || 0]. *)
Definition toolKey (toolCall : JSVal) : Result jsstring :=
  ToString (or_else (prop toolCall (js "index")) (Num (ofZ 0))).

(** The tool-call delta addresses the array element [i]. *)
Definition atIndex (i : nat) (toolCall : JSVal) : Prop :=
  exists k, toolKey toolCall = Ok k /\ toKey k = Index i.

(** Line 184: the delta carries all of [id], [type] and [function]. *)
Definition isStart (toolCall : JSVal) : bool :=
  truthy (prop toolCall (js "id")) && truthy (prop toolCall (js "type"))
  && truthy (prop toolCall (js "function")).

(** A start delta at index [i] whose arguments are the string [args]
    (the empty string when it carries none). *)
Definition startsAt (i : nat) (args : jsstring) (toolCall : JSVal) : Prop :=
  nullish toolCall = false /\ isStart toolCall = true /\
  atIndex i toolCall /\
  or_else (prop (prop toolCall (js "function")) (js "arguments")) (Str [])
  = Str args.

(** A continuation delta at index [i] whose [function.arguments] is the
    string [fragment]. *)
Definition continuesAt (i : nat) (fragment : jsstring) (toolCall : JSVal)
  : Prop :=
  nullish toolCall = false /\ isStart toolCall = false /\
  truthy (prop toolCall (js "function")) = true /\
  atIndex i toolCall /\
  prop (prop toolCall (js "function")) (js "arguments") = Str fragment.

(** The indices of the populated slots of [toolCalls]. *)
Definition populated (tcs : ToolCalls) (i : nat) : Prop :=
  exists tc : ToolCall, slots tcs !! i = Some (Some tc).

(** The last element of the array, when it has one, is populated: the
    length is the greatest populated index plus one. *)
Definition topPopulated (tcs : ToolCalls) : Prop :=
  forall n, length (slots tcs) = S n -> populated tcs n.

(** The two facts the fold maintains about [toolCalls]: its last element
    is populated, and every populated index is at least [k]. *)
Definition sparseInv (k : nat) (tcs : ToolCalls) : Prop :=
  topPopulated tcs /\ forall i, populated tcs i -> (k <= i)%nat.

(** The tool-call deltas a parsed delta carries:
    [parsed.choices[0].delta.tool_calls]. *)
Definition toolCallsOf (parsed : JSVal) : list JSVal :=
  let choice := prop (prop parsed (js "choices")) (js "0") in
  match iterate (prop (prop choice (js "delta")) (js "tool_calls")) with
  | Ok l => l
  | Throw _ => []
  end.

(** The tool-call deltas of the stream. *)
Definition toolCallDeltas (stream : list (list byte)) : list JSVal :=
  concat (map toolCallsOf (parsedDeltas stream)).

(** The start deltas among [deltas] address array elements at [k] or
    above. *)
Definition startsFrom (k : nat) (deltas : list JSVal) : Prop :=
  forall d i, In d deltas -> isStart d = true -> atIndex i d -> (k <= i)%nat.

(** Line 176 throws on this delta: its [content] is truthy and has no
    string. *)
Definition contentThrows (delta : JSVal) : bool :=
  truthy delta && truthy (prop delta (js "content"))
  && match ToString (prop delta (js "content")) with
     | Throw _ => true
     | Ok _ => false
     end.

(** The tool-call deltas the loop of lines 181-204 runs over for one
    parsed payload, read off the tests that guard it (lines 164, 171,
    175, 180): none when the loop is not reached. *)
Definition loopDeltas (parsed : JSVal) : list JSVal :=
  let choices := prop parsed (js "choices") in
  let delta := prop (prop choices (js "0")) (js "delta") in
  let tool_calls := prop delta (js "tool_calls") in
  if negb (nullish parsed)
     && truthy choices && truthy (prop choices (js "0"))
     && negb (contentThrows delta)
     && truthy delta && truthy tool_calls
  then
    match gtZero (prop tool_calls (js "length")), iterate tool_calls with
    | Ok true, Ok l => l
    | _, _ => []
    end
  else [].


End Trace.

(** ** Sample inputs *)

Module Samples.

(** The elements of a JSON array given as text. *)
Definition parseList (text : string) : list JSVal :=
  match JSON.parse (sq text) with
  | Ok (Arr l) => l
  | _ => []
  end.

(** A string content, an array content with a blank and a foreign block,
    and a message without content. *)
Definition mixedMessages : list JSVal :=
  Eval vm_compute in
  (parseList "[{'role':'system','content':'  Be brief. '},
              {'role':'user','content':[{'type':'text','text':' hi '},
                                        {'type':'text','text':'   '},
                                        {'type':'image_url','url':'u'}]},
              {'role':'assistant'}]").

Definition mixedMessagesFixed : list JSVal :=
  Eval vm_compute in
  (parseList "[{'role':'system','content':[{'type':'text','text':'Be brief.'}]},
              {'role':'user','content':[{'type':'text','text':'hi'}]}]").

(** A single message whose content is a number. *)
Definition numberContent : list JSVal :=
  Eval vm_compute in
  (parseList "[{'role':'user','content':5}]").

Definition numberContentFixed : list JSVal :=
  Eval vm_compute in
  (parseList "[{'role':'system',
               'content':[{'type':'text','text':'You are a helpful assistant.'}]},
              {'role':'user','content':5}]").

(** A content block whose text is a number. *)
Definition numberText : list JSVal :=
  Eval vm_compute in
  (parseList "[{'role':'user','content':[{'type':'text','text':5}]}]").

Definition singleUser : list JSVal :=
  Eval vm_compute in
  (parseList "[{'role':'user','content':'hello'}, {'role':'user','content':' '}]").

Definition singleUserFixed : JSVal :=
  Eval vm_compute in
  (Obj [(js "role", Str (js "user"));
       (js "content", Arr [Normalizer.textBlock (js "hello")])]).

(** A JSON value given as text. *)
Definition parseText (text : string) : JSVal :=
  match JSON.parse (sq text) with
  | Ok v => v
  | Throw _ => Undefined
  end.

(** The tool-call deltas of the specification's second example, a third
    fragment, and the same call in one delta. *)
Definition toolStart : JSVal :=
  Eval vm_compute in
  (parseText "{'index':0,'id':'call_1','type':'function',
              'function':{'name':'f','arguments':'{\'a\':'}}").

Definition toolFragments : list JSVal :=
  Eval vm_compute in
  ([parseText "{'index':0,'function':{'arguments':'1'}}";
   parseText "{'index':0,'function':{'arguments':'}'}}"]).

Definition toolWhole : JSVal :=
  Eval vm_compute in
  (parseText "{'index':0,'id':'call_1','type':'function',
              'function':{'name':'f','arguments':'{\'a\':1}'}}").

(** A tool call started at index 2, then continued. *)
Definition sparse : list (list byte) :=
  Eval vm_compute in
  ([bytes "data: {'choices':[{'delta':{'tool_calls':[{'index':2,'id':'call_1','type':'function','function':{'name':'f','arguments':'{'}}]}}]}

data: {'choices':[{'delta':{'tool_calls':[{'index':2,'function':{'arguments':'}'}}]}}]}

data: [DONE]
"]).


Definition sparseCall : StreamReducer.ToolCall :=
  Eval vm_compute in
  (StreamReducer.mkToolCall (Str (js "call_1")) (Str (js "function"))
    (Str (js "f")) (Str (js "{}"))).

Definition chatBody : list byte :=
  Eval vm_compute in
  (bytes "{'model':'claude-4.0','messages':[{'role':'user','content':'hi'}]}").

(** A chat-completion request without any credential header. *)
Definition requestAnonymous : Gateway.Request :=
  Eval vm_compute in
  (Gateway.mkRequest (js "POST") (js "/v1/chat/completions")
     [(js "Content-Type", js "application/json")] chatBody).

(** The same request with a key that is no bearer token. *)
Definition requestWithKey : Gateway.Request :=
  Eval vm_compute in
  (Gateway.mkRequest (js "POST") (js "/v1/chat/completions")
     [(js "Content-Type", js "application/json"); (js "X-Api-Key", js "k")]
     chatBody).

(** A request without credential whose body is not JSON. *)
Definition requestBadBody : Gateway.Request :=
  Eval vm_compute in
  (Gateway.mkRequest (js "POST") (js "/v1/chat/completions") []
     (bytes "messages=hi")).

(** An upstream that answers every call with an empty successful stream. *)
Definition quietUpstream (_ : Gateway.UpstreamRequest) : Gateway.FetchResult :=
  Gateway.Upstream 200 [].

Definition clock : Z * Z := (1700000000123, 1700000004567).

(** The stream of the specification's first example, in one read. *)
Definition hello : list (list byte) :=
  Eval vm_compute in
  ([bytes "data: {'choices':[{'delta':{'content':'Hel'}}]}

data: {'choices':[{'delta':{'content':'lo'}}]}

data: {'choices':[{'delta':{},'finish_reason':'stop'}]}

data: [DONE]

"]).

(** The same bytes in two reads, the second line cut after [Hel]. *)
Definition helloSplit : list (list byte) :=
  Eval vm_compute in
  ([bytes "data: {'choices':[{'delta':{'content':'Hel'}}]}

data: {'choices':[{'delta':{'content':'l";
   bytes "o'}}]}

data: {'choices':[{'delta':{},'finish_reason':'stop'}]}

data: [DONE]

"]).

(** The first example with a line that is not JSON between its deltas. *)
Definition helloMalformed : list (list byte) :=
  Eval vm_compute in
  ([bytes "data: {'choices':[{'delta':{'content':'Hel'}}]}

data: {'choices':[{'delta':
data: {'choices':[{'delta':{'content':'lo'}}]}

data: {'choices':[{'delta':{},'finish_reason':'stop'}]}

data: [DONE]

"]).

Definition malformedLine : jsstring := sq "data: {'choices':[{'delta':".

(** A tool call at index 0 whose arguments come in three pieces, after a
    delta of text. *)
Definition fragmented : list (list byte) :=
  Eval vm_compute in
  ([bytes "data: {'choices':[{'delta':{'content':'Hi'}}]}

data: {'choices':[{'delta':{'tool_calls':[{'index':0,'id':'call_1','type':'function','function':{'name':'f','arguments':'[1,'}}]}}]}

data: {'choices':[{'delta':{'tool_calls':[{'index':0,'function':{'arguments':'2'}}]}}]}

data: {'choices':[{'delta':{'tool_calls':[{'index':0,'function':{'arguments':']'}}]}}]}

data: [DONE]
"]).

(** The same call in one delta. *)
Definition unfragmented : list (list byte) :=
  Eval vm_compute in
  ([bytes "data: {'choices':[{'delta':{'content':'Hi'}}]}

data: {'choices':[{'delta':{'tool_calls':[{'index':0,'id':'call_1','type':'function','function':{'name':'f','arguments':'[1,2]'}}]}}]}

data: [DONE]
"]).

(** The payloads of the two streams: the delta of text, then the deltas
    of the call. *)
Definition textPayload : JSVal :=
  Eval vm_compute in (parseText "{'choices':[{'delta':{'content':'Hi'}}]}").

Definition fragmentedCalls : list JSVal :=
  Eval vm_compute in
  ([parseText "{'choices':[{'delta':{'tool_calls':[{'index':0,'id':'call_1','type':'function','function':{'name':'f','arguments':'[1,'}}]}}]}";
    parseText "{'choices':[{'delta':{'tool_calls':[{'index':0,'function':{'arguments':'2'}}]}}]}";
    parseText "{'choices':[{'delta':{'tool_calls':[{'index':0,'function':{'arguments':']'}}]}}]}"]).

Definition unfragmentedCalls : list JSVal :=
  Eval vm_compute in
  ([parseText "{'choices':[{'delta':{'tool_calls':[{'index':0,'id':'call_1','type':'function','function':{'name':'f','arguments':'[1,2]'}}]}}]}"]).

Definition callStart : JSVal :=
  Eval vm_compute in
  (parseText "{'index':0,'id':'call_1','type':'function','function':{'name':'f','arguments':'[1,'}}").

Definition callFragments : list JSVal :=
  Eval vm_compute in
  ([parseText "{'index':0,'function':{'arguments':'2'}}";
    parseText "{'index':0,'function':{'arguments':']'}}"]).

Definition callWhole : JSVal :=
  Eval vm_compute in
  (parseText "{'index':0,'id':'call_1','type':'function','function':{'name':'f','arguments':'[1,2]'}}").



(** Only the end marker. *)
Definition onlyDone : list (list byte) :=
  Eval vm_compute in
  ([bytes "data: [DONE]

"]).

End Samples.

(** ** More vocabulary: what one delta contributes *)

Module Delta.
Import StreamReducer.

(** [parsed.choices[0]]. *)
Definition choiceOf (parsed : JSVal) : JSVal :=
  prop (prop parsed (js "choices")) (js "0").

(** The text line 176 appends for a parsed delta: the string of
    [choices[0].delta.content] when it is truthy and has a string, nothing
    otherwise. *)
Definition contentOf (parsed : JSVal) : jsstring :=
  let delta := prop (choiceOf parsed) (js "delta") in
  if truthy (prop parsed (js "choices")) && truthy (choiceOf parsed)
     && truthy delta && truthy (prop delta (js "content"))
  then match ToString (prop delta (js "content")) with
       | Ok s => s
       | Throw _ => []
       end
  else [].

(** A delta that only carries text: its content, when truthy, is a string,
    and it has no tool calls. *)
Definition textOnly (parsed : JSVal) : Prop :=
  let delta := prop (choiceOf parsed) (js "delta") in
  (truthy (prop delta (js "content")) = true ->
   exists s, prop delta (js "content") = Str s) /\
  truthy (prop delta (js "tool_calls")) = false.

(** The values of the field [k] that the deltas carry truthy, in order. *)
Definition truthyValues (k : jsstring) (deltas : list JSVal) : list JSVal :=
  List.filter truthy (map (fun d => prop d k) deltas).

(** The message of the document's only choice. *)
Definition messageOf (doc : Completion.t) : option Message.t :=
  match Completion.choices doc with
  | [choice] => Some (Choice.message choice)
  | _ => None
  end.

(** A line the loop passes over: it lacks the [data: ] prefix, or it is the
    end marker. *)
Definition skipped (line : jsstring) : Prop :=
  Trace.isData line = false \/ Trace.isDone line = true.

(** A parsed payload that is not an object. *)
Definition notObject (parsed : JSVal) : Prop :=
  match parsed with Obj _ => False | _ => True end.

End Delta.

(** ** More sample inputs *)

Module MoreSamples.

(** The euro sign and a newline, the three bytes of the sign cut after the
    second. *)
Definition euroSplit : list (list byte) := [[xe2; x82]; [xac; x0a]].

Definition euroWhole : list (list byte) := [[xe2; x82; xac; x0a]].

(** The stream of the first example with the end marker moved to the
    front. *)
Definition doneFirst : list (list byte) :=
  Eval vm_compute in
  ([bytes "data: [DONE]
data: {'choices':[{'delta':{'content':'Hel'}}]}

data: {'choices':[{'delta':{'content':'lo'}}]}

data: {'choices':[{'delta':{},'finish_reason':'stop'}]}

data: [DONE]

"]).

(** The first example with payloads that are no objects between its
    deltas. *)
Definition withScalars : list (list byte) :=
  Eval vm_compute in
  ([bytes "data: {'choices':[{'delta':{'content':'Hel'}}]}

data: null
data: {'choices':[{'delta':{'content':'lo'}}]}

data: {'choices':[{'delta':{},'finish_reason':'stop'}]}

data: [DONE]

"]).

(** A stream of text cut short: the second delta ends it with the
    reason [length], and an empty delta follows. *)
Definition cutShort : list (list byte) :=
  Eval vm_compute in
  ([bytes "data: {'choices':[{'delta':{'content':'Hel'}}]}

data: {'choices':[{'delta':{'content':'lo'},'finish_reason':'length'}]}

data: {'choices':[{'delta':{}}]}

data: [DONE]

"]).

Definition cutShortDeltas : list JSVal :=
  Eval vm_compute in (Trace.parsedDeltas cutShort).

Definition helloDeltas : list JSVal :=
  Eval vm_compute in (Trace.parsedDeltas Samples.hello).

(** A start delta at index 2 and one at index -1. *)
Definition startAtTwo : JSVal :=
  Eval vm_compute in
  (Samples.parseText "{'index':2,'id':'call_2','type':'function',
                       'function':{'name':'g'}}").

Definition startAtMinusOne : JSVal :=
  Eval vm_compute in
  (Samples.parseText "{'index':-1,'id':'call_3','type':'function',
                       'function':{'name':'h','arguments':'{}'}}").

(** A continuation at index 0 that renames the call. *)
Definition renaming : JSVal :=
  Eval vm_compute in
  (Samples.parseText "{'index':0,'function':{'name':'f2','arguments':'1}'}}").

(** An array of tool calls with one call under way at index 0. *)
Definition oneCall : StreamReducer.ToolCalls :=
  Eval vm_compute in
  (StreamReducer.mkToolCalls
     [Some (StreamReducer.mkToolCall (Str (js "call_1")) (Str (js "function"))
              (Str (js "f")) (Str (sq "{'a':")))] []).

(** A stream whose tool-call deltas are a continuation without a start and
    a start at index -1. *)
Definition orphans : list (list byte) :=
  Eval vm_compute in
  ([bytes "data: {'choices':[{'delta':{'tool_calls':[{'index':0,'function':{'arguments':'{}'}}]}}]}

data: {'choices':[{'delta':{'tool_calls':[{'index':-1,'id':'call_3','type':'function','function':{'name':'h','arguments':'{}'}}]}}]}

data: [DONE]
"]).

Definition orphanDeltas : list JSVal :=
  Eval vm_compute in (Trace.toolCallDeltas orphans).

Definition numberTextItems : list JSVal :=
  Eval vm_compute in (Samples.parseList "[{'type':'text','text':5}]").

End MoreSamples.

(** ** More vocabulary: the normalizer *)

Module Blocks.

(** A content block on which line 272 calls [trim] on something that is
    no string: the block is truthy, its [type] is [text], and its [text]
    is truthy without being a string. *)
Definition offending (item : JSVal) : bool :=
  truthy item && isStr (prop item (js "type")) (js "text")
  && truthy (prop item (js "text"))
  && match prop item (js "text") with Str _ => false | _ => true end.

(** A message whose array [content] holds an offending block. *)
Definition hasOffending (message : JSVal) : Prop :=
  exists items, prop message (js "content") = Arr items /\
                Exists (fun item => offending item = true) items.

(** [m] has the fields of [message], [content] apart. *)
Definition sameButContent (message m : JSVal) : Prop :=
  forall k, k <> js "content" -> prop m k = prop message k.

End Blocks.

(** ** The server: [handler], [handleCORS], [handleModelsRequest] *)

Module Server.

Record Model : Type := mkModel {
  id : jsstring;
  object : jsstring;
  created : Z;
  owned_by : jsstring
}.

(** Lines 310-353. *)
Definition models : list Model :=
  [mkModel (js "claude-4.0") (js "model") 1677610602 (js "anthropic");
   mkModel (js "gemini-2.5-pro") (js "model") 1677610602 (js "google");
   mkModel (js "gemini-2.5-flash") (js "model") 1677610602 (js "google");
   mkModel (js "gpt-5") (js "model") 1677610602 (js "openai");
   mkModel (js "gpt-5-nano") (js "model") 1677610602 (js "openai");
   mkModel (js "gpt-5-mini") (js "model") 1677610602 (js "openai");
   mkModel (js "o4-mini") (js "model") 1677610602 (js "openai")].

(** What a response of the server carries: nothing ([null]), the list of
    models [{ object: 'list', data }], or a body built by
    [handleRequest]. *)
Inductive Content : Type :=
| Empty
| ModelList (data : list Model)
| Chat (body : Gateway.Body).

(** A response with the headers given to its constructor; the status is
    200 where the source gives none. *)
Record Reply : Type := mkReply {
  status : Z;
  headers : list (jsstring * jsstring);
  content : Content
}.

(** The three access-control headers the source repeats, with the value
    of [Access-Control-Allow-Methods]. *)
Definition accessControl (methods : jsstring) : list (jsstring * jsstring) :=
  [(js "Access-Control-Allow-Origin", js "*");
   (js "Access-Control-Allow-Methods", methods);
   (js "Access-Control-Allow-Headers",
    js "Content-Type, Authorization, x-api-key")].

(** The headers [handleRequest] gives a response: [Content-Type] where it
    sets one (lines 42, 83, 92, 105, 123), the streaming headers on the
    stream passed through (lines 93-94), the access-control headers on
    the two successful answers (lines 95-97, 106-108). *)
Definition responseHeaders (response : Gateway.Response)
  : list (jsstring * jsstring) :=
  match Gateway.contentType response with
  | Some type => [(js "Content-Type", type)]
  | None => []
  end ++
  match Gateway.payload response with
  | Gateway.PassThrough _ =>
      [(js "Cache-Control", js "no-cache"); (js "Connection", js "keep-alive")]
        ++ accessControl (js "POST, OPTIONS")
  | Gateway.Document _ => accessControl (js "POST, OPTIONS")
  | Gateway.Plain _ | Gateway.ErrorEnvelope _ _ => []
  end.

Definition ofResponse (response : Gateway.Response) : Reply :=
  mkReply (Gateway.status response) (responseHeaders response)
    (Chat (Gateway.payload response)).

(** Lines 356-368. *)
Definition handleModelsRequest : Reply :=
  mkReply 200
    ((js "Content-Type", js "application/json")
       :: accessControl (js "GET, OPTIONS"))
    (ModelList models).

(** Lines 371-385. *)
Definition handleCORS (request : Gateway.Request) : Reply :=
  if eqb (Gateway.method request) (js "OPTIONS")
  then mkReply 200
         (accessControl (js "POST, OPTIONS")
            ++ [(js "Access-Control-Max-Age", js "86400")])
         Empty
  else mkReply 405 [] (Chat (Gateway.Plain (js "Method Not Allowed"))).

(** Lines 388-403: the response and the upstream calls made. *)
Definition handler (fetch : Gateway.UpstreamRequest -> Gateway.FetchResult)
    (clock : Z * Z) (request : Gateway.Request)
  : Reply * list Gateway.UpstreamRequest :=
  if eqb (Gateway.method request) (js "OPTIONS")
  then (handleCORS request, [])
  else if includes (js "/models") (Gateway.pathname request)
          && eqb (Gateway.method request) (js "GET")
  then (handleModelsRequest, [])
  else
    let '(response, calls) := Gateway.handleRequest fetch clock request in
    (ofResponse response, calls).

(** The response lets a page of any origin read it. *)
Definition allowsAnyOrigin (reply : Reply) : Prop :=
  Gateway.headersGet (js "Access-Control-Allow-Origin") (headers reply)
  = Some (js "*").

End Server.

(** ** More vocabulary: the forwarded request *)

Module Forwarding.

(** The fields line 61 sets itself. *)
Definition overridden : list jsstring :=
  [js "stream"; js "messages"; js "model"].

(** The names [Object.prototype] defines.  [modelMapping] is an object
    literal: under one of these names the look-up of line 50 finds the
    inherited property. *)
Definition inherited : list jsstring :=
  [js "constructor"; js "hasOwnProperty"; js "isPrototypeOf";
   js "propertyIsEnumerable"; js "toLocaleString"; js "toString";
   js "valueOf"; js "__proto__"; js "__defineGetter__";
   js "__defineSetter__"; js "__lookupGetter__"; js "__lookupSetter__"].

(** A status an upstream response with a body can have, and that
    [new Response(body, { status })] accepts: 200 to 599, the null body
    statuses apart. *)
Definition bodyStatus (st : Z) : Prop :=
  200 <= st <= 599 /\ st <> 204 /\ st <> 205 /\ st <> 304.

(** [response.ok]. *)
Definition ok (st : Z) : bool := (200 <=? st) && (st <=? 299).

(** The answer of [handleRequest] once [fetch] has been called. *)
Definition answer (clock : Z * Z) (isStream : bool) (r : Gateway.FetchResult)
    : Gateway.Response :=
  match r with
  | Gateway.NetworkError => Gateway.internalError TypeError
  | Gateway.Upstream st stream =>
      if negb (ok st) then Gateway.upstreamError st stream
      else if isStream
      then Gateway.mkResponse 200 (Some (js "text/event-stream")) (Gateway.PassThrough stream)
      else Gateway.mkResponse 200 (Some (js "application/json"))
             (Gateway.Document (StreamReducer.collectStreamData clock stream))
  end.

(** The request is stopped between the credential check and the call of
    [fetch]: its body is no JSON text or is [null], [messages] is not
    iterable, the normalizer throws, or [model] has no string. *)
Definition unforwardable (request : Gateway.Request) : Prop :=
  match JSON.parse (TextDecoder.decodeAll (Gateway.body request)) with
  | Throw _ => True
  | Ok parsed =>
      nullish parsed = true \/
      match iterate (prop parsed (js "messages")) with
      | Throw _ => True
      | Ok list =>
          (exists e, Normalizer.handleChatMessage list = Throw e) \/
          (exists e, ToString (prop parsed (js "model")) = Throw e)
      end
  end.

(** Two requests with the same method and path. *)
Definition sameRoute (r r' : Gateway.Request) : Prop :=
  Gateway.method r = Gateway.method r' /\
  Gateway.pathname r = Gateway.pathname r'.

End Forwarding.

(** ** Sample requests *)

Module ServerSamples.

(** A chat-completion body with a sampling field and [stream] given as a
    string. *)
Definition fullBody : list byte :=
  Eval vm_compute in
  (bytes "{'model':'claude-4.0','temperature':0.5,'stream':'true','messages':[{'role':'user','content':' hi '}]}").

Definition fullFields : list (jsstring * JSVal) :=
  Eval vm_compute in
  (spread (Samples.parseText "{'model':'claude-4.0','temperature':0.5,'stream':'true','messages':[{'role':'user','content':' hi '}]}")).

(** The request with both credential headers. *)
Definition requestFull : Gateway.Request :=
  Eval vm_compute in
  (Gateway.mkRequest (js "POST") (js "/v1/chat/completions")
     [(js "Authorization", js "Bearer a"); (js "x-api-key", js "k")]
     fullBody).

(** What [requestFull] is sent upstream as. *)
Definition forwardedFull : Gateway.UpstreamRequest :=
  Eval vm_compute in
  (Gateway.mkUpstreamRequest
     (js "https://www.codebuddy.ai/v2/chat/completions")
     (js "Bearer a")
     (spread (Samples.parseText "{'model':'default-model','temperature':0.5,'stream':true,'messages':[{'role':'system','content':[{'type':'text','text':'You are a helpful assistant.'}]},{'role':'user','content':[{'type':'text','text':'hi'}]}]}"))).

(** A request for a model the mapping does not know, asking for a
    stream. *)
Definition otherFields : list (jsstring * JSVal) :=
  Eval vm_compute in
  (spread (Samples.parseText "{'stream':true,'messages':[{'role':'system','content':'Be brief.'}],'model':'gpt-5'}")).

Definition requestOther : Gateway.Request :=
  Eval vm_compute in
  (Gateway.mkRequest (js "POST") (js "/v1/chat/completions")
     [(js "x-api-key", js "k")]
     (bytes "{'stream':true,'messages':[{'role':'system','content':'Be brief.'}],'model':'gpt-5'}")).

Definition forwardedOther : Gateway.UpstreamRequest :=
  Eval vm_compute in
  (Gateway.mkUpstreamRequest
     (js "https://www.codebuddy.ai/v2/chat/completions")
     (js "k")
     (spread (Samples.parseText "{'stream':true,'messages':[{'role':'system','content':[{'type':'text','text':'Be brief.'}]}],'model':'gpt-5'}"))).

(** A request with a credential and no [messages]. *)
Definition requestNoMessages : Gateway.Request :=
  Eval vm_compute in
  (Gateway.mkRequest (js "POST") (js "/v1/chat/completions")
     [(js "x-api-key", js "k")] (bytes "{'model':'gpt-5'}")).

(** Two requests for the model list that differ in headers and body. *)
Definition getModels : Gateway.Request :=
  Eval vm_compute in
  (Gateway.mkRequest (js "GET") (js "/v1/models") [] []).

Definition getModelsWithKey : Gateway.Request :=
  Eval vm_compute in
  (Gateway.mkRequest (js "GET") (js "/v1/models")
     [(js "x-api-key", js "k")] (bytes "{}")).

(** An upstream that answers with the stream of the first example. *)
Definition helloUpstream (_ : Gateway.UpstreamRequest) : Gateway.FetchResult :=
  Gateway.Upstream 200 Samples.hello.

(** An upstream that refuses with a JSON error. *)
Definition busyBody : list (list byte) :=
  Eval vm_compute in ([bytes "{'error':{'message':'slow down'}}"]).

Definition busyUpstream (_ : Gateway.UpstreamRequest) : Gateway.FetchResult :=
  Gateway.Upstream 429 busyBody.

End ServerSamples.

(** ** Sample inputs with numbers that no double holds *)

Module RoundingSamples.

(** A stream whose payloads carry [1e-400], which is zero, where a
    truthy value would count, and an integer above [2 ^ 53]. *)
Definition tiny : list (list byte) :=
  Eval vm_compute in
  ([bytes "data: {'id':'a','created':1700000002,'choices':[{'delta':{'content':'x'},'finish_reason':'length'}]}

data: {'id':1e-400,'created':1e-400,'choices':[{'delta':{'content':1e-400},'finish_reason':1e-400}]}

data: {'choices':[{'delta':{'content':9007199254740993}}]}

data: {'choices':[{'delta':{'tool_calls':[{'index':1e-400,'id':'call_1','type':'function','function':{'name':'f','arguments':'{}'}}]}}]}

data: [DONE]
"]).

(** Messages whose content, or whose block's text, is [1e-400]. *)
Definition tinyMessages : list JSVal :=
  Eval vm_compute in
  (Samples.parseList "[{'role':'user','content':1e-400},
                       {'role':'user','content':[{'type':'text','text':1e-400},
                                                 {'type':'text','text':' hi '}]}]").

Definition tinyMessagesFixed : list JSVal :=
  Eval vm_compute in
  (Samples.parseList "[{'role':'system','content':[{'type':'text','text':'You are a helpful assistant.'}]},
                       {'role':'user','content':[{'type':'text','text':'hi'}]}]").

End RoundingSamples.
(** * Properties *)

(** ** Examples of the primitives *)

Example parse_delta :
  JSON.parse (sq "{'choices':[{'delta':{'content':'Hel'}}], 'created': 1.50e3}")
  = Ok (Obj [(js "choices",
              Arr [Obj [(js "delta", Obj [(js "content", Str (js "Hel"))])]]);
             (js "created", Num (Finite 375 2))]).
Proof. vm_compute. reflexivity. Qed.

Example parse_truncated :
  JSON.parse (sq "{'choices':[{'delta':{'content':'Hel") = Throw SyntaxError.
Proof. vm_compute. reflexivity. Qed.

Example parse_escapes :
  JSON.parse (sq "['aA\n', -0, 12e-1, true, null, {'k':1,'k':2}]")
  = Ok (Arr [Str [97; 65; 10]%N; Num (Finite 0 0);
             Num (Finite 5404319552844595 (-52));
             Boolean true; Null; Obj [(js "k", Num (Finite 1 1))]]).
Proof. vm_compute. reflexivity. Qed.

(** ** Strings *)

Lemma eqb_eq (s t : jsstring) : eqb s t = true <-> s = t.
Proof. unfold eqb. apply bool_decide_eq_true. Qed.

Lemma eqb_neq (s t : jsstring) : eqb s t = false <-> s <> t.
Proof. unfold eqb. apply bool_decide_eq_false. Qed.

Lemma eqb_refl (s : jsstring) : eqb s s = true.
Proof. by apply eqb_eq. Qed.

Lemma trimStart_idem (s : jsstring) : trimStart (trimStart s) = trimStart s.
Proof.
  induction s as [|c s IH]; simpl; [done|].
  destruct (isWhiteSpace c) eqn:E; [done|]. simpl. by rewrite E.
Qed.

(** [trimStart] removes a prefix of white space. *)
Lemma trimStart_suffix (s : jsstring) :
  exists w, s = w ++ trimStart s /\ Forall (fun c => isWhiteSpace c = true) w.
Proof.
  induction s as [|c s [w [Hs Hw]]]; simpl.
  - by exists [].
  - destruct (isWhiteSpace c) eqn:E.
    + exists (c :: w). split; [simpl; congruence | by constructor].
    + by exists [].
Qed.

Lemma trimStart_fixed (s : jsstring) :
  match s with c :: _ => isWhiteSpace c = false | [] => True end ->
  trimStart s = s.
Proof. destruct s as [|c s]; simpl; [done|]. by intros ->. Qed.

Lemma trimStart_head (s : jsstring) :
  match trimStart s with c :: _ => isWhiteSpace c = false | [] => True end.
Proof.
  induction s as [|c s IH]; simpl; [done|].
  destruct (isWhiteSpace c) eqn:E; [done|]. exact E.
Qed.

Lemma trimEnd_idem (s : jsstring) : trimEnd (trimEnd s) = trimEnd s.
Proof. unfold trimEnd. by rewrite rev_involutive, trimStart_idem. Qed.

(** [trimEnd] keeps the head of a string it does not empty. *)
Lemma trimEnd_head (s : jsstring) :
  match s with c :: _ => isWhiteSpace c = false | [] => True end ->
  match trimEnd s with c :: _ => isWhiteSpace c = false | [] => True end.
Proof.
  intros Hs. unfold trimEnd.
  destruct (trimStart_suffix (rev s)) as [w [Hw _]].
  apply (f_equal (@rev N)) in Hw. rewrite rev_involutive, rev_app_distr in Hw.
  destruct (rev (trimStart (rev s))) as [|c t]; [done|].
  rewrite Hw in Hs. exact Hs.
Qed.

(** [trim] is idempotent: a trimmed text is its own trimmed form. *)
Lemma trim_idem (s : jsstring) : trim (trim s) = trim s.
Proof.
  unfold trim.
  rewrite (trimStart_fixed (trimEnd (trimStart s))).
  - apply trimEnd_idem.
  - apply trimEnd_head, trimStart_head.
Qed.

(** ** Numbers *)

Section NumberFacts.

Lemma oddPart_odd (p : positive) : Z.odd (Zpos (fst (oddPart p))) = true.
Proof.
  induction p as [p IH|p IH|]; simpl; [done| |done].
  by destruct (oddPart p).
Qed.

(** A finite number is kept in normal form: its mantissa is odd, or it
    is zero. *)
Lemma finite_normal (neg : bool) (m e : Z) :
  match finite neg m e with
  | Finite m' _ => m' = 0 \/ Z.odd m' = true
  | _ => False
  end.
Proof.
  destruct m as [|p|p]; simpl; [by left| |by left].
  pose proof (oddPart_odd p) as H. destruct (oddPart p) as [q t].
  right. by destruct neg.
Qed.

End NumberFacts.

(** Number literals are rounded to doubles: [1e-400] is zero,
    [9007199254740993] is [2 ^ 53], [1e999] is infinite, and a literal
    with more digits than a double holds prints with fewer. *)
Example parse_rounds :
  JSON.parse (sq "[1e-400, 9007199254740993, 2.00000000000000000001, 1e999]")
  = Ok (Arr [Num (Finite 0 0); Num (Finite 1 53); Num (Finite 1 1);
             Num (Infinity false)]) /\
  map NumberToString
    [Finite 0 0; Finite 1 53; Finite 1 1; Infinity false;
     add (fromDecimal false 1 (-1)) (fromDecimal false 2 (-1));
     fromDecimal false 1 21; fromDecimal false 15 (-7)]
  = [js "0"; js "9007199254740992"; js "2"; js "Infinity";
     js "0.30000000000000004"; js "1e+21"; js "0.0000015"] /\
  map (fun v => truthy (Num v)) [Finite 0 0; Finite 1 53; Infinity false; NaN]
  = [false; true; true; false].
Proof. split; [|split]; vm_compute; reflexivity. Qed.

(** ** Objects *)

Lemma lookup_assign_eq k v fields : lookup k (assign k v fields) = v.
Proof.
  induction fields as [|[k' v'] fields IH]; simpl.
  - by rewrite eqb_refl.
  - destruct (eqb k k') eqn:E; simpl; rewrite ?eqb_refl, ?E; done.
Qed.

Lemma lookup_assign_ne k k' v fields :
  k' <> k -> lookup k' (assign k v fields) = lookup k' fields.
Proof.
  intros Hne. apply eqb_neq in Hne.
  induction fields as [|[k0 v0] fields IH]; simpl.
  - by rewrite Hne.
  - destruct (eqb k k0) eqn:E; simpl.
    + apply eqb_eq in E. subst k0. by rewrite Hne.
    + by rewrite IH.
Qed.

Lemma isStr_true v s : isStr v s = true <-> v = Str s.
Proof.
  destruct v; simpl; try (split; [discriminate | discriminate]).
  rewrite eqb_eq. split; [by intros -> | by inversion 1].
Qed.

Lemma isStr_false v s : isStr v s = false <-> v <> Str s.
Proof.
  rewrite <- isStr_true. destruct (isStr v s); split; done.
Qed.

(** ** [JSON.parse] never runs out of fuel *)

Section JSONFacts.
Import JSON.

Lemma skipWs_length (s : jsstring) : (length (skipWs s) <= length s)%nat.
Proof.
  induction s as [|c s IH]; simpl; [lia|].
  destruct (isJSONSpace c); simpl; lia.
Qed.

Lemma parseChars_length_bounded (n : nat) :
  forall s t r : jsstring,
    (length s <= n)%nat -> parseChars s = Some (t, r) ->
    (length r < length s)%nat.
Proof.
  induction n as [|n IH]; intros s t r Hn.
  - destruct s; [discriminate | simpl in Hn; lia].
  - destruct s as [|c s]; [discriminate|]. simpl in Hn. simpl parseChars.
    destruct (N.eqb c 34); [intros [= <- <-]; simpl; lia|].
    destruct (N.eqb c 92).
    + destruct s as [|e s1]; [discriminate|].
      destruct (N.eqb e 117).
      * destruct s1 as [|h1 [|h2 [|h3 [|h4 s2]]]]; try discriminate.
        destruct (hex4 h1 h2 h3 h4); [|discriminate].
        destruct (parseChars s2) as [[t' r']|] eqn:E; [|discriminate].
        intros [= <- <-]. apply IH in E; simpl in *; lia.
      * destruct (escape e); [|discriminate].
        destruct (parseChars s1) as [[t' r']|] eqn:E; [|discriminate].
        intros [= <- <-]. apply IH in E; simpl in *; lia.
    + destruct (N.ltb c 32); [discriminate|].
      destruct (parseChars s) as [[t' r']|] eqn:E; [|discriminate].
      intros [= <- <-]. apply IH in E; simpl in *; lia.
Qed.

Lemma parseChars_length (s t r : jsstring) :
  parseChars s = Some (t, r) -> (length r < length s)%nat.
Proof. by apply (parseChars_length_bounded (length s)). Qed.

Lemma span_length (p : N -> bool) (s a b : jsstring) :
  span p s = (a, b) -> (length b <= length s)%nat.
Proof.
  revert a b. induction s as [|c s IH]; simpl; intros a b.
  - intros [= <- <-]. simpl. lia.
  - destruct (p c).
    + destruct (span p s) as [a' b'] eqn:E. intros [= <- <-].
      specialize (IH _ _ eq_refl). lia.
    + intros [= <- <-]. simpl. lia.
Qed.

Lemma digits1_length (s ds r : jsstring) :
  digits1 s = Some (ds, r) -> (length r <= length s)%nat.
Proof.
  unfold digits1. destruct (span isDigit s) as [a b] eqn:E.
  destruct (eqb a []); [discriminate|]. intros [= <- <-].
  by eapply span_length.
Qed.

Lemma parseUnsigned_length (s r : jsstring) (m e : Z) :
  parseUnsigned s = Some (m, e, r) -> (length r <= length s)%nat.
Proof.
  unfold parseUnsigned.
  set (intPart := match s with 48%N :: r0 => Some ([48%N], r0) | _ => digits1 s end).
  assert (Hint : forall ip r1, intPart = Some (ip, r1) ->
                               (length r1 <= length s)%nat).
  { intros ip r1. unfold intPart.
    destruct s as [|c s']; [apply digits1_length|].
    destruct (decide (c = 48%N)) as [->|Hc].
    - intros [= <- <-]. simpl. lia.
    - intros H.
      assert (Hd : digits1 (c :: s') = Some (ip, r1)).
      { destruct c as [|p]; [exact H|].
        do 6 (destruct p as [p|p|]; try exact H). done. }
      by apply digits1_length in Hd. }
  destruct intPart as [[ip r1]|]; [|discriminate].
  specialize (Hint _ _ eq_refl).
  set (fracPart := match r1 with 46%N :: r2 => digits1 r2 | _ => Some ([], r1) end).
  assert (Hfrac : forall fp r3, fracPart = Some (fp, r3) ->
                                (length r3 <= length r1)%nat).
  { intros fp r3. unfold fracPart.
    destruct r1 as [|c r2]; [intros [= <- <-]; simpl; lia|].
    destruct (decide (c = 46%N)) as [->|Hc].
    - intros H. apply digits1_length in H. simpl. lia.
    - intros H.
      assert (Hd : Some ([], c :: r2) = Some (fp, r3)).
      { destruct c as [|p]; [exact H|].
        do 6 (destruct p as [p|p|]; try exact H). done. }
      injection Hd as <- <-. lia. }
  destruct fracPart as [[fp r3]|]; [|discriminate].
  specialize (Hfrac _ _ eq_refl).
  destruct r3 as [|c r4]; [intros [= <- <- <-]; simpl in *; lia|].
  destruct (N.eqb c 101 || N.eqb c 69); [|intros [= <- <- <-]; lia].
  set (signed := match r4 with
                 | 43%N :: r' => (false, r')
                 | 45%N :: r' => (true, r')
                 | _ => (false, r4)
                 end).
  assert (Hs : (length (snd signed) <= length r4)%nat).
  { unfold signed. destruct r4 as [|d r']; [simpl; lia|].
    destruct d as [|p]; [simpl; lia|].
    do 6 (destruct p as [p|p|]; try (simpl; lia)). }
  destruct signed as [neg r5]. simpl in Hs.
  destruct (digits1 r5) as [[ds r6]|] eqn:Hd; [|discriminate].
  apply digits1_length in Hd. intros [= <- <- <-]. simpl in *. lia.
Qed.

Lemma parseLiteral_length (s r : jsstring) (v : JSVal) :
  parseLiteral s = Some (v, r) -> (length r <= length s)%nat.
Proof.
  unfold parseLiteral.
  destruct (startsWith (js "true") s);
    [intros [= <- <-]; rewrite length_drop; lia|].
  destruct (startsWith (js "false") s);
    [intros [= <- <-]; rewrite length_drop; lia|].
  destruct (startsWith (js "null") s);
    [intros [= <- <-]; rewrite length_drop; lia|].
  unfold parseNumber. intros H.
  assert (Hu : forall x, (match parseUnsigned x with
                          | Some (m, e, rest) =>
                              Some (Num (fromDecimal false m e), rest)
                          | None => None
                          end = Some (v, r)) -> (length r <= length x)%nat).
  { intros x. destruct (parseUnsigned x) as [[[m e] rest]|] eqn:E; [|discriminate].
    intros [= <- <-]. by eapply parseUnsigned_length. }
  destruct s as [|c s']; [by apply Hu|].
  destruct (decide (c = 45%N)) as [->|Hc].
  - destruct (parseUnsigned s') as [[[m e] rest]|] eqn:E; [|discriminate].
    injection H as <- <-. apply parseUnsigned_length in E. simpl. lia.
  - apply Hu. destruct c as [|p]; [exact H|].
    do 6 (destruct p as [p|p|]; try exact H). done.
Qed.

(** What the three parsers leave is never longer than what they got. *)
Lemma parseValue_length (fuel : nat) :
  (forall s v r, parseValue fuel s = Some (v, r) ->
                 (length r <= length s)%nat) /\
  (forall s acc v r, parseElements fuel s acc = Some (v, r) ->
                     (length r <= length s)%nat) /\
  (forall s acc v r, parseMembers fuel s acc = Some (v, r) ->
                     (length r <= length s)%nat).
Proof.
  induction fuel as [|fuel (IHv & IHe & IHm)]; [by repeat split|].
  repeat split.
  - intros s v r. simpl. pose proof (skipWs_length s) as Hs.
    destruct (skipWs s) as [|c t]; [discriminate|]. simpl in Hs.
    destruct (N.eqb c 123).
    { pose proof (skipWs_length t) as Ht.
      destruct (skipWs t) as [|c' t']; [discriminate|]. simpl in Ht.
      destruct (N.eqb c' 125); [intros [= <- <-]; lia|].
      intros H. apply IHm in H. simpl in H. lia. }
    destruct (N.eqb c 91).
    { pose proof (skipWs_length t) as Ht.
      destruct (skipWs t) as [|c' t']; [discriminate|]. simpl in Ht.
      destruct (N.eqb c' 93); [intros [= <- <-]; lia|].
      intros H. apply IHe in H. simpl in H. lia. }
    destruct (N.eqb c 34).
    { destruct (parseChars t) as [[u rest]|] eqn:E; [|discriminate].
      intros [= <- <-]. apply parseChars_length in E. lia. }
    intros H. apply parseLiteral_length in H. simpl in H. lia.
  - intros s acc v r. simpl.
    destruct (parseValue fuel s) as [[x t]|] eqn:E; [|discriminate].
    apply IHv in E. pose proof (skipWs_length t) as Ht.
    destruct (skipWs t) as [|c t']; [discriminate|]. simpl in Ht.
    destruct (N.eqb c 44); [intros H; apply IHe in H; lia|].
    destruct (N.eqb c 93); [intros [= <- <-]; lia | discriminate].
  - intros s acc v r. simpl. pose proof (skipWs_length s) as Hs.
    destruct (skipWs s) as [|q t]; [discriminate|]. simpl in Hs.
    destruct (N.eqb q 34); [|discriminate].
    destruct (parseChars t) as [[k t1]|] eqn:Ek; [|discriminate].
    apply parseChars_length in Ek. pose proof (skipWs_length t1) as Ht1.
    destruct (skipWs t1) as [|c t2]; [discriminate|]. simpl in Ht1.
    destruct (N.eqb c 58); [|discriminate].
    destruct (parseValue fuel t2) as [[x t3]|] eqn:E; [|discriminate].
    apply IHv in E. pose proof (skipWs_length t3) as Ht3.
    destruct (skipWs t3) as [|d t4]; [discriminate|]. simpl in Ht3.
    destruct (N.eqb d 44); [intros H; apply IHm in H; lia|].
    destruct (N.eqb d 125); [intros [= <- <-]; lia | discriminate].
Qed.

(** Above [2 * length s + 1] for a value, and one more for the rest of an
    array or of an object, the amount of fuel does not matter. *)
Lemma parseValue_fuel (n : nat) :
  (forall s m, (2 * length s + 1 <= n)%nat -> (2 * length s + 1 <= m)%nat ->
               parseValue n s = parseValue m s) /\
  (forall s acc m,
     (2 * length s + 2 <= n)%nat -> (2 * length s + 2 <= m)%nat ->
     parseElements n s acc = parseElements m s acc) /\
  (forall s acc m,
     (2 * length s + 2 <= n)%nat -> (2 * length s + 2 <= m)%nat ->
     parseMembers n s acc = parseMembers m s acc).
Proof.
  induction n as [|n (IHv & IHe & IHm)]; [repeat split; intros; lia|].
  repeat split.
  - intros s [|m] Hn Hm; [lia|]. simpl. pose proof (skipWs_length s) as Hs.
    destruct (skipWs s) as [|c t]; [done|]. simpl in Hs.
    destruct (N.eqb c 123).
    { pose proof (skipWs_length t) as Ht.
      destruct (skipWs t) as [|c' t']; [done|]. simpl in Ht.
      destruct (N.eqb c' 125); [done|]. apply IHm; simpl; lia. }
    destruct (N.eqb c 91); [|done].
    pose proof (skipWs_length t) as Ht.
    destruct (skipWs t) as [|c' t']; [done|]. simpl in Ht.
    destruct (N.eqb c' 93); [done|]. apply IHe; simpl; lia.
  - intros s acc [|m] Hn Hm; [lia|]. simpl.
    rewrite (IHv s m) by lia.
    destruct (parseValue m s) as [[x t]|] eqn:E; [|done].
    apply (proj1 (parseValue_length m)) in E.
    pose proof (skipWs_length t) as Ht.
    destruct (skipWs t) as [|c t']; [done|]. simpl in Ht.
    destruct (N.eqb c 44); [|done]. apply IHe; lia.
  - intros s acc [|m] Hn Hm; [lia|]. simpl. pose proof (skipWs_length s) as Hs.
    destruct (skipWs s) as [|q t]; [done|]. simpl in Hs.
    destruct (N.eqb q 34); [|done].
    destruct (parseChars t) as [[k t1]|] eqn:Ek; [|done].
    apply parseChars_length in Ek. pose proof (skipWs_length t1) as Ht1.
    destruct (skipWs t1) as [|c t2]; [done|]. simpl in Ht1.
    destruct (N.eqb c 58); [|done].
    rewrite (IHv t2 m) by lia.
    destruct (parseValue m t2) as [[x t3]|] eqn:E; [|done].
    apply (proj1 (parseValue_length m)) in E.
    pose proof (skipWs_length t3) as Ht3.
    destruct (skipWs t3) as [|d t4]; [done|]. simpl in Ht3.
    destruct (N.eqb d 44); [|done]. apply IHm; lia.
Qed.

(** The fuel [JSON.parse] gives the parser is enough: with any larger
    amount the parser returns the same value, or fails the same way. *)
Lemma parse_fuel_enough (s : jsstring) (fuel : nat) :
  (2 * length s + 2 <= fuel)%nat ->
  parseValue fuel s = parseValue (2 * length s + 2) s.
Proof. intros H. apply (proj1 (parseValue_fuel fuel)); lia. Qed.

End JSONFacts.

(** ** The message normalizer *)

Section NormalizerFacts.
Import Normalizer Canonical.

Lemma textBlock_valid (t : jsstring) :
  t <> [] -> trim t = t -> validBlock (textBlock t).
Proof. intros Ht Hfix. exists t. by repeat split. Qed.

Lemma truthy_Str (s : jsstring) : truthy (Str s) = true <-> s <> [].
Proof. simpl. rewrite negb_true_iff. apply eqb_neq. Qed.

(** An item the filter keeps is an object whose [type] is [text] and
    whose [text] is a string that is not blank. *)
Lemma keepItem_true (item : JSVal) :
  keepItem item = Ok true ->
  exists fields t,
    item = Obj fields /\ lookup (js "type") fields = Str (js "text") /\
    lookup (js "text") fields = Str t /\ trim t <> [].
Proof.
  unfold keepItem.
  destruct (truthy item && isStr (prop item (js "type")) (js "text")
            && truthy (prop item (js "text"))) eqn:E; [|discriminate].
  apply andb_true_iff in E as [E Htext].
  apply andb_true_iff in E as [_ Htype]. apply isStr_true in Htype.
  destruct (prop item (js "text")) as [| |b|n|t|l|fs] eqn:Ht; try discriminate.
  intros [= Hkeep]. apply truthy_Str in Hkeep.
  destruct item as [| |b|n|s|l|fields]; try discriminate.
  exists fields, t. simpl in Htype, Ht. done.
Qed.

Lemma trimItem_valid (item : JSVal) :
  keepItem item = Ok true -> validBlock (trimItem item).
Proof.
  intros H. apply keepItem_true in H as (fields & t & -> & Htype & Ht & Hne).
  unfold trimItem. simpl. rewrite Ht. exists (trim t). simpl.
  rewrite lookup_assign_eq, lookup_assign_ne, Htype by (vm_compute; discriminate).
  repeat split; [done | apply trim_idem].
Qed.

Lemma filterItems_kept (items kept : list JSVal) :
  filterItems items = Ok kept ->
  Forall (fun item => keepItem item = Ok true) kept.
Proof.
  revert kept. induction items as [|item items IH]; simpl; intros kept.
  - intros [= <-]. constructor.
  - destruct (keepItem item) as [keep|e] eqn:Hk; simpl; [|discriminate].
    destruct (filterItems items) as [rest|e] eqn:Hr; simpl; [|discriminate].
    intros [= <-]. specialize (IH rest eq_refl).
    destruct keep; [constructor|]; done.
Qed.

(** What the loop body pushes: a canonical message, or the copy of a
    message whose content is of another shape. *)
Lemma fixMessage_pushed (message m : JSVal) :
  fixMessage message = Ok (Some m) ->
  validMessage m \/
  (m = Obj (spread message) /\
   otherShape (prop message (js "content")) = true).
Proof.
  unfold fixMessage.
  destruct (negb (truthy message) || _); [discriminate|].
  destruct (prop message (js "content")) as [| |b|n|s|items|fs] eqn:Hc;
    try discriminate.
  - destruct (negb (truthy (Boolean b))) eqn:Hb; [discriminate|].
    intros [= <-]. right. split; [done|].
    unfold otherShape. apply negb_false_iff in Hb. by rewrite Hb.
  - destruct (negb (truthy (Num n))) eqn:Hn; [discriminate|].
    intros [= <-]. right. split; [done|].
    unfold otherShape. apply negb_false_iff in Hn. by rewrite Hn.
  - destruct (truthy (Str s)); [|discriminate].
    destruct (truthy (Str (trim s))) eqn:Ht; [|discriminate].
    intros [= <-]. left. exists [textBlock (trim s)].
    simpl. rewrite lookup_assign_eq. repeat split; [done|].
    constructor; [|constructor].
    apply textBlock_valid; [by apply truthy_Str | apply trim_idem].
  - destruct (filterItems items) as [kept|e] eqn:Hf; simpl; [|discriminate].
    destruct (decide (length (map trimItem kept) = 0%nat)) as [|Hlen];
      [discriminate|].
    intros [= <-]. left. exists (map trimItem kept).
    simpl. rewrite lookup_assign_eq. repeat split.
    + intros Hnil. by rewrite Hnil in Hlen.
    + pose proof (filterItems_kept _ _ Hf) as Hk. clear Hf Hlen.
      induction Hk; simpl; constructor; auto using trimItem_valid.
  - simpl. intros [= <-]. right. by split.
Qed.

Lemma fixMessages_pushed (messages fixedMessages : list JSVal) :
  fixMessages messages = Ok fixedMessages ->
  Forall (fun m => validMessage m \/ passedThrough messages m) fixedMessages.
Proof.
  revert fixedMessages.
  induction messages as [|message messages IH]; simpl; intros out.
  - intros [= <-]. constructor.
  - destruct (fixMessage message) as [fixed|e] eqn:Hm; simpl; [|discriminate].
    destruct (fixMessages messages) as [rest|e] eqn:Hr; simpl; [|discriminate].
    intros [= <-]. specialize (IH rest eq_refl).
    assert (Hrest : Forall (fun m => validMessage m
                              \/ passedThrough (message :: messages) m) rest).
    { clear Hm Hr. induction IH as [|m rest' Hm _ IHrest]; constructor; [|done].
      destruct Hm as [Hv | (x & Hin & Hx)]; [by left|].
      right. exists x. split; [by right | done]. }
    destruct fixed as [m|]; [|done].
    constructor; [|done].
    destruct (fixMessage_pushed _ _ Hm) as [Hv | [-> Hother]]; [by left|].
    right. exists message. split; [by left | done].
Qed.

Lemma defaultSystemMessage_valid : validMessage defaultSystemMessage.
Proof.
  eexists. split; [reflexivity|]. split; [done|].
  constructor; [|constructor]. apply textBlock_valid; [done|].
  vm_compute. reflexivity.
Qed.

End NormalizerFacts.

Example normalize_mixed :
  Normalizer.handleChatMessage Samples.mixedMessages
  = Ok Samples.mixedMessagesFixed.
Proof. vm_compute. reflexivity. Qed.

(** C2, as stated, fails: a message whose [content] is the number 5 reaches
    the output with that content, which is not a sequence of blocks. *)
Lemma normalizer_forwards_number_content :
  Normalizer.handleChatMessage Samples.numberContent
  = Ok Samples.numberContentFixed /\
  ~ Forall Canonical.validMessage Samples.numberContentFixed.
Proof.
  split; [vm_compute; reflexivity|].
  intros H. inversion H as [|m l _ Hl]; subst. inversion Hl as [|m' l' Hm _]; subst.
  destruct Hm as (blocks & Hc & _). vm_compute in Hc. discriminate.
Qed.

(** C3: on a content block whose [text] is the number 5 the normalizer
    throws a TypeError instead of dropping the message. *)
Theorem handleChatMessage_throws_on_number_text :
  Normalizer.handleChatMessage Samples.numberText = Throw TypeError.
Proof. vm_compute. reflexivity. Qed.

(** C6: when the filtered and repaired list holds exactly one message and
    its role is not [system], the output is exactly the default system
    message, whose sole content block has the text
    [You are a helpful assistant.], followed by that message; in every
    other case the output is the filtered list itself. *)
Theorem default_system_message_rule (messages fixedMessages : list JSVal) :
  Normalizer.fixMessages messages = Ok fixedMessages ->
  (forall m, fixedMessages = [m] ->
             prop m (js "role") <> Str (js "system") ->
             Normalizer.handleChatMessage messages
             = Ok [Normalizer.defaultSystemMessage; m]) /\
  (~ (exists m, fixedMessages = [m]
                /\ prop m (js "role") <> Str (js "system")) ->
   Normalizer.handleChatMessage messages = Ok fixedMessages) /\
  Normalizer.defaultSystemMessage
  = Obj [(js "role", Str (js "system"));
         (js "content",
          Arr [Normalizer.textBlock (js "You are a helpful assistant.")])].
Proof.
  intros Hf. unfold Normalizer.handleChatMessage. rewrite Hf. simpl.
  split; [|split; [|reflexivity]].
  - intros m -> Hrole. apply isStr_false in Hrole. by rewrite Hrole.
  - intros Hnot. destruct fixedMessages as [|m [|m' l]]; try done.
    destruct (isStr (prop m (js "role")) (js "system")) eqn:Hrole; [done|].
    exfalso. apply Hnot. exists m. split; [done|]. by apply isStr_false.
Qed.

Lemma default_system_message_rule_witness :
  Normalizer.fixMessages Samples.singleUser = Ok [Samples.singleUserFixed] /\
  prop Samples.singleUserFixed (js "role") <> Str (js "system") /\
  Normalizer.handleChatMessage Samples.singleUser
  = Ok [Normalizer.defaultSystemMessage; Samples.singleUserFixed].
Proof.
  assert (Hf : Normalizer.fixMessages Samples.singleUser
               = Ok [Samples.singleUserFixed]) by (vm_compute; reflexivity).
  assert (Hr : prop Samples.singleUserFixed (js "role") <> Str (js "system"))
    by (vm_compute; discriminate).
  split; [exact Hf|]. split; [exact Hr|].
  exact (proj1 (default_system_message_rule _ _ Hf) _ eq_refl Hr).
Defined.

(** ** The stream reducer as a fold over lines *)

Section ReducerFacts.
Import StreamReducer Trace.

Lemma processLine_parsedOf (acc : Acc) (line : jsstring) :
  processLine acc line
  = match parsedOf line with Some v => merge acc v | None => acc end.
Proof.
  unfold processLine, parsedOf, merge.
  destruct (startsWith (js "data: ") line); [|done].
  destruct (eqb _ (js "[DONE]")); [done|].
  by destruct (JSON.parse _).
Qed.

Lemma fold_processLine (lines : list jsstring) (acc : Acc) :
  fold_left processLine lines acc
  = fold_left merge (omap parsedOf lines) acc.
Proof.
  revert acc. induction lines as [|line lines IH]; intros acc; simpl; [done|].
  rewrite IH, processLine_parsedOf. by destruct (parsedOf line).
Qed.

Lemma fold_processChunk (stream : list (list byte)) d (acc : Acc) :
  snd (fold_left processChunk stream (d, acc))
  = fold_left processLine
      (concat (map (split newline) (decodeChunks d stream))) acc.
Proof.
  revert d acc. induction stream as [|value stream IH]; intros d acc; simpl;
    [done|].
  destruct (TextDecoder.decode d value) as [d' chunk]. simpl.
  by rewrite IH, fold_left_app.
Qed.

(** The read loop visits the lines of [seenLines], in order. *)
Lemma readAll_lines (now : Z) (stream : list (list byte)) :
  readAll now stream = fold_left processLine (seenLines stream) (initial now).
Proof. apply fold_processChunk. Qed.

(** The read loop merges the deltas of [parsedDeltas], in order. *)
Lemma readAll_deltas (now : Z) (stream : list (list byte)) :
  readAll now stream = fold_left merge (parsedDeltas stream) (initial now).
Proof. rewrite readAll_lines. apply fold_processLine. Qed.

End ReducerFacts.

(** ** Chunking *)

Example hello_document :
  StreamReducer.Message.content
    (StreamReducer.Choice.message
       (hd (StreamReducer.Choice.mk 0
              (StreamReducer.Message.mk [] Undefined None) Undefined)
          (StreamReducer.Completion.choices
             (StreamReducer.collectStreamData Samples.clock Samples.hello))))
  = Str (js "Hello").
Proof. vm_compute. reflexivity. Qed.

(** C1: the same bytes give two documents.  Read at once, the stream
    of the first example yields the content [Hello]; read in two chunks that
    cut the second [data: ] line, it yields [Hel], because the text of a line
    is not carried from one read to the next. *)
Theorem collectStreamData_depends_on_chunking :
  concat Samples.helloSplit = concat Samples.hello /\
  Trace.parsedDeltas Samples.helloSplit
  = [Obj [(js "choices",
           Arr [Obj [(js "delta", Obj [(js "content", Str (js "Hel"))])]])];
     Obj [(js "choices",
           Arr [Obj [(js "delta", Obj []);
                     (js "finish_reason", Str (js "stop"))]])]] /\
  StreamReducer.content (StreamReducer.readAll (fst Samples.clock) Samples.hello)
  = js "Hello" /\
  StreamReducer.content
    (StreamReducer.readAll (fst Samples.clock) Samples.helloSplit)
  = js "Hel" /\
  StreamReducer.collectStreamData Samples.clock Samples.helloSplit
  <> StreamReducer.collectStreamData Samples.clock Samples.hello.
Proof.
  repeat split; try (vm_compute; reflexivity).
  vm_compute. discriminate.
Qed.

(** ** The end marker, malformed lines and [created] *)

Section FoldFacts.
Import StreamReducer Trace.

Lemma parsedOf_done (line : jsstring) :
  (isData line = true -> isDone line = true) -> parsedOf line = None.
Proof.
  unfold isData, isDone, parsedOf. intros H.
  destruct (startsWith (js "data: ") line); [|done].
  specialize (H eq_refl). apply andb_true_iff in H as [_ H]. by rewrite H.
Qed.

Lemma parsedOf_malformed (line : jsstring) (e : JSError) :
  JSON.parse (trim (slice 6 line)) = Throw e -> parsedOf line = None.
Proof.
  unfold parsedOf. intros H. rewrite H.
  by repeat match goal with |- context [if ?b then _ else _] => destruct b end.
Qed.

Lemma omap_parsedOf_done (lines : list jsstring) :
  Forall (fun line => isData line = true -> isDone line = true) lines ->
  omap parsedOf lines = [].
Proof.
  induction 1 as [|line lines H _ IH]; simpl; [done|].
  by rewrite (parsedOf_done line H).
Qed.

End FoldFacts.

(** C5: when every [data: ] line the reducer meets is the marker
    [data: [DONE]], the document has the content [null] (not the empty
    string), no [tool_calls] field, the finish reason [stop], and the
    generated id [chatcmpl-] followed by the milliseconds of the clock. *)
Theorem collectStreamData_only_done (clock : Z * Z) (stream : list (list byte)) :
  Forall (fun line => Trace.isData line = true -> Trace.isDone line = true)
    (Trace.seenLines stream) ->
  let doc := StreamReducer.collectStreamData clock stream in
  doc = Trace.emptyCompletion clock /\
  StreamReducer.Completion.id doc
  = Str (js "chatcmpl-" ++ NumberToString (ofZ (snd clock))) /\
  (exists message,
     StreamReducer.Completion.choices doc
     = [StreamReducer.Choice.mk 0 message (Str (js "stop"))] /\
     StreamReducer.Message.content message = Null /\
     StreamReducer.Message.tool_calls message = None).
Proof.
  intros Hdone doc.
  assert (Hdoc : doc = Trace.emptyCompletion clock).
  { unfold doc, StreamReducer.collectStreamData.
    rewrite readAll_deltas. unfold Trace.parsedDeltas.
    by rewrite (omap_parsedOf_done _ Hdone). }
  rewrite Hdoc. split; [done|]. split; [done|].
  eexists. by repeat split.
Qed.

Lemma collectStreamData_only_done_witness :
  Forall (fun line => Trace.isData line = true -> Trace.isDone line = true)
    (Trace.seenLines Samples.onlyDone) /\
  StreamReducer.Completion.id
    (StreamReducer.collectStreamData Samples.clock Samples.onlyDone)
  = Str (js "chatcmpl-1700000004567").
Proof.
  assert (H : Forall (fun line => Trace.isData line = true
                                  -> Trace.isDone line = true)
                (Trace.seenLines Samples.onlyDone)).
  { assert (Hl : Trace.seenLines Samples.onlyDone = [js "data: [DONE]"; []; []])
      by (vm_compute; reflexivity).
    rewrite Hl.
    repeat (constructor;
            [intros Hd; vm_compute in Hd |- *; first [reflexivity | discriminate]|]).
    constructor. }
  split; [exact H|].
  exact (proj1 (proj2 (collectStreamData_only_done Samples.clock
                         Samples.onlyDone H))).
Defined.

(** C7: a line that starts with [data: ] and whose trimmed remainder
    [JSON.parse] rejects contributes nothing: the stream that contains it
    and the stream whose lines are the same without it give the same
    document, hence the same accumulated content, and no error surfaces. *)
Theorem malformed_line_ignored (clock : Z * Z) (stream stream' : list (list byte))
    (before after : list jsstring) (line : jsstring) (e : JSError) :
  Trace.seenLines stream = before ++ line :: after ->
  Trace.seenLines stream' = before ++ after ->
  Trace.isData line = true ->
  JSON.parse (trim (slice 6 line)) = Throw e ->
  StreamReducer.collectStreamData clock stream
  = StreamReducer.collectStreamData clock stream' /\
  StreamReducer.content (StreamReducer.readAll (fst clock) stream)
  = StreamReducer.content (StreamReducer.readAll (fst clock) stream').
Proof.
  intros Hs Hs' _ Hbad.
  assert (H : StreamReducer.readAll (fst clock) stream
              = StreamReducer.readAll (fst clock) stream').
  { rewrite !readAll_lines, Hs, Hs', !fold_left_app. simpl.
    rewrite processLine_parsedOf. by rewrite (parsedOf_malformed _ _ Hbad). }
  unfold StreamReducer.collectStreamData. by rewrite H.
Qed.

Lemma malformed_line_ignored_witness :
  Trace.seenLines Samples.helloMalformed
  = take 2 (Trace.seenLines Samples.hello)
    ++ Samples.malformedLine :: drop 2 (Trace.seenLines Samples.hello) /\
  Trace.isData Samples.malformedLine = true /\
  JSON.parse (trim (slice 6 Samples.malformedLine)) = Throw SyntaxError /\
  StreamReducer.collectStreamData Samples.clock Samples.helloMalformed
  = StreamReducer.collectStreamData Samples.clock Samples.hello.
Proof.
  assert (H1 : Trace.seenLines Samples.helloMalformed
               = take 2 (Trace.seenLines Samples.hello)
                 ++ Samples.malformedLine :: drop 2 (Trace.seenLines Samples.hello))
    by (vm_compute; reflexivity).
  assert (H2 : Trace.seenLines Samples.hello
               = take 2 (Trace.seenLines Samples.hello)
                 ++ drop 2 (Trace.seenLines Samples.hello))
    by (vm_compute; reflexivity).
  assert (H3 : Trace.isData Samples.malformedLine = true)
    by (vm_compute; reflexivity).
  assert (H4 : JSON.parse (trim (slice 6 Samples.malformedLine))
               = Throw SyntaxError) by (vm_compute; reflexivity).
  split; [exact H1|]. split; [exact H3|]. split; [exact H4|].
  exact (proj1 (malformed_line_ignored Samples.clock _ _ _ _ _ _ H1 H2 H3 H4)).
Defined.

(** ** The [created] field *)

Section CreatedFacts.
Import StreamReducer Trace.

Lemma keeps_andThen {A} (part : Acc -> A) (f g : Acc -> Exc Acc) :
  keeps part f -> keeps part g ->
  keeps part (fun acc => andThen (f acc) g).
Proof.
  intros Hf Hg acc. specialize (Hf acc).
  destruct (f acc) as [s|s]; simpl in *; [|done].
  by rewrite Hg.
Qed.

Lemma appendContent_created delta : keeps created (appendContent delta).
Proof.
  intros acc. unfold appendContent.
  destruct (truthy delta && _); [|done]. by destruct (ToString _).
Qed.

Lemma applyToolCalls_created delta : keeps created (applyToolCalls delta).
Proof.
  intros acc. unfold applyToolCalls.
  destruct (truthy delta && _); [|done].
  destruct (gtZero _) as [[|]|]; try done.
  destruct (iterate _); [|done]. by destruct (forOf _ _ _).
Qed.

Lemma setFinishReason_created choice : keeps created (setFinishReason choice).
Proof. intros acc. unfold setFinishReason. by destruct (truthy _). Qed.

Lemma setHeader_created parsed acc :
  created (setHeader parsed acc)
  = if truthy (prop parsed (js "created")) then prop parsed (js "created")
    else created acc.
Proof.
  unfold setHeader.
  by repeat match goal with
            | |- context [if truthy ?v then _ else _] => destruct (truthy v)
            end.
Qed.

(** Merging one parsed delta: a truthy [created] replaces the field, and
    nothing else touches it. *)
Lemma merge_created acc parsed :
  created (merge acc parsed)
  = if truthy (prop parsed (js "created")) then prop parsed (js "created")
    else created acc.
Proof.
  unfold merge, processParsed.
  destruct (nullish parsed) eqn:Hn.
  - by destruct parsed.
  - rewrite <- setHeader_created.
    destruct (truthy (prop parsed (js "choices")) && _); [|done].
    apply (keeps_andThen created _ _ (appendContent_created _)).
    apply (keeps_andThen created _ _ (applyToolCalls_created _)).
    apply setFinishReason_created.
Qed.

Lemma last_cons_default {A} (x d : A) (l : list A) :
  List.last (x :: l) d = List.last l x.
Proof.
  revert x d. induction l as [|y l IH]; intros x d; [done|].
  change (List.last (x :: y :: l) d) with (List.last (y :: l) d).
  by rewrite (IH y d), (IH y x).
Qed.

Lemma fold_merge_created (deltas : list JSVal) (acc : Acc) :
  created (fold_left merge deltas acc)
  = List.last
      (List.filter truthy (map (fun d => prop d (js "created")) deltas))
      (created acc).
Proof.
  revert acc. induction deltas as [|d deltas IH]; intros acc; [done|].
  simpl fold_left. rewrite IH, merge_created. simpl.
  destruct (truthy (prop d (js "created"))); [|done].
  by rewrite last_cons_default.
Qed.

End CreatedFacts.

(** C9: the document's [created] is the last truthy [created] among the
    deltas that were parsed, and, when there is none, the whole seconds of
    the clock read when the reducer started. *)
Theorem collectStreamData_created (clock : Z * Z) (stream : list (list byte)) :
  StreamReducer.Completion.created
    (StreamReducer.collectStreamData clock stream)
  = List.last
      (List.filter truthy
         (map (fun d => prop d (js "created")) (Trace.parsedDeltas stream)))
      (Num (ofZ (fst clock / 1000))).
Proof.
  unfold StreamReducer.collectStreamData. simpl.
  by rewrite readAll_deltas, fold_merge_created.
Qed.

(** ** Tool-call fragments *)

Section ToolCallFacts.
Import StreamReducer Trace.

Lemma setSlot_lookup (i : nat) (x : ToolCall) (l : list (option ToolCall)) :
  setSlot i x l !! i = Some (Some x).
Proof.
  unfold setSlot. destruct (decide (i < length l)%nat) as [Hlt|Hge].
  - by apply list_lookup_insert_eq.
  - rewrite lookup_app_r by lia. rewrite lookup_app_r; rewrite length_replicate.
    + by replace (i - length l - (i - length l))%nat with 0%nat by lia.
    + lia.
Qed.

(** Line 194: a start delta stores a fresh tool call under its index. *)
Lemma applyToolCall_start (tcs : ToolCalls) (i : nat) (args : jsstring)
    (toolCall : JSVal) :
  startsAt i args toolCall ->
  exists tc,
    applyToolCall tcs toolCall
    = Next (mkToolCalls (setSlot i tc (slots tcs)) (named tcs)) /\
    tc_arguments tc = Str args.
Proof.
  intros (Hnull & Hstart & (k & Hk & Hi) & Hargs).
  unfold applyToolCall, isStart, toolKey in *.
  rewrite Hnull, Hstart, Hk, Hi. eexists. split; [reflexivity|]. exact Hargs.
Qed.

(** Line 198: a continuation delta appends its fragment to the arguments
    stored under its index. *)
Lemma applyToolCall_continue (tcs : ToolCalls) (i : nat)
    (args fragment : jsstring) (tc : ToolCall) (toolCall : JSVal) :
  continuesAt i fragment toolCall ->
  slots tcs !! i = Some (Some tc) -> tc_arguments tc = Str args ->
  exists tcs' tc',
    applyToolCall tcs toolCall = Next tcs' /\
    slots tcs' !! i = Some (Some tc') /\
    tc_arguments tc' = Str (args ++ fragment).
Proof.
  intros (Hnull & Hstart & Hfn & (k & Hk & Hi) & Hfrag) Hslot Hargs.
  unfold applyToolCall, isStart, toolKey in *.
  rewrite Hnull, Hstart, Hk, Hi, Hslot, Hfn.
  unfold continueToolCall. rewrite Hfrag, Hargs. simpl.
  assert (Hlt : (i < length (slots tcs))%nat)
    by (eapply lookup_lt_Some; exact Hslot).
  destruct (truthy (prop (prop toolCall (js "function")) (js "name")));
    eexists _, _; (split; [reflexivity|]); simpl;
    (split; [by apply list_lookup_insert_eq | reflexivity]).
Qed.

Lemma forOf_continue (i : nat) (fragments : list jsstring)
    (deltas : list JSVal) :
  Forall2 (continuesAt i) fragments deltas ->
  forall (tcs : ToolCalls) (tc : ToolCall) (args : jsstring),
    slots tcs !! i = Some (Some tc) -> tc_arguments tc = Str args ->
    exists tcs' tc',
      forOf applyToolCall deltas tcs = Next tcs' /\
      slots tcs' !! i = Some (Some tc') /\
      tc_arguments tc' = Str (args ++ concat fragments).
Proof.
  induction 1 as [|fragment delta fragments deltas Hd _ IH];
    intros tcs tc args Hslot Hargs; simpl.
  - exists tcs, tc. by rewrite app_nil_r.
  - destruct (applyToolCall_continue _ _ _ _ _ _ Hd Hslot Hargs)
      as (tcs1 & tc1 & -> & Hslot1 & Hargs1). simpl.
    destruct (IH _ _ _ Hslot1 Hargs1) as (tcs2 & tc2 & -> & Hslot2 & Hargs2).
    exists tcs2, tc2. by rewrite app_assoc.
Qed.

End ToolCallFacts.

(** ** The sparse array of tool calls *)

Section SparseFacts.
Import StreamReducer Trace.

Lemma setSlot_length (i : nat) (x : ToolCall) (l : list (option ToolCall)) :
  length (setSlot i x l) = Nat.max (length l) (S i).
Proof.
  unfold setSlot. destruct (decide (i < length l)%nat).
  - rewrite length_insert. lia.
  - rewrite !length_app, length_replicate. simpl. lia.
Qed.

(** Beside the element it sets, [setSlot] populates nothing. *)
Lemma setSlot_lookup_ne (i j : nat) (x y : ToolCall)
    (l : list (option ToolCall)) :
  i <> j -> setSlot i x l !! j = Some (Some y) -> l !! j = Some (Some y).
Proof.
  intros Hne. unfold setSlot. destruct (decide (i < length l)%nat).
  - by rewrite list_lookup_insert_ne.
  - destruct (decide (j < length l)%nat).
    + by rewrite lookup_app_l.
    + rewrite lookup_app_r by lia.
      destruct (decide (j - length l < i - length l)%nat).
      * rewrite lookup_app_l by (rewrite length_replicate; lia).
        rewrite lookup_replicate. by intros [[=] _].
      * rewrite lookup_app_r by (rewrite length_replicate; lia).
        rewrite length_replicate.
        destruct (j - length l - (i - length l))%nat as [|m] eqn:E; [lia|].
        simpl. by rewrite lookup_nil.
Qed.

Lemma sparseInv_setSlot k tcs i x :
  sparseInv k tcs -> (k <= i)%nat ->
  sparseInv k (mkToolCalls (setSlot i x (slots tcs)) (named tcs)).
Proof.
  intros [Htop Hk] Hi. split.
  - intros n Hn. simpl in Hn. rewrite setSlot_length in Hn.
    destruct (decide (i = n)) as [->|Hne].
    + exists x. apply setSlot_lookup.
    + assert (Hlen : length (slots tcs) = S n) by lia.
      destruct (Htop n Hlen) as [tc Htc]. exists tc. simpl.
      unfold setSlot. destruct (decide (i < length (slots tcs))%nat); [|lia].
      by rewrite list_lookup_insert_ne.
  - intros j [tc Htc]. simpl in Htc.
    destruct (decide (i = j)) as [<-|Hne]; [done|].
    apply Hk. exists tc. by eapply setSlot_lookup_ne.
Qed.

Lemma sparseInv_insert k tcs i tc tc' :
  sparseInv k tcs -> slots tcs !! i = Some (Some tc) ->
  sparseInv k (mkToolCalls (<[i := Some tc']> (slots tcs)) (named tcs)).
Proof.
  intros [Htop Hk] Hi.
  assert (Hlt : (i < length (slots tcs))%nat) by (eapply lookup_lt_Some; eauto).
  split.
  - intros n Hn. simpl in Hn. rewrite length_insert in Hn.
    destruct (Htop n Hn) as [x Hx].
    destruct (decide (i = n)) as [->|Hne].
    + exists tc'. simpl. by apply list_lookup_insert_eq.
    + exists x. simpl. by rewrite list_lookup_insert_ne.
  - intros j [x Hx]. simpl in Hx.
    destruct (decide (i = j)) as [<-|Hne].
    + apply Hk. by exists tc.
    + apply Hk. exists x. by rewrite list_lookup_insert_ne in Hx.
Qed.

Lemma sparseInv_named k tcs l :
  sparseInv k tcs -> sparseInv k (mkToolCalls (slots tcs) l).
Proof. intros [Htop Hk]. split; [exact Htop | exact Hk]. Qed.

(** Lines 182-203 keep the two facts when the delta, if it is a start
    delta, addresses an index at [k] or above. *)
Lemma applyToolCall_sparseInv k tcs d :
  sparseInv k tcs ->
  (isStart d = true -> forall i, atIndex i d -> (k <= i)%nat) ->
  sparseInv k (caught (applyToolCall tcs d)).
Proof.
  intros Hinv Hd. unfold applyToolCall.
  destruct (nullish d); [done|].
  fold (isStart d). fold (toolKey d). unfold isStart in Hd. fold (isStart d) in Hd.
  destruct (isStart d) eqn:Hs.
  - destruct (toolKey d) as [key|e] eqn:Hkey; [|done].
    destruct (toKey key) as [i| |s] eqn:Hi; simpl;
      [|done|by apply sparseInv_named].
    apply sparseInv_setSlot; [done|].
    apply Hd; [done|]. by exists key.
  - destruct (toolKey d) as [key|e] eqn:Hkey; [|done].
    destruct (toKey key) as [i| |s] eqn:Hi; simpl.
    + destruct (slots tcs !! i) as [[tc|]|] eqn:Hslot; try done.
      destruct (truthy _); [|done].
      destruct (continueToolCall _ tc) as [tc'|e]; [|done].
      simpl. by eapply sparseInv_insert.
    + destruct (decide _); [done|]. by destruct (_ && _).
    + destruct (lookupNamed s (named tcs)); [|by destruct (_ && _)].
      destruct (truthy _); [|done].
      destruct (continueToolCall _ _); [|done].
      simpl. by apply sparseInv_named.
Qed.

Lemma forOf_sparseInv k (deltas : list JSVal) (tcs : ToolCalls) :
  sparseInv k tcs -> startsFrom k deltas ->
  sparseInv k (caught (forOf applyToolCall deltas tcs)).
Proof.
  revert tcs. induction deltas as [|d deltas IH]; intros tcs Hinv Hds; [done|].
  simpl.
  assert (H1 : sparseInv k (caught (applyToolCall tcs d))).
  { apply applyToolCall_sparseInv; [done|].
    intros Hs i Hi. apply (Hds d i); [by left | done | done]. }
  destruct (applyToolCall tcs d) as [tcs'|tcs']; simpl in *; [|done].
  apply IH; [done|]. intros d' i Hin. apply Hds. by right.
Qed.

Lemma caught_andThen_inv (P : Acc -> Prop) (r : Exc Acc) (f : Acc -> Exc Acc) :
  P (caught r) -> (forall s, P s -> P (caught (f s))) ->
  P (caught (andThen r f)).
Proof. destruct r as [s|s]; simpl; auto. Qed.

Lemma applyToolCalls_sparseInv k delta acc :
  sparseInv k (toolCalls acc) ->
  startsFrom k (match iterate (prop delta (js "tool_calls")) with
                | Ok l => l
                | Throw _ => []
                end) ->
  sparseInv k (toolCalls (caught (applyToolCalls delta acc))).
Proof.
  intros Hinv Hds. unfold applyToolCalls.
  destruct (truthy delta && _); [|done].
  destruct (gtZero _) as [[|]|]; try done.
  destruct (iterate _) as [l|e]; [|done].
  pose proof (forOf_sparseInv k l (toolCalls acc) Hinv Hds) as H.
  by destruct (forOf applyToolCall l (toolCalls acc)).
Qed.

Lemma setHeader_toolCalls parsed acc :
  toolCalls (setHeader parsed acc) = toolCalls acc.
Proof.
  unfold setHeader.
  by repeat match goal with
            | |- context [if truthy ?v then _ else _] => destruct (truthy v)
            end.
Qed.

Lemma appendContent_toolCalls delta : keeps toolCalls (appendContent delta).
Proof.
  intros acc. unfold appendContent.
  destruct (truthy delta && _); [|done]. by destruct (ToString _).
Qed.

Lemma setFinishReason_toolCalls choice :
  keeps toolCalls (setFinishReason choice).
Proof. intros acc. unfold setFinishReason. by destruct (truthy _). Qed.

(** Merging one parsed delta keeps the two facts. *)
Lemma merge_sparseInv k acc parsed :
  sparseInv k (toolCalls acc) -> startsFrom k (toolCallsOf parsed) ->
  sparseInv k (toolCalls (merge acc parsed)).
Proof.
  intros Hinv Hds. unfold merge, processParsed.
  destruct (nullish parsed); [done|].
  destruct (truthy (prop parsed (js "choices")) && _);
    [|simpl; by rewrite setHeader_toolCalls].
  apply (caught_andThen_inv (fun a => sparseInv k (toolCalls a))).
  { by rewrite (appendContent_toolCalls _ _), setHeader_toolCalls. }
  intros a Ha.
  apply (caught_andThen_inv (fun a => sparseInv k (toolCalls a))).
  { by apply applyToolCalls_sparseInv. }
  intros a' Ha'. by rewrite (setFinishReason_toolCalls _ _).
Qed.

Lemma fold_merge_sparseInv k (deltas : list JSVal) (acc : Acc) :
  sparseInv k (toolCalls acc) ->
  startsFrom k (concat (map toolCallsOf deltas)) ->
  sparseInv k (toolCalls (fold_left merge deltas acc)).
Proof.
  revert acc. induction deltas as [|d deltas IH]; intros acc Hinv Hds; [done|].
  simpl. apply IH.
  - apply merge_sparseInv; [done|].
    intros x i Hin. apply Hds. simpl. apply in_or_app. by left.
  - intros x i Hin. apply Hds. simpl. apply in_or_app. by right.
Qed.

Lemma readAll_sparseInv k now stream :
  startsFrom k (toolCallDeltas stream) ->
  sparseInv k (toolCalls (readAll now stream)).
Proof.
  intros Hds. rewrite readAll_deltas. apply fold_merge_sparseInv; [|done].
  split.
  - intros n Hn. discriminate Hn.
  - intros i [tc Htc]. simpl in Htc. by rewrite lookup_nil in Htc.
Qed.

End SparseFacts.

(** ** The loop over the tool calls of a payload *)

Section LoopFacts.
Import StreamReducer Trace.

Lemma forOf_app {S A} (body : S -> A -> Exc S) (a b : list A) (s : S) :
  forOf body (a ++ b) s = andThen (forOf body a s) (forOf body b).
Proof.
  revert s. induction a as [|x a IH]; intros s; simpl; [done|].
  destruct (body s x) as [s'|s']; simpl; [apply IH | done].
Qed.

(** What merging a payload does to [toolCalls]: the loop of lines
    181-204 over the deltas of [loopDeltas], up to the first that
    throws. *)
Lemma merge_toolCalls (acc : Acc) (parsed : JSVal) :
  toolCalls (merge acc parsed)
  = caught (forOf applyToolCall (loopDeltas parsed) (toolCalls acc)).
Proof.
  unfold merge, processParsed, loopDeltas.
  destruct (nullish parsed); [done|]. simpl negb. simpl andb.
  destruct (truthy (prop parsed (js "choices"))
            && truthy (prop (prop parsed (js "choices")) (js "0"))) eqn:Hc;
    simpl; [|by rewrite setHeader_toolCalls].
  set (delta := prop (prop (prop parsed (js "choices")) (js "0")) (js "delta")).
  set (acc' := setHeader parsed acc).
  assert (Hacc : toolCalls acc' = toolCalls acc)
    by apply setHeader_toolCalls.
  unfold appendContent, contentThrows.
  assert (Hrest : forall a, toolCalls a = toolCalls acc ->
            toolCalls
              (caught (andThen (applyToolCalls delta a)
                         (fun a0 => setFinishReason
                                      (prop (prop parsed (js "choices")) (js "0"))
                                      a0)))
            = caught (forOf applyToolCall
                        (if truthy delta && truthy (prop delta (js "tool_calls"))
                         then
                           match gtZero (prop (prop delta (js "tool_calls"))
                                           (js "length")),
                                 iterate (prop delta (js "tool_calls")) with
                           | Ok true, Ok l => l
                           | _, _ => []
                           end
                         else [])
                        (toolCalls acc))).
  { intros a Ha. unfold applyToolCalls.
    destruct (truthy delta && truthy (prop delta (js "tool_calls"))); simpl.
    2:{ by rewrite (setFinishReason_toolCalls _ a). }
    destruct (gtZero _) as [[|]|e]; simpl;
      [| by rewrite (setFinishReason_toolCalls _ a) | done].
    destruct (iterate _) as [l|e]; simpl; [|done].
    rewrite Ha.
    destruct (forOf applyToolCall l (toolCalls acc)) as [tcs|tcs]; simpl;
      [|done].
    by rewrite (setFinishReason_toolCalls _ _). }
  destruct (truthy delta && truthy (prop delta (js "content"))) eqn:Hd; simpl.
  - destruct (ToString (prop delta (js "content"))) as [s|e]; simpl.
    + rewrite Hrest by done. by destruct (truthy delta).
    + done.
  - rewrite Hrest by done.
    by destruct (truthy delta), (truthy (prop delta (js "tool_calls"))).
Qed.

(** When no delta throws, the payloads' loops run one after the other as
    one loop over all their deltas. *)
Lemma fold_merge_toolCalls (payloads : list JSVal) (acc : Acc)
    (tcs : ToolCalls) :
  forOf applyToolCall (concat (map loopDeltas payloads)) (toolCalls acc)
  = Next tcs ->
  toolCalls (fold_left merge payloads acc) = tcs.
Proof.
  revert acc. induction payloads as [|p payloads IH]; intros acc; simpl.
  - by intros [= <-].
  - rewrite forOf_app. intros H. apply IH. rewrite merge_toolCalls.
    by destruct (forOf applyToolCall (loopDeltas p) (toolCalls acc)).
Qed.






End LoopFacts.

(** C4: when the payloads of a stream end with a start delta at an index
    followed by continuation deltas at the same index, the array
    [toolCalls] the reducer has accumulated at the end of the stream
    holds under that index the arguments string made of the start
    delta's arguments and all the fragments, in order of arrival,
    whatever the payloads before did; the message of the document
    carries that array; and the string is the one found there after a
    stream in which the same payloads are followed by one start delta
    with the whole arguments. *)
Theorem tool_call_fragments_concatenate (clock : Z * Z)
    (stream stream' : list (list byte)) (before calls calls' : list JSVal)
    (i : nat) (args : jsstring) (fragments : list jsstring)
    (start whole : JSVal) (deltas : list JSVal) :
  Trace.parsedDeltas stream = before ++ calls ->
  concat (map Trace.loopDeltas calls) = start :: deltas ->
  Trace.startsAt i args start ->
  Forall2 (Trace.continuesAt i) fragments deltas ->
  Trace.parsedDeltas stream' = before ++ calls' ->
  concat (map Trace.loopDeltas calls') = [whole] ->
  Trace.startsAt i (args ++ concat fragments) whole ->
  let tcs := StreamReducer.toolCalls (StreamReducer.readAll (fst clock) stream) in
  let tcs' :=
    StreamReducer.toolCalls (StreamReducer.readAll (fst clock) stream') in
  exists tc tc' message,
    StreamReducer.slots tcs !! i = Some (Some tc) /\
    StreamReducer.tc_arguments tc = Str (args ++ concat fragments) /\
    Delta.messageOf (StreamReducer.collectStreamData clock stream)
    = Some message /\
    StreamReducer.Message.tool_calls message = Some tcs /\
    StreamReducer.slots tcs' !! i = Some (Some tc') /\
    StreamReducer.tc_arguments tc' = StreamReducer.tc_arguments tc.
Proof.
  intros Hstream Hcalls Hstart Hdeltas Hstream' Hcalls' Hwhole tcs tcs'.
  set (acc0 := fold_left Trace.merge before
                 (StreamReducer.initial (fst clock))).
  destruct (applyToolCall_start (StreamReducer.toolCalls acc0) _ _ _ Hstart)
    as (tc0 & Happ0 & Hargs0).
  destruct (forOf_continue _ _ _ Hdeltas
              (StreamReducer.mkToolCalls
                 (StreamReducer.setSlot i tc0
                    (StreamReducer.slots (StreamReducer.toolCalls acc0)))
                 (StreamReducer.named (StreamReducer.toolCalls acc0)))
              tc0 args (setSlot_lookup _ _ _) Hargs0)
    as (tcs1 & tc1 & Hfor & Hslot1 & Hargs1).
  destruct (applyToolCall_start (StreamReducer.toolCalls acc0) _ _ _ Hwhole)
    as (tc2 & Happ2 & Hargs2).
  assert (Htcs : tcs = tcs1).
  { unfold tcs. rewrite readAll_deltas, Hstream, fold_left_app.
    apply fold_merge_toolCalls. rewrite Hcalls. simpl.
    fold acc0. by rewrite Happ0. }
  assert (Htcs' : tcs'
                  = StreamReducer.mkToolCalls
                      (StreamReducer.setSlot i tc2
                         (StreamReducer.slots (StreamReducer.toolCalls acc0)))
                      (StreamReducer.named (StreamReducer.toolCalls acc0))).
  { unfold tcs'. rewrite readAll_deltas, Hstream', fold_left_app.
    apply fold_merge_toolCalls. rewrite Hcalls'. simpl.
    fold acc0. by rewrite Happ2. }
  exists tc1, tc2. eexists.
  split; [by rewrite Htcs|]. split; [exact Hargs1|].
  split; [reflexivity|]. split.
  { simpl. fold tcs.
    destruct (decide (0 < length (StreamReducer.slots tcs))%nat) as [_|Hn];
      [done|].
    rewrite Htcs in Hn. apply lookup_lt_Some in Hslot1. lia. }
  split; [rewrite Htcs'; apply setSlot_lookup|].
  by rewrite Hargs1.
Qed.

Lemma tool_call_fragments_concatenate_witness :
  Trace.parsedDeltas Samples.fragmented
  = [Samples.textPayload] ++ Samples.fragmentedCalls /\
  Trace.parsedDeltas Samples.unfragmented
  = [Samples.textPayload] ++ Samples.unfragmentedCalls /\
  exists tc tc',
    StreamReducer.slots
      (StreamReducer.toolCalls
         (StreamReducer.readAll (fst Samples.clock) Samples.fragmented))
    !! 0%nat = Some (Some tc) /\
    StreamReducer.tc_arguments tc = Str (js "[1,2]") /\
    StreamReducer.slots
      (StreamReducer.toolCalls
         (StreamReducer.readAll (fst Samples.clock) Samples.unfragmented))
    !! 0%nat = Some (Some tc') /\
    StreamReducer.tc_arguments tc' = StreamReducer.tc_arguments tc.
Proof.
  assert (Hkey : forall d, Trace.toolKey d = Ok (js "0") -> Trace.atIndex 0 d).
  { intros d Hd. exists (js "0"). split; [exact Hd | vm_compute; reflexivity]. }
  assert (H1 : Trace.parsedDeltas Samples.fragmented
               = [Samples.textPayload] ++ Samples.fragmentedCalls)
    by (vm_compute; reflexivity).
  assert (H2 : concat (map Trace.loopDeltas Samples.fragmentedCalls)
               = Samples.callStart :: Samples.callFragments)
    by (vm_compute; reflexivity).
  assert (H3 : Trace.startsAt 0 (js "[1,") Samples.callStart).
  { split; [vm_compute; reflexivity|]. split; [vm_compute; reflexivity|].
    split; [apply Hkey|]; vm_compute; reflexivity. }
  assert (H4 : Forall2 (Trace.continuesAt 0) [js "2"; js "]"]
                 Samples.callFragments).
  { constructor; [|constructor; [|constructor]];
      (split; [vm_compute; reflexivity|]; split; [vm_compute; reflexivity|];
       split; [vm_compute; reflexivity|];
       split; [apply Hkey|]; vm_compute; reflexivity). }
  assert (H5 : Trace.parsedDeltas Samples.unfragmented
               = [Samples.textPayload] ++ Samples.unfragmentedCalls)
    by (vm_compute; reflexivity).
  assert (H6 : concat (map Trace.loopDeltas Samples.unfragmentedCalls)
               = [Samples.callWhole]) by (vm_compute; reflexivity).
  assert (H7 : Trace.startsAt 0 (js "[1," ++ concat [js "2"; js "]"])
                 Samples.callWhole).
  { split; [vm_compute; reflexivity|]. split; [vm_compute; reflexivity|].
    split; [apply Hkey|]; vm_compute; reflexivity. }
  split; [exact H1|]. split; [exact H5|].
  destruct (tool_call_fragments_concatenate Samples.clock
              Samples.fragmented Samples.unfragmented
              [Samples.textPayload] Samples.fragmentedCalls
              Samples.unfragmentedCalls 0 (js "[1,") [js "2"; js "]"]
              Samples.callStart Samples.callWhole Samples.callFragments
              H1 H2 H3 H4 H5 H6 H7)
    as (tc & tc' & message & Hslot & Hargs & _ & _ & Hslot' & Hargs').
  exists tc, tc'. split; [exact Hslot|]. split; [exact Hargs|].
  split; [exact Hslot' | exact Hargs'].
Defined.


Example sparse_document :
  StreamReducer.toolCalls
    (StreamReducer.readAll (fst Samples.clock) Samples.sparse)
  = StreamReducer.mkToolCalls [None; None; Some Samples.sparseCall] [].
Proof. vm_compute. reflexivity. Qed.


(** ** The credential check *)

Section GatewayFacts.
Import Gateway.

Lemma missing_orHeader (a b : option jsstring) :
  missing (orHeader a b) = missing a && missing b.
Proof. by destruct a as [[|c t]|]. Qed.

Lemma missing_false (t : option jsstring) :
  missing t = false <-> exists c r, t = Some (c :: r).
Proof.
  destruct t as [[|c r]|]; simpl; split; try done.
  - by intros (c & r & [=]).
  - intros _. by exists c, r.
  - by intros (c & r & [=]).
Qed.

(** [!token] holds exactly when none of the three headers carries a
    value. *)
Lemma missing_token (request : Request) :
  missing (token request) = true <->
  forall name, In name credentialNames -> ~ carriesValue name request.
Proof.
  unfold token. rewrite !missing_orHeader, !andb_true_iff. split.
  - intros (H1 & H2 & H3) name [<-|[<-|[<-|[]]]] (c & r & Hc);
      rewrite Hc in *; discriminate.
  - intros H. repeat split; apply not_false_iff_true; intros Hm;
      apply missing_false in Hm; (eapply H; [|exact Hm]); simpl; auto.
Qed.

Lemma prepare_missing (request : Request) (parsed : JSVal) :
  JSON.parse (TextDecoder.decodeAll (body request)) = Ok parsed ->
  nullish parsed = false ->
  missing (token request) = true ->
  prepare request = Ok (inl unauthorized).
Proof.
  intros Hp Hn Hm. unfold prepare, get. rewrite Hp. simpl. rewrite Hn. simpl.
  by destruct (token request) as [[|c t]|].
Qed.

Lemma prepare_present (request : Request) (response : Response) :
  missing (token request) = false -> prepare request <> Ok (inl response).
Proof.
  intros Hm. apply missing_false in Hm as (c & t & Ht).
  unfold prepare. rewrite Ht.
  destruct (JSON.parse _) as [parsed|e]; simpl; [|discriminate].
  destruct (get parsed (js "stream")); simpl; [|discriminate].
  destruct (iterate _); simpl; [|discriminate].
  destruct (Normalizer.handleChatMessage _); simpl; [|discriminate].
  destruct (ToString _); simpl; discriminate.
Qed.

End GatewayFacts.

(** C8, as stated, fails: the body is read before the credential is
    looked at, so a POST to the chat-completion path that carries no
    credential and a body that is not JSON is answered 500, not 401. *)
Lemma unparsable_body_answers_500 :
  Gateway.method Samples.requestBadBody = js "POST" /\
  includes (js "/chat/completions") (Gateway.pathname Samples.requestBadBody)
  = true /\
  Gateway.headers Samples.requestBadBody = [] /\
  Gateway.handleRequest Samples.quietUpstream Samples.clock
    Samples.requestBadBody
  = (Gateway.internalError SyntaxError, []) /\
  Gateway.status
    (fst (Gateway.handleRequest Samples.quietUpstream Samples.clock
            Samples.requestBadBody)) = 500.
Proof. repeat split; vm_compute; reflexivity. Qed.

(** C8 (amended): for every POST chat-completion request whose body parses
    as a JSON value other than [null] and in which none of the three
    credential header names carries a non-empty value, the handler answers
    401 with the body [{ error: { message, type }, type: 'error' }] and
    makes no upstream call; for every POST chat-completion request in which
    one of the three names carries a non-empty value, whatever its format,
    the credential check passes: the token is not missing and the answer
    is not the 401 of the check. *)
Theorem credential_check (fetch : Gateway.UpstreamRequest -> Gateway.FetchResult)
    (clock : Z * Z) (request : Gateway.Request) :
  Gateway.method request = js "POST" ->
  includes (js "/chat/completions") (Gateway.pathname request) = true ->
  (forall parsed,
     JSON.parse (TextDecoder.decodeAll (Gateway.body request)) = Ok parsed ->
     nullish parsed = false ->
     (forall name, In name Gateway.credentialNames ->
                   ~ Gateway.carriesValue name request) ->
     Gateway.handleRequest fetch clock request = (Gateway.unauthorized, []) /\
     Gateway.status Gateway.unauthorized = 401 /\
     Gateway.payload Gateway.unauthorized
     = Gateway.ErrorEnvelope
         (Gateway.Text (Str (js "Authorization header is required")))
         (js "auth_error")) /\
  (forall name,
     In name Gateway.credentialNames -> Gateway.carriesValue name request ->
     Gateway.missing (Gateway.token request) = false /\
     fst (Gateway.handleRequest fetch clock request) <> Gateway.unauthorized).
Proof.
  intros Hm Hp. split.
  - intros parsed Hparse Hnull Hnone.
    split; [|split; reflexivity].
    unfold Gateway.handleRequest. rewrite Hm, Hp, eqb_refl. simpl.
    rewrite (prepare_missing request parsed Hparse Hnull); [done|].
    by apply missing_token.
  - intros name Hin Hcarries.
    assert (Hmiss : Gateway.missing (Gateway.token request) = false).
    { apply not_true_iff_false. intros Ht.
      eapply missing_token; eauto. }
    split; [exact Hmiss|].
    unfold Gateway.handleRequest. rewrite Hm, Hp, eqb_refl. simpl.
    pose proof (prepare_present request) as Hpass.
    destruct (Gateway.prepare request) as [[response|[isStream upstream]]|e].
    + by destruct (Hpass response Hmiss).
    + destruct (fetch upstream) as [|st stream]; simpl.
      * intros H. apply (f_equal Gateway.status) in H. discriminate H.
      * destruct (negb _); [|destruct isStream]; simpl; intros H;
          apply (f_equal Gateway.payload) in H; simpl in H;
          discriminate H.
    + simpl. intros H. apply (f_equal Gateway.status) in H. discriminate H.
Qed.

Lemma credential_check_witness :
  Gateway.handleRequest Samples.quietUpstream Samples.clock
    Samples.requestAnonymous = (Gateway.unauthorized, []) /\
  Gateway.carriesValue (js "x-api-key") Samples.requestWithKey /\
  Gateway.missing (Gateway.token Samples.requestWithKey) = false.
Proof.
  assert (Hm : forall r, r = Samples.requestAnonymous \/ r = Samples.requestWithKey ->
               Gateway.method r = js "POST") by (intros r [->| ->]; reflexivity).
  assert (Hp : forall r, r = Samples.requestAnonymous \/ r = Samples.requestWithKey ->
               includes (js "/chat/completions") (Gateway.pathname r) = true)
    by (intros r [->| ->]; vm_compute; reflexivity).
  assert (Hparse : JSON.parse (TextDecoder.decodeAll
                                 (Gateway.body Samples.requestAnonymous))
                   = Ok (Samples.parseText
                           "{'model':'claude-4.0','messages':[{'role':'user','content':'hi'}]}"))
    by (vm_compute; reflexivity).
  assert (Hnone : forall name, In name Gateway.credentialNames ->
                    ~ Gateway.carriesValue name Samples.requestAnonymous).
  { apply missing_token. vm_compute. reflexivity. }
  assert (Hkey : Gateway.carriesValue (js "x-api-key") Samples.requestWithKey).
  { exists 107%N, []. vm_compute. reflexivity. }
  split.
  - exact (proj1 (proj1 (credential_check Samples.quietUpstream Samples.clock
                           Samples.requestAnonymous
                           (Hm _ (or_introl eq_refl)) (Hp _ (or_introl eq_refl)))
                    _ Hparse ltac:(vm_compute; reflexivity) Hnone)).
  - split; [exact Hkey|].
    exact (proj1 (proj2 (credential_check Samples.quietUpstream Samples.clock
                           Samples.requestWithKey
                           (Hm _ (or_intror eq_refl)) (Hp _ (or_intror eq_refl)))
                    (js "x-api-key")
                    ltac:(right; left; reflexivity) Hkey)).
Defined.

(** ** When the normalizer returns *)

Section NormalizerReturns.
Import Normalizer Canonical.

Lemma keepItem_returns (item : JSVal) :
  textIsString item -> exists keep, keepItem item = Ok keep.
Proof.
  intros Ht. unfold keepItem.
  destruct (truthy item && isStr (prop item (js "type")) (js "text")
            && truthy (prop item (js "text"))) eqn:E; [|by eexists].
  apply andb_true_iff in E as [_ Htext].
  destruct (Ht Htext) as [t ->]. by eexists.
Qed.

Lemma filterItems_returns (items : list JSVal) :
  Forall textIsString items -> exists kept, filterItems items = Ok kept.
Proof.
  induction 1 as [|item items Hi _ [rest IH]]; simpl; [by eexists|].
  destruct (keepItem_returns item Hi) as [keep ->]. simpl.
  rewrite IH. simpl. by eexists.
Qed.

Lemma fixMessage_returns (message : JSVal) :
  textsAreStrings message -> exists fixed, fixMessage message = Ok fixed.
Proof.
  intros Ht. unfold fixMessage.
  destruct (negb (truthy message) || _); [by eexists|].
  destruct (prop message (js "content")) as [| |b|n|s|items|fs] eqn:Hc;
    try (by repeat match goal with
                   | |- context [if ?c then _ else _] => destruct c
                   end; eexists).
  destruct (filterItems_returns items (Ht items Hc)) as [kept ->]. simpl.
  destruct (decide _); by eexists.
Qed.

(** The normalizer returns, without throwing, on every sequence whose
    content blocks have strings for texts. *)
Lemma handleChatMessage_returns (messages : list JSVal) :
  Forall textsAreStrings messages ->
  exists out, handleChatMessage messages = Ok out.
Proof.
  intros Hall. unfold handleChatMessage.
  assert (Hf : exists fixed, fixMessages messages = Ok fixed).
  { induction Hall as [|message messages Hm _ [rest IH]]; simpl; [by eexists|].
    destruct (fixMessage_returns message Hm) as [fixed ->]. simpl.
    rewrite IH. simpl. by eexists. }
  destruct Hf as [fixed ->]. simpl.
  destruct fixed as [|m [|m' l]]; try (by eexists).
  destruct (negb _); by eexists.
Qed.

End NormalizerReturns.

(** ** Reads that end on a line boundary *)

Section LineAligned.
Import TextDecoder StreamReducer Trace.

Lemma split_nonempty (sep : N) (s : jsstring) : split sep s <> [].
Proof.
  destruct s as [|c s]; simpl; [done|].
  destruct (N.eqb c sep); [done|]. by destruct (split sep s).
Qed.

Lemma split_app_sep (sep : N) (x y : jsstring) :
  split sep (x ++ sep :: y) = split sep x ++ split sep y.
Proof.
  induction x as [|c x IH]; simpl.
  - by rewrite N.eqb_refl.
  - destruct (N.eqb c sep); [by rewrite IH|].
    rewrite IH. pose proof (split_nonempty sep x).
    by destruct (split sep x).
Qed.

Lemma decode_app (d : Decoder) (a b : list byte) :
  decode d (a ++ b)
  = let '(d1, t1) := decode d a in
    let '(d2, t2) := decode d1 b in (d2, t1 ++ t2).
Proof.
  revert d. induction a as [|x a IH]; intros d; simpl.
  - by destruct (decode d b).
  - destruct (decodeByte d x) as [d1 t1]. rewrite IH.
    destruct (decode d1 a) as [d2 t2]. destruct (decode d2 b) as [d3 t3].
    by rewrite app_assoc.
Qed.

Lemma lead_wellFormed (d : Decoder) (b : N) :
  wellFormed d -> wellFormed (fst (lead d b)).
Proof.
  intros Hd. unfold lead.
  repeat match goal with
         | |- context [if ?c then _ else _] => destruct c
         end; simpl; try done; right; simpl; lia.
Qed.

Lemma decodeByte_wellFormed (d : Decoder) (b : byte) :
  wellFormed d -> wellFormed (fst (decodeByte d b)).
Proof.
  intros Hd. unfold decodeByte, handler.
  assert (Hw : forall d' seen, wellFormed d' -> wellFormed (withBom d' seen))
    by (intros d' seen H; exact H).
  destruct (N.eqb (bytesNeeded d) 0).
  - pose proof (lead_wellFormed d (Byte.to_N b) Hd) as H.
    destruct (lead d (Byte.to_N b)) as [d' out].
    destruct (serialize (bomSeen d') out). by apply Hw.
  - destruct (negb _).
    + pose proof (lead_wellFormed (reset d) (Byte.to_N b) (or_introl eq_refl)) as H.
      destruct (lead (reset d) (Byte.to_N b)) as [d' out].
      destruct (serialize (bomSeen d') (65533%N :: out)). by apply Hw.
    + destruct (N.eqb _ (bytesNeeded d)).
      * destruct (serialize _ _). apply Hw. by left.
      * destruct (serialize _ _). apply Hw. right. simpl. lia.
Qed.

Lemma decode_wellFormed (d : Decoder) (a : list byte) :
  wellFormed d -> wellFormed (fst (decode d a)).
Proof.
  revert d. induction a as [|x a IH]; intros d Hd; simpl; [done|].
  pose proof (decodeByte_wellFormed d x Hd) as H1.
  destruct (decodeByte d x) as [d1 t1]. specialize (IH d1 H1).
  by destruct (decode d1 a).
Qed.

(** In every state the decoder can be in, the newline byte closes what is
    open and comes out as the last unit of the text. *)
Lemma decodeByte_newline (d : Decoder) :
  wellFormed d -> exists t, snd (decodeByte d x0a) = t ++ [newline].
Proof.
  intros Hd. unfold decodeByte, handler.
  change (Byte.to_N x0a) with 10%N.
  destruct (N.eqb (bytesNeeded d) 0) eqn:Hn.
  - change (lead d 10) with (d, [10%N]). simpl.
    destruct (bomSeen d); by exists (@nil N).
  - destruct Hd as [Hd|Hd]; [by rewrite Hd in Hn|].
    assert (Hr : N.leb (lowerBoundary d) 10 = false) by (apply N.leb_gt; lia).
    rewrite Hr. simpl.
    destruct (bomSeen d); by exists [65533%N].
Qed.

Lemma processLine_empty (acc : Acc) : processLine acc [] = acc.
Proof. reflexivity. Qed.

(** Two reads of which the first ends with a newline give the state that
    the one read of their bytes gives. *)
Lemma processChunk_line_aligned (d : Decoder) (acc : Acc) (a b : list byte) :
  wellFormed d ->
  processChunk (processChunk (d, acc) (a ++ [x0a])) b
  = processChunk (d, acc) ((a ++ [x0a]) ++ b).
Proof.
  intros Hd. unfold processChunk.
  rewrite (decode_app d (a ++ [x0a]) b). rewrite (decode_app d a [x0a]).
  pose proof (decode_wellFormed d a Hd) as Hd1.
  destruct (decode d a) as [d1 t1]. simpl in Hd1. simpl decode.
  destruct (decodeByte_newline d1 Hd1) as [t Ht].
  destruct (decodeByte d1 x0a) as [d2 t2]. simpl in Ht. subst t2.
  destruct (decode d2 b) as [d3 t3].
  rewrite app_nil_r. f_equal.
  rewrite (app_assoc t1 t [newline]).
  rewrite <- (app_assoc (t1 ++ t) [newline] t3). simpl.
  rewrite split_app_sep, fold_left_app.
  replace ((t1 ++ t) ++ [newline]) with ((t1 ++ t) ++ newline :: []) by done.
  rewrite split_app_sep, fold_left_app. simpl.
  by rewrite processLine_empty.
Qed.

Lemma processChunk_wellFormed (st : Decoder * Acc) (value : list byte) :
  wellFormed (fst st) -> wellFormed (fst (processChunk st value)).
Proof.
  destruct st as [d acc]. intros Hd. unfold processChunk.
  pose proof (decode_wellFormed d value Hd) as H.
  by destruct (decode d value).
Qed.

Lemma fold_processChunk_wellFormed (stream : list (list byte))
    (st : Decoder * Acc) :
  wellFormed (fst st) -> wellFormed (fst (fold_left processChunk stream st)).
Proof.
  revert st. induction stream as [|value stream IH]; intros st Hd; [done|].
  simpl. by apply IH, processChunk_wellFormed.
Qed.

(** X26: a read boundary that falls just after a newline does not matter:
    cutting a read there, or joining two such reads, leaves the document
    as it is. *)
Lemma collectStreamData_line_aligned (clock : Z * Z)
    (before after : list (list byte)) (a b : list byte) :
  collectStreamData clock (before ++ (a ++ [x0a]) :: b :: after)
  = collectStreamData clock (before ++ ((a ++ [x0a]) ++ b) :: after).
Proof.
  unfold collectStreamData, readAll. f_equal. f_equal.
  rewrite !fold_left_app. simpl.
  pose proof (fold_processChunk_wellFormed before (fresh, initial (fst clock))
                (or_introl eq_refl)) as Hd.
  destruct (fold_left processChunk before (fresh, initial (fst clock)))
    as [d acc].
  by rewrite processChunk_line_aligned.
Qed.

End LineAligned.

(** * Further properties of the code *)

(** ** The text decoder across reads *)

Section DecodedText.
Import TextDecoder Trace.

Lemma decodeChunks_concat (d : Decoder) (stream : list (list byte)) :
  concat (decodeChunks d stream) = snd (decode d (concat stream)).
Proof.
  revert d. induction stream as [|value stream IH]; intros d; simpl; [done|].
  rewrite decode_app. destruct (decode d value) as [d1 t1]. simpl.
  rewrite IH. by destruct (decode d1 (concat stream)).
Qed.

(** X1: the text decoded over the reads of a stream is the text of its
    bytes decoded at once; how the bytes fall into reads does not change
    it, also when a read ends inside a UTF-8 sequence. *)
Theorem decoded_text_ignores_chunking (stream stream' : list (list byte)) :
  concat stream = concat stream' ->
  concat (decodeChunks fresh stream) = concat (decodeChunks fresh stream').
Proof. intros H. by rewrite !decodeChunks_concat, H. Qed.

End DecodedText.

Lemma decoded_text_ignores_chunking_witness :
  concat MoreSamples.euroSplit = concat MoreSamples.euroWhole /\
  concat (Trace.decodeChunks TextDecoder.fresh MoreSamples.euroSplit)
  = concat (Trace.decodeChunks TextDecoder.fresh MoreSamples.euroWhole) /\
  concat (Trace.decodeChunks TextDecoder.fresh MoreSamples.euroWhole)
  = [8364%N; 10%N].
Proof.
  split; [reflexivity|]. split; [|vm_compute; reflexivity].
  exact (decoded_text_ignores_chunking MoreSamples.euroSplit
           MoreSamples.euroWhole eq_refl).
Defined.

(** ** What the merge of one delta changes *)

Section MergeFacts.
Import StreamReducer Trace Delta.

Lemma setHeader_fields parsed acc :
  content (setHeader parsed acc) = content acc /\
  finishReason (setHeader parsed acc) = finishReason acc /\
  id (setHeader parsed acc)
  = (if truthy (prop parsed (js "id")) then prop parsed (js "id") else id acc) /\
  model (setHeader parsed acc)
  = (if truthy (prop parsed (js "model")) then prop parsed (js "model")
     else model acc) /\
  usage (setHeader parsed acc)
  = (if truthy (prop parsed (js "usage")) then prop parsed (js "usage")
     else usage acc).
Proof.
  unfold setHeader.
  by repeat match goal with
            | |- context [if truthy ?v then _ else _] => destruct (truthy v)
            end.
Qed.

(** The three statements after the header assignments touch [content],
    [toolCalls] and [finishReason] only. *)
Lemma appendContent_shape delta acc :
  exists c, caught (appendContent delta acc)
            = mkAcc c (model acc) (id acc) (created acc) (finishReason acc)
                (toolCalls acc) (usage acc).
Proof.
  unfold appendContent. destruct acc.
  destruct (truthy delta && _); [|by eexists].
  destruct (ToString _); by eexists.
Qed.

Lemma applyToolCalls_shape delta acc :
  exists t, caught (applyToolCalls delta acc)
            = mkAcc (content acc) (model acc) (id acc) (created acc)
                (finishReason acc) t (usage acc).
Proof.
  unfold applyToolCalls. destruct acc.
  destruct (truthy delta && _); [|by eexists].
  destruct (gtZero _) as [[|]|]; try (by eexists).
  destruct (iterate _); [|by eexists].
  destruct (forOf _ _ _); by eexists.
Qed.

Lemma setFinishReason_shape choice acc :
  exists f, caught (setFinishReason choice acc)
            = mkAcc (content acc) (model acc) (id acc) (created acc) f
                (toolCalls acc) (usage acc).
Proof.
  unfold setFinishReason. destruct acc. destruct (truthy _); by eexists.
Qed.

(** Merging a delta sets the header fields as [setHeader] does, whatever
    happens afterwards in the [try] block. *)
Lemma merge_shape acc parsed :
  exists c f t,
    merge acc parsed
    = mkAcc c (model (setHeader parsed acc)) (id (setHeader parsed acc))
        (created (setHeader parsed acc)) f t (usage (setHeader parsed acc)).
Proof.
  unfold merge, processParsed.
  destruct (nullish parsed) eqn:Hn.
  { destruct parsed; try discriminate; destruct acc; by eexists _, _, _. }
  destruct (truthy (prop parsed (js "choices")) && _).
  2:{ simpl. destruct (setHeader parsed acc). by eexists _, _, _. }
  set (h := setHeader parsed acc).
  destruct (appendContent_shape
              (prop (prop (prop parsed (js "choices")) (js "0")) (js "delta")) h)
    as [c Hc].
  destruct (appendContent _ h) as [a|a]; simpl in Hc; subst a; simpl;
    [|by eexists _, _, _].
  match goal with |- context [applyToolCalls ?d ?a] =>
    destruct (applyToolCalls_shape d a) as [t Ht];
    destruct (applyToolCalls d a) as [b|b]; simpl in Ht; subst b; simpl;
      [|by eexists _, _, _]
  end.
  match goal with |- context [setFinishReason ?ch ?a] =>
    destruct (setFinishReason_shape ch a) as [f Hf]; rewrite Hf
  end.
  by eexists _, _, _.
Qed.

Lemma fold_merge_last (part : Acc -> JSVal) (k : jsstring) :
  (forall acc parsed,
     part (merge acc parsed)
     = if truthy (prop parsed k) then prop parsed k else part acc) ->
  forall deltas acc,
    part (fold_left merge deltas acc)
    = List.last (truthyValues k deltas) (part acc).
Proof.
  intros Hstep deltas. unfold truthyValues.
  induction deltas as [|d deltas IH]; intros acc; [done|].
  simpl fold_left. rewrite IH, Hstep. simpl.
  destruct (truthy (prop d k)); [|done]. by rewrite last_cons_default.
Qed.

Lemma merge_id acc parsed :
  id (merge acc parsed)
  = if truthy (prop parsed (js "id")) then prop parsed (js "id") else id acc.
Proof.
  destruct (merge_shape acc parsed) as (c & f & t & ->). simpl.
  apply setHeader_fields.
Qed.

Lemma merge_model acc parsed :
  model (merge acc parsed)
  = if truthy (prop parsed (js "model")) then prop parsed (js "model")
    else model acc.
Proof.
  destruct (merge_shape acc parsed) as (c & f & t & ->). simpl.
  apply setHeader_fields.
Qed.

Lemma merge_usage acc parsed :
  usage (merge acc parsed)
  = if truthy (prop parsed (js "usage")) then prop parsed (js "usage")
    else usage acc.
Proof.
  destruct (merge_shape acc parsed) as (c & f & t & ->). simpl.
  apply setHeader_fields.
Qed.

Lemma last_default_irrelevant {A} (l : list A) (d d' : A) :
  l <> [] -> List.last l d = List.last l d'.
Proof.
  destruct l as [|x l]; [done|]. intros _. by rewrite !last_cons_default.
Qed.

Lemma last_truthy (l : list JSVal) (d : JSVal) :
  Forall (fun x => truthy x = true) l -> l <> [] ->
  truthy (List.last l d) = true.
Proof.
  intros Hall. revert d. induction Hall as [|x l Hx _ IH]; intros d Hne; [done|].
  rewrite last_cons_default. destruct l as [|y l]; [done|]. by apply IH.
Qed.

(** With a falsy initial value, [last || fallback] is the last truthy
    value, or the fallback when there is none. *)
Lemma or_else_last (k : jsstring) (deltas : list JSVal) (d fallback : JSVal) :
  truthy d = false ->
  or_else (List.last (truthyValues k deltas) d) fallback
  = List.last (truthyValues k deltas) fallback.
Proof.
  intros Hd. unfold truthyValues.
  set (l := List.filter truthy (map (fun x => prop x k) deltas)).
  assert (Hall : Forall (fun x => truthy x = true) l).
  { apply List.Forall_forall. intros x Hin. by apply filter_In in Hin as [_ Hx]. }
  destruct (decide (l = [])) as [->|Hne].
  - simpl. unfold or_else. by rewrite Hd.
  - unfold or_else. rewrite (last_truthy l d Hall Hne).
    by apply last_default_irrelevant.
Qed.

End MergeFacts.

(** ** The fields of the document *)

Section DocumentFacts.
Import StreamReducer Trace Delta.

(** X2: [id], [model] and [usage] are last write wins over the parsed
    deltas: the document carries the last truthy value of each, and
    without one the id [chatcmpl-] followed by the clock's milliseconds,
    the model [gpt-3.5-turbo] and the all-zero usage.  A later [usage]
    replaces an earlier one as a whole. *)
Theorem document_header_fields (clock : Z * Z) (stream : list (list byte)) :
  let doc := collectStreamData clock stream in
  let deltas := parsedDeltas stream in
  Completion.id doc
  = List.last (truthyValues (js "id") deltas)
      (Str (js "chatcmpl-" ++ NumberToString (ofZ (snd clock)))) /\
  Completion.model doc
  = List.last (truthyValues (js "model") deltas) (Str (js "gpt-3.5-turbo")) /\
  Completion.usage doc
  = List.last (truthyValues (js "usage") deltas) zeroUsage.
Proof.
  intros doc deltas. unfold doc, collectStreamData, build. simpl.
  rewrite readAll_deltas. fold deltas.
  rewrite (fold_merge_last id (js "id") merge_id).
  rewrite (fold_merge_last model (js "model") merge_model).
  rewrite (fold_merge_last usage (js "usage") merge_usage).
  simpl. by rewrite !or_else_last.
Qed.

Lemma merge_content acc parsed :
  content (merge acc parsed) = content acc ++ contentOf parsed.
Proof.
  unfold merge, processParsed, contentOf, choiceOf. cbv zeta.
  destruct (nullish parsed) eqn:Hn.
  { destruct parsed; try discriminate; simpl; by rewrite app_nil_r. }
  pose proof (setHeader_fields parsed acc) as (Hc & _).
  destruct (truthy (prop parsed (js "choices"))
            && truthy (prop (prop parsed (js "choices")) (js "0"))).
  2:{ simpl. by rewrite Hc, app_nil_r. }
  simpl andb.
  set (delta := prop (prop (prop parsed (js "choices")) (js "0")) (js "delta")).
  set (h := setHeader parsed acc) in *.
  assert (Ha : content (caught (appendContent delta h))
               = content acc
                 ++ (if truthy delta && truthy (prop delta (js "content"))
                     then match ToString (prop delta (js "content")) with
                          | Ok s => s
                          | Throw _ => []
                          end
                     else [])).
  { unfold appendContent.
    destruct (truthy delta && _); [|simpl; by rewrite Hc, app_nil_r].
    destruct (ToString _); simpl; by rewrite Hc, ?app_nil_r. }
  etransitivity; [|exact Ha].
  destruct (appendContent delta h) as [a|a]; simpl; [|done].
  match goal with |- context [applyToolCalls ?d ?x] =>
    destruct (applyToolCalls_shape d x) as [t Ht];
    destruct (applyToolCalls d x) as [b|b]; simpl in Ht; subst b; simpl;
      [|done]
  end.
  match goal with |- context [setFinishReason ?ch ?x] =>
    destruct (setFinishReason_shape ch x) as [f Hf]; by rewrite Hf
  end.
Qed.

Lemma fold_merge_content (deltas : list JSVal) (acc : Acc) :
  content (fold_left merge deltas acc)
  = content acc ++ concat (map contentOf deltas).
Proof.
  revert acc. induction deltas as [|d deltas IH]; intros acc; simpl.
  - by rewrite app_nil_r.
  - by rewrite IH, merge_content, app_assoc.
Qed.

(** X3: the accumulated content is the concatenation, in order, of the
    texts the parsed deltas contribute; the message carries it as a
    string, or [null] when it is empty.  Tool calls, finish reasons and
    exceptions in later statements of a delta do not change it. *)
Theorem document_content (clock : Z * Z) (stream : list (list byte)) :
  let text := concat (map contentOf (parsedDeltas stream)) in
  content (readAll (fst clock) stream) = text /\
  exists m,
    messageOf (collectStreamData clock stream) = Some m /\
    Message.role m = js "assistant" /\
    Message.content m = (if eqb text [] then Null else Str text).
Proof.
  intros text.
  assert (H : content (readAll (fst clock) stream) = text).
  { rewrite readAll_deltas. by rewrite fold_merge_content. }
  split; [exact H|].
  eexists. split; [reflexivity|]. split; [reflexivity|]. simpl. by rewrite H.
Qed.

(** X4: a line without the [data: ] prefix (a blank line, an SSE comment,
    an [event: ] field) and the marker [data: [DONE]] change nothing,
    wherever they stand: the marker does not end the fold, and the deltas
    that follow it are merged as usual. *)
Theorem skipped_lines_ignored (clock : Z * Z)
    (stream stream' : list (list byte)) (before after : list jsstring)
    (line : jsstring) :
  seenLines stream = before ++ line :: after ->
  seenLines stream' = before ++ after ->
  skipped line ->
  collectStreamData clock stream = collectStreamData clock stream'.
Proof.
  intros Hs Hs' Hskip.
  assert (Hnone : parsedOf line = None).
  { apply parsedOf_done. destruct Hskip as [Hd|Hd]; [by rewrite Hd | done]. }
  unfold collectStreamData. f_equal.
  rewrite !readAll_lines, Hs, Hs', !fold_left_app. simpl.
  by rewrite processLine_parsedOf, Hnone.
Qed.

Lemma merge_notObject acc parsed : notObject parsed -> merge acc parsed = acc.
Proof.
  destruct parsed as [| |b|n|s|l|fs]; try done; intros _; destruct acc;
    vm_compute; reflexivity.
Qed.

(** X5: a payload that parses to something else than an object ([null], a
    number, a string, an array) contributes nothing; [null] makes the read
    of [parsed.id] throw, and the [catch] swallows it. *)
Theorem scalar_payload_ignored (clock : Z * Z)
    (stream stream' : list (list byte)) (before after : list jsstring)
    (line : jsstring) (parsed : JSVal) :
  seenLines stream = before ++ line :: after ->
  seenLines stream' = before ++ after ->
  parsedOf line = Some parsed -> notObject parsed ->
  collectStreamData clock stream = collectStreamData clock stream'.
Proof.
  intros Hs Hs' Hp Hn. unfold collectStreamData. f_equal.
  rewrite !readAll_lines, Hs, Hs', !fold_left_app. simpl.
  by rewrite processLine_parsedOf, Hp, merge_notObject.
Qed.

End DocumentFacts.

Lemma skipped_lines_ignored_witness :
  Trace.seenLines MoreSamples.doneFirst
  = [] ++ js "data: [DONE]" :: Trace.seenLines Samples.hello /\
  Delta.skipped (js "data: [DONE]") /\
  StreamReducer.collectStreamData Samples.clock MoreSamples.doneFirst
  = StreamReducer.collectStreamData Samples.clock Samples.hello.
Proof.
  assert (H1 : Trace.seenLines MoreSamples.doneFirst
               = [] ++ js "data: [DONE]" :: Trace.seenLines Samples.hello)
    by (vm_compute; reflexivity).
  assert (H2 : Delta.skipped (js "data: [DONE]"))
    by (right; vm_compute; reflexivity).
  split; [exact H1|]. split; [exact H2|].
  exact (skipped_lines_ignored Samples.clock _ _ _ _ _ H1 eq_refl H2).
Defined.

Lemma scalar_payload_ignored_witness :
  Trace.seenLines MoreSamples.withScalars
  = take 2 (Trace.seenLines Samples.hello)
    ++ js "data: null" :: drop 2 (Trace.seenLines Samples.hello) /\
  Trace.parsedOf (js "data: null") = Some Null /\
  StreamReducer.collectStreamData Samples.clock MoreSamples.withScalars
  = StreamReducer.collectStreamData Samples.clock Samples.hello.
Proof.
  assert (H1 : Trace.seenLines MoreSamples.withScalars
               = take 2 (Trace.seenLines Samples.hello)
                 ++ js "data: null" :: drop 2 (Trace.seenLines Samples.hello))
    by (vm_compute; reflexivity).
  assert (H2 : Trace.seenLines Samples.hello
               = take 2 (Trace.seenLines Samples.hello)
                 ++ drop 2 (Trace.seenLines Samples.hello))
    by (vm_compute; reflexivity).
  assert (H3 : Trace.parsedOf (js "data: null") = Some Null)
    by (vm_compute; reflexivity).
  split; [exact H1|]. split; [exact H3|].
  exact (scalar_payload_ignored Samples.clock _ _ _ _ _ Null H1 H2 H3 I).
Defined.

(** ** The finish reason of text deltas *)

Section FinishFacts.
Import StreamReducer Trace Delta.

(** A falsy value has no property besides the [length] of the empty
    string. *)
Lemma falsy_prop (v : JSVal) (k : jsstring) :
  truthy v = false -> eqb k (js "length") = false -> prop v k = Undefined.
Proof.
  intros Hv Hk. destruct v as [| |b|n|s|l|fs]; try done.
  destruct s; [|discriminate]. simpl. rewrite Hk.
  by destruct (isArrayIndex k).
Qed.

Lemma merge_finishReason_textOnly acc parsed :
  textOnly parsed ->
  finishReason (merge acc parsed)
  = if truthy (prop (choiceOf parsed) (js "finish_reason"))
    then prop (choiceOf parsed) (js "finish_reason")
    else finishReason acc.
Proof.
  unfold textOnly, choiceOf, merge, processParsed. cbv zeta.
  intros [Hcontent Htools].
  destruct (nullish parsed) eqn:Hn.
  { by destruct parsed. }
  pose proof (setHeader_fields parsed acc) as (_ & Hf & _).
  set (h := setHeader parsed acc) in *.
  set (choices := prop parsed (js "choices")) in *.
  destruct (truthy choices && truthy (prop choices (js "0"))) eqn:Hch.
  2:{ simpl. rewrite Hf.
      destruct (truthy choices) eqn:Hc; simpl in Hch.
      - by rewrite (falsy_prop _ (js "finish_reason") Hch eq_refl).
      - rewrite (falsy_prop _ (js "0") Hc eq_refl). done. }
  set (choice := prop choices (js "0")) in *.
  set (delta := prop choice (js "delta")) in *.
  assert (Ha : exists c, appendContent delta h = Next (set_content c h)).
  { unfold appendContent.
    destruct (truthy delta && truthy (prop delta (js "content"))) eqn:E.
    - apply andb_true_iff in E as [_ E]. destruct (Hcontent E) as [s ->].
      simpl. by eexists.
    - exists (content h). by destruct h. }
  destruct Ha as [c ->]. simpl.
  assert (Hb : applyToolCalls delta (set_content c h) = Next (set_content c h)).
  { unfold applyToolCalls. rewrite Htools. by rewrite andb_false_r. }
  rewrite Hb. simpl. unfold setFinishReason.
  destruct (truthy (prop choice (js "finish_reason"))); simpl; [done|].
  exact Hf.
Qed.

Lemma fold_merge_finishReason (deltas : list JSVal) (acc : Acc) :
  Forall textOnly deltas ->
  finishReason (fold_left merge deltas acc)
  = List.last
      (List.filter truthy
         (map (fun d => prop (choiceOf d) (js "finish_reason")) deltas))
      (finishReason acc).
Proof.
  intros Hall. revert acc.
  induction Hall as [|d deltas Hd _ IH]; intros acc; [done|].
  simpl fold_left. rewrite IH, (merge_finishReason_textOnly _ _ Hd). simpl.
  destruct (truthy (prop (choiceOf d) (js "finish_reason"))); [|done].
  by rewrite last_cons_default.
Qed.

(** X6: when the deltas of the stream only carry text (a string content or
    none, no tool calls), the finish reason of the document's choice is
    the last truthy [choices[0].finish_reason], and [stop] when no delta
    has one. *)
Theorem document_finish_reason (clock : Z * Z) (stream : list (list byte)) :
  Forall textOnly (parsedDeltas stream) ->
  exists message,
    Completion.choices (collectStreamData clock stream)
    = [Choice.mk 0 message
         (List.last
            (List.filter truthy
               (map (fun d => prop (choiceOf d) (js "finish_reason"))
                  (parsedDeltas stream)))
            (Str (js "stop")))].
Proof.
  intros Hall.
  assert (H : finishReason (readAll (fst clock) stream)
              = List.last
                  (List.filter truthy
                     (map (fun d => prop (choiceOf d) (js "finish_reason"))
                        (parsedDeltas stream)))
                  (Str (js "stop"))).
  { rewrite readAll_deltas. by rewrite (fold_merge_finishReason _ _ Hall). }
  eexists. unfold collectStreamData, build. simpl. rewrite H. reflexivity.
Qed.

End FinishFacts.

Lemma document_finish_reason_witness :
  Forall Delta.textOnly (Trace.parsedDeltas MoreSamples.cutShort) /\
  exists message,
    StreamReducer.Completion.choices
      (StreamReducer.collectStreamData Samples.clock MoreSamples.cutShort)
    = [StreamReducer.Choice.mk 0 message (Str (js "length"))].
Proof.
  assert (Hl : Trace.parsedDeltas MoreSamples.cutShort
               = MoreSamples.cutShortDeltas) by (vm_compute; reflexivity).
  assert (H : Forall Delta.textOnly (Trace.parsedDeltas MoreSamples.cutShort)).
  { rewrite Hl. unfold MoreSamples.cutShortDeltas.
    constructor; [|constructor; [|constructor; [|constructor]]].
    - split; [intros _; exists (js "Hel")|]; vm_compute; reflexivity.
    - split; [intros _; exists (js "lo")|]; vm_compute; reflexivity.
    - split; [intros Hc; discriminate Hc | vm_compute; reflexivity]. }
  split; [exact H|].
  destruct (document_finish_reason Samples.clock MoreSamples.cutShort H)
    as [m Hm].
  exists m. rewrite Hm, Hl. vm_compute. reflexivity.
Defined.

(** ** One tool-call delta *)

Section ToolCallSteps.
Import StreamReducer Trace Delta.

Lemma setSlot_other (i j : nat) (x : ToolCall) (l : list (option ToolCall)) :
  i <> j ->
  setSlot i x l !! j
  = if decide (j < length l)%nat then l !! j
    else if decide (j < i)%nat then Some None else None.
Proof.
  intros Hne. unfold setSlot. destruct (decide (i < length l)%nat).
  - rewrite list_lookup_insert_ne by done.
    destruct (decide (j < length l)%nat); [done|].
    destruct (decide (j < i)%nat); [lia|]. apply lookup_ge_None. lia.
  - destruct (decide (j < length l)%nat); [by rewrite lookup_app_l|].
    rewrite lookup_app_r by lia.
    destruct (decide (j < i)%nat).
    + rewrite lookup_app_l by (rewrite length_replicate; lia).
      apply lookup_replicate. split; [done|lia].
    + apply lookup_ge_None. rewrite length_app, length_replicate. simpl. lia.
Qed.

Lemma isStart_not_nullish (d : JSVal) : isStart d = true -> nullish d = false.
Proof. by destruct d. Qed.

(** X7: a start delta at the array index [i] stores there a tool call made
    of its own fields only ([name] and [arguments] default to the empty
    string), discarding what was accumulated under [i]; the other elements
    stay as they are, and an index beyond the end extends the array with
    holes. *)
Theorem start_delta_resets_slot (tcs : ToolCalls) (i : nat) (d : JSVal) :
  isStart d = true -> atIndex i d ->
  exists tcs',
    applyToolCall tcs d = Next tcs' /\
    named tcs' = named tcs /\
    slots tcs' !! i
    = Some (Some (mkToolCall (prop d (js "id")) (prop d (js "type"))
                    (or_else (prop (prop d (js "function")) (js "name"))
                       (Str []))
                    (or_else (prop (prop d (js "function")) (js "arguments"))
                       (Str [])))) /\
    length (slots tcs') = Nat.max (length (slots tcs)) (S i) /\
    forall j, j <> i ->
      slots tcs' !! j
      = if decide (j < length (slots tcs))%nat then slots tcs !! j
        else if decide (j < i)%nat then Some None else None.
Proof.
  intros Hs (k & Hk & Hi). unfold applyToolCall.
  rewrite (isStart_not_nullish d Hs).
  unfold isStart in Hs. unfold toolKey in Hk. rewrite Hs, Hk, Hi.
  eexists. split; [reflexivity|]. simpl.
  split; [done|]. split; [apply setSlot_lookup|].
  split; [apply setSlot_length|].
  intros j Hj. by apply setSlot_other.
Qed.

Lemma continueToolCall_keeps (fn : JSVal) (tc tc' : ToolCall) :
  continueToolCall fn tc = Ok tc' ->
  tc_id tc' = tc_id tc /\ tc_type tc' = tc_type tc.
Proof.
  unfold continueToolCall.
  destruct (prop fn (js "arguments")) eqn:Ha; simpl;
    try (destruct (plus _ _); simpl; [|discriminate]);
    destruct (truthy _); by intros [= <-].
Qed.

(** X8: a delta that is not a start delta creates nothing: the array keeps
    its length, an empty or missing element stays so (a continuation
    without an accumulator is ignored), and a stored call keeps its [id]
    and [type], whether the delta is merged or throws. *)
Theorem other_delta_creates_nothing (tcs : ToolCalls) (d : JSVal) :
  isStart d = false ->
  let tcs' := caught (applyToolCall tcs d) in
  length (slots tcs') = length (slots tcs) /\
  forall j,
    match slots tcs !! j with
    | Some (Some tc) =>
        exists tc', slots tcs' !! j = Some (Some tc') /\
                    tc_id tc' = tc_id tc /\ tc_type tc' = tc_type tc
    | other => slots tcs' !! j = other
    end.
Proof.
  intros Hs.
  assert (Hsame : forall j,
            match slots tcs !! j with
            | Some (Some tc) =>
                exists tc', slots tcs !! j = Some (Some tc') /\
                            tc_id tc' = tc_id tc /\ tc_type tc' = tc_type tc
            | other => slots tcs !! j = other
            end).
  { intros j. destruct (slots tcs !! j) as [[tc|]|]; try done. by exists tc. }
  unfold applyToolCall. destruct (nullish d); [split; [reflexivity|exact Hsame]|].
  unfold isStart in Hs. rewrite Hs. clear Hs.
  destruct (ToString _) as [k|e]; [|split; [reflexivity|exact Hsame]].
  destruct (toKey k) as [i| |s].
  - destruct (slots tcs !! i) as [[tc|]|] eqn:Hi; try (split; [reflexivity|exact Hsame]).
    destruct (truthy (prop d (js "function"))); [|split; [reflexivity|exact Hsame]].
    destruct (continueToolCall _ tc) as [tc'|e] eqn:Hc; [|split; [reflexivity|exact Hsame]].
    apply continueToolCall_keeps in Hc as [Hid Htype]. simpl.
    split; [by rewrite length_insert|].
    intros j. destruct (decide (i = j)) as [<-|Hne].
    + rewrite Hi. exists tc'. split; [|done].
      apply list_lookup_insert_eq. by eapply lookup_lt_Some.
    + rewrite list_lookup_insert_ne by done. apply Hsame.
  - destruct (decide _); [split; [reflexivity|exact Hsame]|]. destruct (_ && _); (split; [reflexivity|exact Hsame]).
  - destruct (lookupNamed s (named tcs));
      [|destruct (_ && _); (split; [reflexivity|exact Hsame])].
    destruct (truthy (prop d (js "function"))); [|split; [reflexivity|exact Hsame]].
    destruct (continueToolCall _ _); (split; [reflexivity|exact Hsame]).
Qed.

(** X9: a continuation delta with a string fragment, met when the stored
    arguments are a string, replaces the stored call by one with the same
    [id] and [type], the arguments extended by the fragment, and the
    delta's [name] when it is truthy, the stored name otherwise. *)
Theorem continuation_effect (tcs : ToolCalls) (i : nat)
    (args fragment : jsstring) (tc : ToolCall) (d : JSVal) :
  continuesAt i fragment d ->
  slots tcs !! i = Some (Some tc) -> tc_arguments tc = Str args ->
  let name := prop (prop d (js "function")) (js "name") in
  applyToolCall tcs d
  = Next (mkToolCalls
            (<[i := Some (mkToolCall (tc_id tc) (tc_type tc)
                            (if truthy name then name else tc_name tc)
                            (Str (args ++ fragment)))]> (slots tcs))
            (named tcs)).
Proof.
  intros (Hnull & Hstart & Hfn & (k & Hk & Hi) & Hfrag) Hslot Hargs name.
  unfold applyToolCall, isStart, toolKey in *.
  rewrite Hnull, Hstart, Hk, Hi, Hslot, Hfn.
  unfold continueToolCall. rewrite Hfrag, Hargs. simpl. fold name.
  by destruct (truthy name).
Qed.

(** X10: a delta whose index is no array index (a negative or fractional
    number, a text) leaves the elements of [toolCalls] as they are, also
    when it is a start delta: such a call is stored beside the elements
    and cannot make [tool_calls] appear. *)
Theorem non_index_delta_keeps_slots (tcs : ToolCalls) (d : JSVal) :
  (forall i, ~ atIndex i d) ->
  slots (caught (applyToolCall tcs d)) = slots tcs.
Proof.
  intros Hno. unfold applyToolCall. destruct (nullish d); [done|].
  fold (toolKey d).
  destruct (toolKey d) as [k|e] eqn:Hk.
  2:{ by destruct (_ && _). }
  destruct (toKey k) as [i| |s] eqn:Hi.
  { destruct (Hno i). by exists k. }
  - destruct (_ && _); [done|]. destruct (decide _); [done|].
    by destruct (_ && _).
  - destruct (_ && _); [done|].
    destruct (lookupNamed s (named tcs)); [|by destruct (_ && _)].
    destruct (truthy (prop d (js "function"))); [|done]. by destruct (continueToolCall _ _).
Qed.

End ToolCallSteps.

Lemma start_delta_resets_slot_witness :
  Trace.isStart MoreSamples.startAtTwo = true /\
  Trace.atIndex 2 MoreSamples.startAtTwo /\
  exists tcs',
    StreamReducer.applyToolCall MoreSamples.oneCall MoreSamples.startAtTwo
    = StreamReducer.Next tcs' /\
    length (StreamReducer.slots tcs') = 3%nat /\
    StreamReducer.slots tcs' !! 1%nat = Some None /\
    StreamReducer.slots tcs' !! 0%nat
    = StreamReducer.slots MoreSamples.oneCall !! 0%nat.
Proof.
  assert (H1 : Trace.isStart MoreSamples.startAtTwo = true)
    by (vm_compute; reflexivity).
  assert (H2 : Trace.atIndex 2 MoreSamples.startAtTwo).
  { exists (js "2"). split; vm_compute; reflexivity. }
  split; [exact H1|]. split; [exact H2|].
  destruct (start_delta_resets_slot MoreSamples.oneCall 2
              MoreSamples.startAtTwo H1 H2)
    as (tcs' & Happ & _ & _ & Hlen & Hother).
  exists tcs'. split; [exact Happ|]. split; [exact Hlen|].
  split; [exact (Hother 1%nat ltac:(lia)) | exact (Hother 0%nat ltac:(lia))].
Defined.

Lemma other_delta_creates_nothing_witness :
  Trace.isStart MoreSamples.renaming = false /\
  length (StreamReducer.slots
            (StreamReducer.caught
               (StreamReducer.applyToolCall (StreamReducer.mkToolCalls [] [])
                  MoreSamples.renaming))) = 0%nat.
Proof.
  assert (H : Trace.isStart MoreSamples.renaming = false)
    by (vm_compute; reflexivity).
  split; [exact H|].
  exact (proj1 (other_delta_creates_nothing (StreamReducer.mkToolCalls [] [])
                  MoreSamples.renaming H)).
Defined.

Lemma continuation_effect_witness :
  Trace.continuesAt 0 (js "1}") MoreSamples.renaming /\
  StreamReducer.applyToolCall MoreSamples.oneCall MoreSamples.renaming
  = StreamReducer.Next
      (StreamReducer.mkToolCalls
         [Some (StreamReducer.mkToolCall (Str (js "call_1"))
                  (Str (js "function")) (Str (js "f2")) (Str (sq "{'a':1}")))]
         []).
Proof.
  assert (H : Trace.continuesAt 0 (js "1}") MoreSamples.renaming).
  { split; [vm_compute; reflexivity|]. split; [vm_compute; reflexivity|].
    split; [vm_compute; reflexivity|].
    split; [exists (js "0"); split|]; vm_compute; reflexivity. }
  split; [exact H|].
  exact (continuation_effect MoreSamples.oneCall 0 (sq "{'a':") (js "1}") _
           MoreSamples.renaming H eq_refl eq_refl).
Defined.

Lemma non_index_delta_keeps_slots_witness :
  (forall i, ~ Trace.atIndex i MoreSamples.startAtMinusOne) /\
  Trace.isStart MoreSamples.startAtMinusOne = true /\
  StreamReducer.slots
    (StreamReducer.caught
       (StreamReducer.applyToolCall (StreamReducer.mkToolCalls [] [])
          MoreSamples.startAtMinusOne)) = [].
Proof.
  assert (H : forall i, ~ Trace.atIndex i MoreSamples.startAtMinusOne).
  { intros i (k & Hk & Hi).
    assert (Hkey : Trace.toolKey MoreSamples.startAtMinusOne = Ok (js "-1"))
      by (vm_compute; reflexivity).
    rewrite Hkey in Hk. injection Hk as <-.
    assert (Hn : StreamReducer.toKey (js "-1") = StreamReducer.Name (js "-1"))
      by (vm_compute; reflexivity).
    rewrite Hn in Hi. discriminate Hi. }
  split; [exact H|]. split; [vm_compute; reflexivity|].
  exact (non_index_delta_keeps_slots (StreamReducer.mkToolCalls [] [])
           MoreSamples.startAtMinusOne H).
Defined.

(** ** When the message carries [tool_calls] *)

Section ToolCallsField.
Import StreamReducer Trace Delta.

Lemma startsFrom_zero (deltas : list JSVal) : startsFrom 0 deltas.
Proof. intros d i _ _ _. lia. Qed.

Lemma nonempty_populated (clock : Z * Z) (stream : list (list byte)) :
  (0 < length (slots (toolCalls (readAll (fst clock) stream))))%nat ->
  exists i, populated (toolCalls (readAll (fst clock) stream)) i.
Proof.
  intros Hlen.
  destruct (readAll_sparseInv 0 (fst clock) stream (startsFrom_zero _))
    as [Htop _].
  destruct (length (slots (toolCalls (readAll (fst clock) stream))))
    as [|n] eqn:Hl; [lia|].
  exists n. by apply Htop.
Qed.

(** X11: whatever the stream, the message carries [tool_calls] exactly
    when an element of the accumulated array is populated, and then it is
    that array, holes included; otherwise the field is absent. *)
Theorem tool_calls_iff_populated (clock : Z * Z) (stream : list (list byte)) :
  let tcs := toolCalls (readAll (fst clock) stream) in
  exists m,
    messageOf (collectStreamData clock stream) = Some m /\
    (Message.tool_calls m = Some tcs <-> exists i, populated tcs i) /\
    (Message.tool_calls m = None <-> forall i, ~ populated tcs i).
Proof.
  intros tcs.
  eexists. split; [reflexivity|]. simpl. fold tcs.
  destruct (decide (0 < length (slots tcs))%nat) as [Hlen|Hlen].
  - assert (Hp : exists i, populated tcs i)
      by exact (nonempty_populated clock stream Hlen).
    split; [done|]. split; [done|].
    intros Hnone. destruct Hp as [i Hi]. destruct (Hnone i Hi).
  - assert (Hnone : forall i, ~ populated tcs i).
    { intros i [tc Hi]. apply lookup_lt_Some in Hi. lia. }
    split; [|done]. split; [done|].
    intros [i Hi]. destruct (Hnone i Hi).
Qed.

(** X12: [tool_calls] needs a start delta at an array index: when every
    start delta of the stream has an index that is no array index, and
    whatever continuation deltas it has, the message has no [tool_calls]
    field. *)
Theorem no_indexed_start_no_tool_calls (clock : Z * Z)
    (stream : list (list byte)) :
  (forall d, In d (toolCallDeltas stream) -> isStart d = true ->
             forall i, ~ atIndex i d) ->
  exists m,
    messageOf (collectStreamData clock stream) = Some m /\
    Message.tool_calls m = None.
Proof.
  intros Hno.
  assert (Hnone : forall i,
            ~ populated (toolCalls (readAll (fst clock) stream)) i).
  { intros i Hi.
    assert (Hk : startsFrom (S i) (toolCallDeltas stream)).
    { intros d j Hin Hs Hj. destruct (Hno d Hin Hs j Hj). }
    destruct (readAll_sparseInv (S i) (fst clock) stream Hk) as [_ Hfrom].
    specialize (Hfrom i Hi). lia. }
  eexists. split; [reflexivity|]. simpl.
  destruct (decide (0 < length (slots (toolCalls (readAll (fst clock) stream))))%nat)
    as [Hlen|Hlen]; [|done].
  destruct (nonempty_populated clock stream Hlen) as [i Hi].
  destruct (Hnone i Hi).
Qed.

End ToolCallsField.

Lemma no_indexed_start_no_tool_calls_witness :
  (forall d, In d (Trace.toolCallDeltas MoreSamples.orphans) ->
             Trace.isStart d = true -> forall i, ~ Trace.atIndex i d) /\
  exists m,
    Delta.messageOf
      (StreamReducer.collectStreamData Samples.clock MoreSamples.orphans)
    = Some m /\
    StreamReducer.Message.tool_calls m = None.
Proof.
  assert (Hl : Trace.toolCallDeltas MoreSamples.orphans
               = MoreSamples.orphanDeltas) by (vm_compute; reflexivity).
  assert (H : forall d, In d (Trace.toolCallDeltas MoreSamples.orphans) ->
                Trace.isStart d = true -> forall i, ~ Trace.atIndex i d).
  { intros d Hin Hs i (k & Hk & Hi). rewrite Hl in Hin.
    destruct Hin as [<-|[<-|[]]].
    - assert (Hn : Trace.isStart (hd Undefined MoreSamples.orphanDeltas)
                   = false) by (vm_compute; reflexivity).
      simpl hd in Hn. rewrite Hn in Hs. discriminate Hs.
    - assert (Hkey : Trace.toolKey (hd Undefined (tl MoreSamples.orphanDeltas))
                     = Ok (js "-1")) by (vm_compute; reflexivity).
      simpl hd in Hkey. rewrite Hkey in Hk. injection Hk as <-.
      assert (Hn : StreamReducer.toKey (js "-1")
                   = StreamReducer.Name (js "-1")) by (vm_compute; reflexivity).
      rewrite Hn in Hi. discriminate Hi. }
  split; [exact H|].
  exact (no_indexed_start_no_tool_calls Samples.clock MoreSamples.orphans H).
Defined.

(** ** When the normalizer throws *)

Section NormalizerThrows.
Import Normalizer Blocks.

Lemma keepItem_throws (item : JSVal) :
  (offending item = true -> keepItem item = Throw TypeError) /\
  (offending item = false -> exists keep, keepItem item = Ok keep).
Proof.
  unfold offending, keepItem.
  destruct (truthy item && isStr (prop item (js "type")) (js "text")
            && truthy (prop item (js "text"))); simpl.
  - destruct (prop item (js "text")); split; try done; by eexists.
  - split; [done|]. by eexists.
Qed.

Lemma filterItems_throws (items : list JSVal) :
  (Exists (fun item => offending item = true) items ->
   filterItems items = Throw TypeError) /\
  (~ Exists (fun item => offending item = true) items ->
   exists kept, filterItems items = Ok kept).
Proof.
  induction items as [|item items [IHt IHr]]; simpl.
  - split; [by inversion 1 | by eexists].
  - destruct (keepItem_throws item) as [Ht Hr].
    destruct (offending item) eqn:Ho.
    + split; [intros _; by rewrite Ht|].
      intros Hno. destruct Hno. by left.
    + destruct (Hr eq_refl) as [keep ->]. simpl. split.
      * intros Hex. inversion Hex as [? ? Hx|? ? Hx]; subst; [congruence|].
        by rewrite (IHt Hx).
      * intros Hno. destruct IHr as [rest ->]; [|simpl; by eexists].
        intros Hx. apply Hno. by right.
Qed.

Lemma fixMessage_throws (message : JSVal) :
  (hasOffending message -> fixMessage message = Throw TypeError) /\
  (~ hasOffending message -> exists fixed, fixMessage message = Ok fixed).
Proof.
  unfold hasOffending, fixMessage. split.
  - intros (items & Hc & Hex). rewrite Hc.
    assert (Hm : truthy message = true) by (by destruct message).
    rewrite Hm. simpl.
    by rewrite (proj1 (filterItems_throws items) Hex).
  - intros Hno.
    destruct (negb (truthy message) || _); [by eexists|].
    destruct (prop message (js "content")) as [| |b|n|s|items|fs] eqn:Hc;
      try (by repeat match goal with
                     | |- context [if ?c then _ else _] => destruct c
                     end; eexists).
    destruct (proj2 (filterItems_throws items)) as [kept ->].
    { intros Hex. apply Hno. by exists items. }
    simpl. destruct (decide _); by eexists.
Qed.

Lemma filterItems_TypeError (items : list JSVal) (e : JSError) :
  filterItems items = Throw e -> e = TypeError.
Proof.
  induction items as [|item items IH]; simpl; [discriminate|].
  destruct (keepItem item) as [keep|e'] eqn:Hk; simpl.
  - destruct (filterItems items) as [rest|e'']; simpl; [discriminate|].
    intros [= <-]. by apply IH.
  - intros [= <-]. unfold keepItem in Hk.
    destruct (_ && _); [|discriminate].
    destruct (prop item (js "text")); by inversion Hk.
Qed.

Lemma fixMessage_TypeError (message : JSVal) (e : JSError) :
  fixMessage message = Throw e -> e = TypeError.
Proof.
  unfold fixMessage. destruct (negb (truthy message) || _); [discriminate|].
  destruct (prop message (js "content")) as [| |b|n|s|items|fs];
    try (by repeat match goal with
                   | |- context [if ?c then _ else _] => destruct c
                   end).
  destruct (filterItems items) as [kept|e'] eqn:Hf; simpl.
  - by destruct (decide _).
  - intros [= <-]. by eapply filterItems_TypeError.
Qed.

Lemma fixMessages_throws (messages : list JSVal) :
  (Exists hasOffending messages -> fixMessages messages = Throw TypeError) /\
  (~ Exists hasOffending messages ->
   exists fixed, fixMessages messages = Ok fixed).
Proof.
  induction messages as [|message messages [IHt IHr]]; simpl.
  - split; [by inversion 1 | by eexists].
  - destruct (fixMessage_throws message) as [Ht Hr]. split.
    + intros Hex. inversion Hex as [? ? Hx|? ? Hx]; subst.
      * by rewrite (Ht Hx).
      * destruct (fixMessage message) as [fixed|e] eqn:Hf; simpl.
        -- by rewrite (IHt Hx).
        -- by rewrite (fixMessage_TypeError _ _ Hf).
    + intros Hno.
      destruct Hr as [fixed ->]; [intros Hx; apply Hno; by left|].
      destruct IHr as [rest ->]; [intros Hx; apply Hno; by right|].
      simpl. by eexists.
Qed.

(** X13: the normalizer throws exactly when some message has an array
    content with a block of type [text] whose [text] is truthy and no
    string; what it throws is a TypeError, and on every other input it
    returns a list. *)
Theorem normalizer_throws_exactly (messages : list JSVal) :
  (Exists hasOffending messages ->
   handleChatMessage messages = Throw TypeError) /\
  (~ Exists hasOffending messages ->
   exists out, handleChatMessage messages = Ok out).
Proof.
  destruct (fixMessages_throws messages) as [Ht Hr].
  unfold handleChatMessage. split.
  - intros Hex. by rewrite (Ht Hex).
  - intros Hno. destruct (Hr Hno) as [fixed ->]. simpl.
    destruct fixed as [|m [|m' l]]; try (by eexists).
    destruct (negb _); by eexists.
Qed.

End NormalizerThrows.

Lemma normalizer_throws_exactly_witness :
  Exists Blocks.hasOffending Samples.numberText /\
  Normalizer.handleChatMessage Samples.numberText = Throw TypeError /\
  ~ Exists Blocks.hasOffending Samples.singleUser /\
  exists out, Normalizer.handleChatMessage Samples.singleUser = Ok out.
Proof.
  assert (H1 : Exists Blocks.hasOffending Samples.numberText).
  { left. exists MoreSamples.numberTextItems.
    split; [vm_compute; reflexivity|]. left. vm_compute. reflexivity. }
  assert (H2 : ~ Exists Blocks.hasOffending Samples.singleUser).
  { intros Hex. apply List.Exists_exists in Hex as (m & Hin & items & Hc & _).
    destruct Hin as [<-|[<-|[]]]; discriminate Hc. }
  split; [exact H1|].
  split; [exact (proj1 (normalizer_throws_exactly _) H1)|].
  split; [exact H2|].
  exact (proj2 (normalizer_throws_exactly _) H2).
Defined.

(** ** What the normalizer keeps *)

Section NormalizerKeeps.
Import Normalizer Canonical Blocks.

Lemma assign_same k v fields :
  lookup k fields = v -> v <> Undefined -> assign k v fields = fields.
Proof.
  induction fields as [|[k' v'] fields IH]; simpl; [congruence|].
  destruct (eqb k k') eqn:E.
  - apply eqb_eq in E. by intros -> _; subst.
  - intros Hl Hv. by rewrite IH.
Qed.

Lemma assign_assign k v v0 fields :
  assign k v (assign k v0 fields) = assign k v fields.
Proof.
  induction fields as [|[k' v'] fields IH]; simpl.
  - by rewrite eqb_refl.
  - destruct (eqb k k') eqn:E; simpl; rewrite ?eqb_refl, ?E, ?IH; done.
Qed.

(** Only an object can be pushed: other values have neither [content] nor
    [role]. *)
Lemma fixMessage_object (message m : JSVal) :
  fixMessage message = Ok (Some m) -> exists fields, message = Obj fields.
Proof.
  assert (Hskip : forall v,
            prop v (js "content") = Undefined -> prop v (js "role") = Undefined ->
            fixMessage v = Ok (Some m) -> False).
  { intros v Hc Hr. unfold fixMessage. rewrite Hc, Hr. simpl.
    rewrite orb_true_r. discriminate. }
  destruct message as [| |b|n|s|l|fields];
    try (intros H; exfalso; eapply Hskip; [| |exact H]; reflexivity).
  intros _. by eexists.
Qed.

Lemma fixMessage_sameButContent (message m : JSVal) :
  fixMessage message = Ok (Some m) -> sameButContent message m.
Proof.
  intros H. destruct (fixMessage_object _ _ H) as [fields ->].
  revert H. unfold fixMessage.
  destruct (negb _ || _); [discriminate|]. simpl spread.
  assert (Hset : forall v k, k <> js "content" ->
            prop (Obj (assign (js "content") v fields)) k = prop (Obj fields) k).
  { intros v k Hk. simpl. by apply lookup_assign_ne. }
  destruct (prop (Obj fields) (js "content")) as [| |b|n|s|items|fs];
    try discriminate.
  - destruct (negb _); [discriminate|]. by intros [= <-] k Hk.
  - destruct (negb _); [discriminate|]. by intros [= <-] k Hk.
  - destruct (truthy (Str s)); [|discriminate].
    destruct (truthy (Str (trim s))); [|discriminate].
    intros [= <-] k Hk. by apply Hset.
  - destruct (filterItems items) as [kept|e]; simpl; [|discriminate].
    destruct (decide _); [discriminate|].
    intros [= <-] k Hk. by apply Hset.
  - simpl. by intros [= <-] k Hk.
Qed.

Lemma fixMessages_sublist (messages fixed : list JSVal) :
  fixMessages messages = Ok fixed ->
  exists kept,
    sublist kept messages /\ Forall2 sameButContent kept fixed.
Proof.
  revert fixed. induction messages as [|message messages IH]; simpl;
    intros fixed.
  - intros [= <-]. exists []. split; constructor.
  - destruct (fixMessage message) as [[m|]|e] eqn:Hm; simpl; try discriminate;
      destruct (fixMessages messages) as [rest|e'] eqn:Hr; simpl;
      try discriminate; intros [= <-];
      destruct (IH rest eq_refl) as (kept & Hsub & Hall).
    + exists (message :: kept). split; [by constructor|].
      constructor; [by apply fixMessage_sameButContent | done].
    + exists kept. split; [by constructor | done].
Qed.

(** X14: the normalizer invents nothing but the default system message:
    the rest of its output comes, in order, from a sub-sequence of the
    input, one output message for each kept input message, with every
    field other than [content] ([role], [name], [tool_call_id], ...)
    forwarded as it came. *)
Theorem normalizer_keeps_order_and_fields (messages out : list JSVal) :
  handleChatMessage messages = Ok out ->
  exists kept fixed,
    sublist kept messages /\ Forall2 sameButContent kept fixed /\
    (out = fixed \/ out = defaultSystemMessage :: fixed).
Proof.
  unfold handleChatMessage.
  destruct (fixMessages messages) as [fixed|e] eqn:Hf; simpl; [|discriminate].
  destruct (fixMessages_sublist _ _ Hf) as (kept & Hsub & Hall).
  intros H. exists kept, fixed. split; [done|]. split; [done|].
  destruct fixed as [|m [|m' l]]; try (left; congruence).
  destruct (negb _); [right | left]; congruence.
Qed.

Lemma validBlock_kept (block : JSVal) :
  validBlock block -> keepItem block = Ok true /\ trimItem block = block.
Proof.
  intros (t & Htype & Htext & Hne & Htrim).
  destruct block as [| |b|n|s|l|fields]; try discriminate.
  unfold keepItem, trimItem. rewrite Htype, Htext, Htrim. simpl in *.
  apply eqb_neq in Hne. rewrite Hne. simpl.
  split; [done|]. by rewrite assign_same.
Qed.

Lemma validBlocks_kept (blocks : list JSVal) :
  Forall validBlock blocks ->
  filterItems blocks = Ok blocks /\ map trimItem blocks = blocks.
Proof.
  induction 1 as [|block blocks Hb _ [IHf IHm]]; simpl; [done|].
  destruct (validBlock_kept block Hb) as [-> ->]. simpl.
  by rewrite IHf, IHm.
Qed.

(** A message of the canonical form is pushed back as it is. *)
Lemma fixMessage_valid (m : JSVal) :
  validMessage m -> fixMessage m = Ok (Some m).
Proof.
  intros (blocks & Hc & Hne & Hall).
  destruct m as [| |b|n|s|l|fields]; try discriminate.
  unfold fixMessage. rewrite Hc. simpl negb. simpl orb.
  destruct (validBlocks_kept blocks Hall) as [Hf Hm]. rewrite Hf. simpl.
  rewrite Hm.
  destruct (decide (length blocks = 0%nat)) as [Hz|_].
  { destruct blocks; [done | discriminate]. }
  simpl in Hc. by rewrite assign_same.
Qed.

Lemma fixMessage_passed (messages : list JSVal) (m : JSVal) :
  passedThrough messages m -> fixMessage m = Ok (Some m).
Proof.
  intros (message & _ & -> & Hother).
  destruct message as [| |b|n|s|l|fields]; try discriminate.
  unfold fixMessage. simpl spread. simpl in Hother.
  unfold otherShape in Hother. apply andb_true_iff in Hother as [Ht Hshape].
  simpl prop. rewrite Ht. simpl.
  by destruct (lookup (js "content") fields).
Qed.

Lemma fixMessages_fixed (l : list JSVal) :
  Forall (fun m => fixMessage m = Ok (Some m)) l -> fixMessages l = Ok l.
Proof.
  induction 1 as [|m l Hm _ IH]; simpl; [done|]. by rewrite Hm, IH.
Qed.

(** X15: the normalizer is idempotent: a list it returned is returned
    unchanged when it is normalized again. *)
Theorem handleChatMessage_idempotent (messages out : list JSVal) :
  handleChatMessage messages = Ok out -> handleChatMessage out = Ok out.
Proof.
  unfold handleChatMessage at 1.
  destruct (fixMessages messages) as [fixed|e] eqn:Hf; simpl; [|discriminate].
  assert (Hfix : Forall (fun m => fixMessage m = Ok (Some m)) fixed).
  { pose proof (fixMessages_pushed _ _ Hf) as Hall. clear Hf.
    induction Hall as [|m l [Hv|Hp] _ IH]; constructor; try done.
    - by apply fixMessage_valid.
    - by eapply fixMessage_passed. }
  assert (Hdef : fixMessage defaultSystemMessage = Ok (Some defaultSystemMessage))
    by (apply fixMessage_valid, defaultSystemMessage_valid).
  intros H. unfold handleChatMessage.
  destruct fixed as [|m [|m' l]].
  - injection H as <-. done.
  - destruct (negb (isStr (prop m (js "role")) (js "system"))) eqn:Hrole;
      injection H as <-.
    + rewrite (fixMessages_fixed [defaultSystemMessage; m]); [done|].
      constructor; [done|]. done.
    + rewrite (fixMessages_fixed [m] Hfix). simpl. by rewrite Hrole.
  - injection H as <-. by rewrite (fixMessages_fixed _ Hfix).
Qed.

(** X16: a string content and the one-block array of the same text are
    normalized alike: both are dropped when the text is blank, and both
    become the message with the one block of the trimmed text and the
    same other fields otherwise. *)
Theorem string_content_as_block (fields : list (jsstring * JSVal))
    (s : jsstring) :
  let asString := Obj (assign (js "content") (Str s) fields) in
  let asBlock := Obj (assign (js "content") (Arr [textBlock s]) fields) in
  fixMessage asString = fixMessage asBlock /\
  (trim s = [] -> fixMessage asString = Ok None) /\
  (trim s <> [] ->
   fixMessage asString
   = Ok (Some (Obj (assign (js "content") (Arr [textBlock (trim s)])
                      fields)))).
Proof.
  cbv zeta. unfold fixMessage. simpl prop. rewrite !lookup_assign_eq.
  rewrite !lookup_assign_ne by (vm_compute; discriminate).
  simpl spread. simpl filterItems.
  assert (Hkeep : keepItem (textBlock s)
                  = Ok (truthy (Str s) && truthy (Str (trim s)))).
  { unfold keepItem, textBlock. simpl. by destruct (eqb s []). }
  rewrite Hkeep. simpl.
  destruct (eqb s []) eqn:Hs; simpl.
  - apply eqb_eq in Hs. subst s.
    assert (Ht : trim [] = []) by reflexivity.
    split; [by destruct (negb (truthy (lookup (js "role") fields)))|].
    split; [|by rewrite Ht].
    intros _. by destruct (negb (truthy (lookup (js "role") fields))).
  - destruct (eqb (trim s) []) eqn:Ht; simpl.
    + apply eqb_eq in Ht. split; [done|]. split; [done|]. by rewrite Ht.
    + change (trimItem (textBlock s)) with (textBlock (trim s)).
      rewrite !assign_assign. split; [done|]. split; [|done].
      intros H. apply eqb_neq in Ht. by destruct Ht.
Qed.

End NormalizerKeeps.

Lemma normalizer_keeps_order_and_fields_witness :
  Normalizer.handleChatMessage Samples.mixedMessages
  = Ok Samples.mixedMessagesFixed /\
  exists kept fixed,
    sublist kept Samples.mixedMessages /\
    Forall2 Blocks.sameButContent kept fixed /\
    (Samples.mixedMessagesFixed = fixed
     \/ Samples.mixedMessagesFixed = Normalizer.defaultSystemMessage :: fixed).
Proof.
  assert (H : Normalizer.handleChatMessage Samples.mixedMessages
              = Ok Samples.mixedMessagesFixed) by (vm_compute; reflexivity).
  split; [exact H|].
  exact (normalizer_keeps_order_and_fields _ _ H).
Defined.

Lemma handleChatMessage_idempotent_witness :
  Normalizer.handleChatMessage Samples.numberContent
  = Ok Samples.numberContentFixed /\
  Normalizer.handleChatMessage Samples.numberContentFixed
  = Ok Samples.numberContentFixed.
Proof.
  assert (H : Normalizer.handleChatMessage Samples.numberContent
              = Ok Samples.numberContentFixed) by (vm_compute; reflexivity).
  split; [exact H|].
  exact (handleChatMessage_idempotent _ _ H).
Defined.

(** ** What the normalizer drops *)

Section NormalizerDrops.
Import Normalizer Canonical.

Lemma keepItem_usable (item : JSVal) (b : bool) :
  keepItem item = Ok b -> b = usableBlock item.
Proof.
  unfold keepItem, usableBlock.
  destruct (truthy item && isStr (prop item (js "type")) (js "text")) eqn:H1;
    simpl; [|by intros [= <-]].
  destruct (prop item (js "text")) as [| |b'|n|s|l|fs]; simpl;
    try discriminate; try (by intros [= <-]).
  - destruct b'; [discriminate | by intros [= <-]].
  - destruct (negb (isZero n) && negb (isNaN n));
      [discriminate | by intros [= <-]].
  - destruct (eqb s []) eqn:Hs; simpl; [|by intros [= <-]].
    apply eqb_eq in Hs. subst s. by intros [= <-].
Qed.

Lemma filterItems_usable (items kept : list JSVal) :
  filterItems items = Ok kept -> kept = List.filter usableBlock items.
Proof.
  revert kept. induction items as [|item items IH]; simpl; intros kept.
  - by intros [= <-].
  - destruct (keepItem item) as [b|e] eqn:Hb; simpl; [|discriminate].
    destruct (filterItems items) as [rest|e] eqn:Hr; simpl; [|discriminate].
    intros [= <-]. rewrite <- (keepItem_usable item b Hb), (IH rest eq_refl).
    done.
Qed.

Lemma existsb_filter {A} (f : A -> bool) (l : list A) :
  existsb f l = negb (bool_decide (length (List.filter f l) = 0%nat)).
Proof.
  induction l as [|x l IH]; simpl; [done|].
  destruct (f x); simpl; [done | exact IH].
Qed.

(** The loop body drops a message exactly when its content is not
    usable. *)
Lemma fixMessage_usable (message : JSVal) (r : option JSVal) :
  fixMessage message = Ok r ->
  usable message = match r with Some _ => true | None => false end.
Proof.
  unfold fixMessage, usable.
  destruct (truthy message) eqn:Hm.
  2:{ rewrite (falsy_prop message (js "content") Hm) by (vm_compute; reflexivity).
      simpl. by intros [= <-]. }
  simpl negb. simpl orb.
  destruct (prop message (js "content")) as [| |b|n|s|items|fs]; simpl.
  - destruct (negb _); by intros [= <-].
  - destruct (negb _); by intros [= <-].
  - destruct b; simpl; [by intros [= <-]|].
    destruct (negb _); by intros [= <-].
  - destruct (negb (isZero n) && negb (isNaN n)); simpl; [by intros [= <-]|].
    destruct (negb _); by intros [= <-].
  - destruct (eqb s []) eqn:Hs; simpl.
    + apply eqb_eq in Hs. subst s.
      destruct (negb _); by intros [= <-].
    + destruct (eqb (trim s) []); simpl; by intros [= <-].
  - destruct (filterItems items) as [kept|e] eqn:Hk; simpl; [|discriminate].
    apply filterItems_usable in Hk. subst kept.
    rewrite existsb_filter, length_map.
    destruct (decide _) as [Hz|Hz]; intros [= <-].
    + by rewrite bool_decide_eq_true_2.
    + by rewrite bool_decide_eq_false_2.
  - by intros [= <-].
Qed.

Lemma fixMessages_usable (messages fixed : list JSVal) :
  fixMessages messages = Ok fixed ->
  Forall2 sameOtherFields (List.filter usable messages) fixed.
Proof.
  revert fixed. induction messages as [|message messages IH]; simpl;
    intros fixed.
  - intros [= <-]. constructor.
  - destruct (fixMessage message) as [r|e] eqn:Hm; simpl; [|discriminate].
    destruct (fixMessages messages) as [rest|e'] eqn:Hr; simpl;
      [|discriminate].
    intros [= <-]. rewrite (fixMessage_usable message r Hm).
    destruct r as [m|]; [|by apply IH].
    constructor; [|by apply IH].
    exact (fixMessage_sameButContent message m Hm).
Qed.

End NormalizerDrops.

(** C2 (amended): for every input message sequence on which the normalizer
    returns, every message of the output either has [content] equal to a
    non-empty ordered sequence of blocks, each with type [text] and a
    non-empty text equal to its own trimmed form, or is the copy of an input
    message whose [content] is a truthy value that is neither a string nor
    an array, forwarded as it came; and the output, the default system
    message apart, answers one for one and in order to the input messages
    with usable content: a message whose content is absent, falsy, a blank
    string or an array without usable text block is absent from it. *)
Theorem handleChatMessage_canonical (messages out : list JSVal) :
  Normalizer.handleChatMessage messages = Ok out ->
  Forall (fun m => Canonical.validMessage m
                   \/ Canonical.passedThrough messages m) out /\
  exists fixed,
    (out = fixed \/ out = Normalizer.defaultSystemMessage :: fixed) /\
    Forall2 Canonical.sameOtherFields
      (List.filter Canonical.usable messages) fixed.
Proof.
  unfold Normalizer.handleChatMessage.
  destruct (Normalizer.fixMessages messages) as [fixed|e] eqn:Hf; simpl;
    [|discriminate].
  pose proof (fixMessages_pushed _ _ Hf) as Hall.
  pose proof (fixMessages_usable _ _ Hf) as Hkept.
  assert (Hd : Forall (fun m => Canonical.validMessage m
                         \/ Canonical.passedThrough messages m)
                 (Normalizer.defaultSystemMessage :: fixed)).
  { constructor; [left; apply defaultSystemMessage_valid | done]. }
  intros H.
  assert (Hout : out = fixed \/ out = Normalizer.defaultSystemMessage :: fixed).
  { destruct fixed as [|m [|m' l]]; try (left; congruence).
    destruct (negb _); [right | left]; congruence. }
  split; [|by exists fixed].
  by destruct Hout as [-> | ->].
Qed.

Lemma handleChatMessage_canonical_witness :
  Normalizer.handleChatMessage Samples.mixedMessages
  = Ok Samples.mixedMessagesFixed /\
  Forall (fun m => Canonical.validMessage m
                   \/ Canonical.passedThrough Samples.mixedMessages m)
    Samples.mixedMessagesFixed /\
  exists fixed,
    (Samples.mixedMessagesFixed = fixed
     \/ Samples.mixedMessagesFixed = Normalizer.defaultSystemMessage :: fixed)
    /\
    Forall2 Canonical.sameOtherFields
      (List.filter Canonical.usable Samples.mixedMessages) fixed.
Proof.
  assert (H : Normalizer.handleChatMessage Samples.mixedMessages
              = Ok Samples.mixedMessagesFixed) by (vm_compute; reflexivity).
  split; [exact H|].
  exact (handleChatMessage_canonical Samples.mixedMessages
           Samples.mixedMessagesFixed H).
Defined.

(** ** Numbers that no double holds *)

(** [1e-400] is read as zero: it replaces no [id], [created] or finish
    reason, adds no text, and as an index it is the index 0; the integer
    [9007199254740993] is appended as the double it rounds to. *)
Example reducer_rounds_numbers :
  let doc :=
    StreamReducer.collectStreamData Samples.clock RoundingSamples.tiny in
  StreamReducer.Completion.id doc = Str (js "a") /\
  StreamReducer.Completion.created doc = Num (ofZ 1700000002) /\
  exists tc,
    StreamReducer.Completion.choices doc
    = [StreamReducer.Choice.mk 0
         (StreamReducer.Message.mk (js "assistant")
            (Str (js "x9007199254740992"))
            (Some (StreamReducer.mkToolCalls [Some tc] [])))
         (Str (js "length"))].
Proof.
  cbv zeta. split; [vm_compute; reflexivity|].
  split; [vm_compute; reflexivity|].
  eexists. vm_compute. reflexivity.
Qed.

(** A message whose content is [1e-400] is dropped, and a block whose
    text is [1e-400] is filtered out without a throw. *)
Example normalizer_rounds_numbers :
  Normalizer.handleChatMessage RoundingSamples.tinyMessages
  = Ok RoundingSamples.tinyMessagesFixed.
Proof. vm_compute. reflexivity. Qed.

(** ** The credential and the upstream call *)

Section Credential.
Import Gateway.

Lemma headersGet_case (name name' : jsstring) (hs : list (jsstring * jsstring)) :
  lower name = lower name' -> headersGet name hs = headersGet name' hs.
Proof. intros H. unfold headersGet. by rewrite H. Qed.

(** X17: the credential is the value of the [authorization] header when
    it is not empty, else that of [x-api-key] when it is not empty, else
    it is missing; the third look-up of line 31 reads the header of the
    first again and never supplies a credential. *)
Theorem credential_precedence (request : Request) :
  let auth := headersGet (js "authorization") (headers request) in
  let key := headersGet (js "x-api-key") (headers request) in
  headersGet (js "Authorization") (headers request) = auth /\
  (missing auth = false -> token request = auth) /\
  (missing auth = true -> missing key = false -> token request = key) /\
  (missing auth = true -> missing key = true ->
   missing (token request) = true).
Proof.
  intros auth key.
  assert (H3 : headersGet (js "Authorization") (headers request) = auth)
    by (apply headersGet_case; reflexivity).
  split; [exact H3|]. unfold token. rewrite H3. fold auth key.
  destruct auth as [[|c t]|], key as [[|c' t']|]; simpl; done.
Qed.

End Credential.

Section UpstreamCall.
Import Gateway Forwarding.

Lemma iterate_messages (parsed : JSVal) (list : list JSVal) :
  iterate (prop parsed (js "messages")) = Ok list ->
  exists fields, parsed = Obj fields.
Proof.
  destruct parsed as [| |b|n|s|l|fields]; try discriminate.
  intros _. by exists fields.
Qed.

(** What [prepare] has gone through when it hands a request to [fetch]. *)
Lemma prepare_forwards (request : Request) (isStream : bool)
    (u : UpstreamRequest) :
  prepare request = Ok (inr (isStream, u)) ->
  exists fields list messages key,
    JSON.parse (TextDecoder.decodeAll (body request)) = Ok (Obj fields) /\
    iterate (lookup (js "messages") fields) = Ok list /\
    Normalizer.handleChatMessage list = Ok messages /\
    ToString (lookup (js "model") fields) = Ok key /\
    token request = Some (authorization u) /\
    authorization u <> [] /\
    isStream = match lookup (js "stream") fields with
               | Boolean true => true
               | _ => false
               end /\
    url u = js "https://www.codebuddy.ai/v2/chat/completions" /\
    forwarded u
    = assign (js "model")
        (or_else (lookup key modelMapping) (lookup (js "model") fields))
        (assign (js "messages") (Arr messages)
           (assign (js "stream") (Boolean true) fields)).
Proof.
  unfold prepare, get.
  destruct (JSON.parse _) as [parsed|e]; simpl; [|discriminate].
  destruct (nullish parsed); simpl; [discriminate|].
  destruct (token request) as [[|c t]|]; try discriminate.
  destruct (iterate (prop parsed (js "messages"))) as [list|e] eqn:Hit;
    simpl; [|discriminate].
  destruct (iterate_messages parsed list Hit) as [fields ->].
  destruct (Normalizer.handleChatMessage list) as [messages|e] eqn:Hn;
    simpl; [|discriminate].
  destruct (ToString _) as [key|e] eqn:Hk; simpl; [|discriminate].
  intros [= <- <-]. exists fields, list, messages, key. simpl.
  repeat (split; [done|]). done.
Qed.

Lemma prepare_inl (request : Request) (response : Response) :
  prepare request = Ok (inl response) -> response = unauthorized.
Proof.
  unfold prepare.
  destruct (JSON.parse _) as [parsed|e]; simpl; [|discriminate].
  destruct (get parsed (js "stream")); simpl; [|discriminate].
  destruct (token request) as [[|c t]|]; try (by intros [= <-]).
  destruct (iterate _); simpl; [|discriminate].
  destruct (Normalizer.handleChatMessage _); simpl; [|discriminate].
  destruct (ToString _); simpl; discriminate.
Qed.

Lemma handleRequest_cases (fetch : UpstreamRequest -> FetchResult)
    (clock : Z * Z) (request : Request) :
  (snd (handleRequest fetch clock request) = [] /\
   (method request <> js "POST" \/
    includes (js "/chat/completions") (pathname request) = false \/
    (exists e, prepare request = Throw e) \/
    prepare request = Ok (inl unauthorized))) \/
  exists isStream u,
    method request = js "POST" /\
    includes (js "/chat/completions") (pathname request) = true /\
    prepare request = Ok (inr (isStream, u)) /\
    handleRequest fetch clock request = (answer clock isStream (fetch u), [u]).
Proof.
  unfold handleRequest.
  destruct (eqb (method request) (js "POST")) eqn:Hm; simpl.
  2:{ left. split; [done|]. left. by apply eqb_neq. }
  apply eqb_eq in Hm.
  destruct (includes _ _) eqn:Hp; simpl.
  2:{ left. split; [done|]. right. by left. }
  destruct (prepare request) as [[response|[isStream u]]|e] eqn:Hprep.
  - left. split; [done|]. right. right. right.
    by rewrite (prepare_inl request response Hprep).
  - right. exists isStream, u. repeat (split; [done|]).
    unfold answer, ok. destruct (fetch u) as [|st stream]; [done|].
    destruct (negb _); [done|]. by destruct isStream.
  - left. split; [done|]. right. right. left. by exists e.
Qed.

Lemma handleRequest_called (fetch : UpstreamRequest -> FetchResult)
    (clock : Z * Z) (request : Request) (u : UpstreamRequest) :
  snd (handleRequest fetch clock request) = [u] ->
  exists isStream,
    method request = js "POST" /\
    includes (js "/chat/completions") (pathname request) = true /\
    prepare request = Ok (inr (isStream, u)) /\
    handleRequest fetch clock request = (answer clock isStream (fetch u), [u]).
Proof.
  intros Hu.
  destruct (handleRequest_cases fetch clock request)
    as [[Hnil _]|(isStream & u' & Hm & Hp & Hprep & Hreq)].
  - rewrite Hnil in Hu. discriminate.
  - rewrite Hreq in Hu. simpl in Hu. injection Hu as ->. by exists isStream.
Qed.

(** X18: a request causes at most one upstream call, and only a POST on
    a chat-completion path that carries a credential, whose body is a
    JSON object and whose [messages] the normalizer accepted; the call
    goes to the fixed address, carries the credential as it came, asks
    for a stream whatever the client asked, and carries the normalized
    messages. *)
Theorem upstream_call_discipline (fetch : UpstreamRequest -> FetchResult)
    (clock : Z * Z) (request : Request) :
  let calls := snd (handleRequest fetch clock request) in
  calls = [] \/
  exists u fields list messages,
    calls = [u] /\
    method request = js "POST" /\
    includes (js "/chat/completions") (pathname request) = true /\
    JSON.parse (TextDecoder.decodeAll (body request)) = Ok (Obj fields) /\
    token request = Some (authorization u) /\
    missing (token request) = false /\
    url u = js "https://www.codebuddy.ai/v2/chat/completions" /\
    iterate (lookup (js "messages") fields) = Ok list /\
    Normalizer.handleChatMessage list = Ok messages /\
    lookup (js "stream") (forwarded u) = Boolean true /\
    lookup (js "messages") (forwarded u) = Arr messages.
Proof.
  intros calls. unfold calls.
  destruct (handleRequest_cases fetch clock request)
    as [[Hnil _]|(isStream & u & Hm & Hp & Hprep & Hreq)]; [by left|].
  right.
  destruct (prepare_forwards request isStream u Hprep)
    as (fields & list & messages & key & Hparse & Hit & Hn & Hk & Ht & Hne
        & _ & Hurl & Hf).
  exists u, fields, list, messages.
  split; [by rewrite Hreq|]. repeat (split; [done|]).
  split.
  { rewrite Ht. by destruct (authorization u). }
  split; [done|]. split; [done|]. split; [done|].
  rewrite Hf. split.
  - rewrite !lookup_assign_ne by (apply eqb_neq; vm_compute; reflexivity).
    apply lookup_assign_eq.
  - rewrite lookup_assign_ne by (apply eqb_neq; vm_compute; reflexivity).
    apply lookup_assign_eq.
Qed.

End UpstreamCall.

Section Forwarded.
Import Gateway Forwarding.

Lemma hasKey_assign k k' v fields :
  hasKey k (assign k' v fields) = eqb k k' || hasKey k fields.
Proof.
  induction fields as [|[k0 v0] fields IH]; simpl.
  - by rewrite orb_false_r.
  - destruct (eqb k' k0) eqn:E; simpl.
    + apply eqb_eq in E. subst k0. by destruct (eqb k k'), (hasKey k fields).
    + rewrite IH. by destruct (eqb k k'), (eqb k k0), (hasKey k fields).
Qed.

Lemma existsb_eqb_false (k : jsstring) (l : list jsstring) :
  existsb (eqb k) l = false -> forall k', In k' l -> k <> k'.
Proof.
  intros H k' Hin ->. apply not_true_iff_false in H. apply H.
  apply existsb_exists. exists k'. split; [done|apply eqb_refl].
Qed.

(** X19: the body sent upstream has the fields of the client's body and
    the three the handler sets, no other; every field apart from
    [stream], [messages] and [model] goes through with the value the
    client gave. *)
Theorem other_fields_forwarded (fetch : UpstreamRequest -> FetchResult)
    (clock : Z * Z) (request : Request) (u : UpstreamRequest)
    (fields : list (jsstring * JSVal)) :
  snd (handleRequest fetch clock request) = [u] ->
  JSON.parse (TextDecoder.decodeAll (body request)) = Ok (Obj fields) ->
  forall k,
    hasKey k (forwarded u) = hasKey k fields || existsb (eqb k) overridden /\
    (existsb (eqb k) overridden = false ->
     lookup k (forwarded u) = lookup k fields).
Proof.
  intros Hu Hparse k.
  destruct (handleRequest_called fetch clock request u Hu)
    as (isStream & _ & _ & Hprep & _).
  destruct (prepare_forwards request isStream u Hprep)
    as (fields' & list & messages & key & Hparse' & _ & _ & _ & _ & _ & _ & _
        & Hf).
  rewrite Hparse in Hparse'. injection Hparse' as <-.
  rewrite Hf. split.
  - rewrite !hasKey_assign. simpl.
    by destruct (eqb k (js "model")), (eqb k (js "messages")),
      (eqb k (js "stream")), (hasKey k fields).
  - intros Hk. pose proof (existsb_eqb_false k overridden Hk) as Hne.
    rewrite !lookup_assign_ne; [done| | |]; apply Hne; simpl; auto.
Qed.

(** X20: the model sent upstream: [default-model] when the string of the
    client's [model] is [claude-4.0]; the client's own [model], whatever
    its type, when its string is another name that [Object.prototype]
    does not define. *)
Theorem model_mapping (fetch : UpstreamRequest -> FetchResult)
    (clock : Z * Z) (request : Request) (u : UpstreamRequest)
    (fields : list (jsstring * JSVal)) :
  snd (handleRequest fetch clock request) = [u] ->
  JSON.parse (TextDecoder.decodeAll (body request)) = Ok (Obj fields) ->
  exists key,
    ToString (lookup (js "model") fields) = Ok key /\
    (key = js "claude-4.0" ->
     lookup (js "model") (forwarded u) = Str (js "default-model")) /\
    (key <> js "claude-4.0" -> existsb (eqb key) inherited = false ->
     lookup (js "model") (forwarded u) = lookup (js "model") fields).
Proof.
  intros Hu Hparse.
  destruct (handleRequest_called fetch clock request u Hu)
    as (isStream & _ & _ & Hprep & _).
  destruct (prepare_forwards request isStream u Hprep)
    as (fields' & list & messages & key & Hparse' & _ & _ & Hkey & _ & _ & _
        & _ & Hf).
  rewrite Hparse in Hparse'. injection Hparse' as <-.
  exists key. split; [done|]. rewrite Hf, lookup_assign_eq. split.
  - by intros ->.
  - intros Hne _. unfold modelMapping. simpl.
    apply eqb_neq in Hne. by rewrite Hne.
Qed.

Lemma upstreamError_truthy (st : Z) (stream : list (list byte)) :
  exists v,
    upstreamError st stream = errorResponse st (Text v) (js "server_error") /\
    truthy v = true /\
    (forall e, JSON.parse (TextDecoder.decodeAll (concat stream)) = Throw e ->
               v = Str (js "API request failed")).
Proof.
  unfold upstreamError. cbv zeta.
  destruct (JSON.parse _) as [parsed|e].
  2:{ eexists. split; [reflexivity|]. split; [reflexivity|]. done. }
  destruct (nullish parsed).
  { eexists. split; [reflexivity|]. split; [reflexivity|]. discriminate. }
  eexists. split; [reflexivity|]. split; [|discriminate].
  unfold or_else.
  destruct (truthy (if nullish _ then _ else _)) eqn:H1; [done|].
  by destruct (truthy (prop parsed (js "message"))) eqn:H2.
Qed.

(** X21: when the upstream answers outside 200-299, the client gets the
    upstream status with an error envelope of type [server_error] whose
    message is never empty or absent: it is [API request failed] when
    the upstream body is no JSON text. *)
Theorem upstream_error_mirrored (fetch : UpstreamRequest -> FetchResult)
    (clock : Z * Z) (request : Request) (u : UpstreamRequest)
    (st : Z) (stream : list (list byte)) :
  snd (handleRequest fetch clock request) = [u] ->
  fetch u = Upstream st stream -> bodyStatus st -> ok st = false ->
  exists v,
    fst (handleRequest fetch clock request)
    = errorResponse st (Text v) (js "server_error") /\
    truthy v = true /\
    (forall e, JSON.parse (TextDecoder.decodeAll (concat stream)) = Throw e ->
               v = Str (js "API request failed")).
Proof.
  intros Hu Hfetch _ Hok.
  destruct (handleRequest_called fetch clock request u Hu)
    as (isStream & _ & _ & _ & Hreq).
  rewrite Hreq, Hfetch. simpl. rewrite Hok. simpl.
  apply upstreamError_truthy.
Qed.

(** X22: with a successful upstream answer, the client gets the upstream
    reads themselves, unchanged, exactly when the [stream] of its body is
    the boolean [true]; with any other value (a string, a number, none)
    it gets the collected document. *)
Theorem stream_only_on_true (fetch : UpstreamRequest -> FetchResult)
    (clock : Z * Z) (request : Request) (u : UpstreamRequest)
    (fields : list (jsstring * JSVal)) (st : Z) (stream : list (list byte)) :
  snd (handleRequest fetch clock request) = [u] ->
  JSON.parse (TextDecoder.decodeAll (body request)) = Ok (Obj fields) ->
  fetch u = Upstream st stream -> bodyStatus st -> ok st = true ->
  (lookup (js "stream") fields = Boolean true ->
   fst (handleRequest fetch clock request)
   = mkResponse 200 (Some (js "text/event-stream")) (PassThrough stream)) /\
  (lookup (js "stream") fields <> Boolean true ->
   fst (handleRequest fetch clock request)
   = mkResponse 200 (Some (js "application/json"))
       (Document (StreamReducer.collectStreamData clock stream))).
Proof.
  intros Hu Hparse Hfetch _ Hok.
  destruct (handleRequest_called fetch clock request u Hu)
    as (isStream & _ & _ & Hprep & Hreq).
  destruct (prepare_forwards request isStream u Hprep)
    as (fields' & list & messages & key & Hparse' & _ & _ & _ & _ & _ & Hs
        & _).
  rewrite Hparse in Hparse'. injection Hparse' as <-.
  rewrite Hreq, Hfetch. simpl. rewrite Hok. simpl. subst isStream. split.
  - by intros ->.
  - intros Hne. by destruct (lookup (js "stream") fields) as [| |[|]| | | |].
Qed.

Lemma prepare_throws_iff (request : Request) :
  missing (token request) = false ->
  unforwardable request <-> exists e, prepare request = Throw e.
Proof.
  intros Hm. apply missing_false in Hm as (c & t & Ht).
  unfold unforwardable, prepare, get. rewrite Ht.
  destruct (JSON.parse _) as [parsed|e]; simpl.
  2:{ split; [by exists e|done]. }
  destruct (nullish parsed); simpl.
  { split; [by exists TypeError|by left]. }
  destruct (iterate _) as [list|e]; simpl.
  2:{ split; [by exists e|by right]. }
  destruct (Normalizer.handleChatMessage list) as [messages|e]; simpl.
  2:{ split; [by exists e|]. intros _. right. left. by exists e. }
  destruct (ToString _) as [key|e]; simpl.
  2:{ split; [by exists e|]. intros _. right. right. by exists e. }
  split.
  - intros [H|[[e H]|[e H]]]; discriminate.
  - intros [e H]. discriminate.
Qed.

(** X23: of the POST chat-completion requests that carry a credential,
    exactly those are never forwarded whose body is no JSON text or is
    [null], whose [messages] is not iterable or makes the normalizer
    throw, or whose [model] has no string; they are answered with the
    500 envelope. *)
Theorem stopped_before_forwarding (fetch : UpstreamRequest -> FetchResult)
    (clock : Z * Z) (request : Request) :
  method request = js "POST" ->
  includes (js "/chat/completions") (pathname request) = true ->
  missing (token request) = false ->
  (unforwardable request <-> snd (handleRequest fetch clock request) = []) /\
  (unforwardable request ->
   exists e, handleRequest fetch clock request = (internalError e, [])).
Proof.
  intros Hm Hp Ht.
  pose proof (prepare_throws_iff request Ht) as Hiff.
  pose proof (prepare_present request) as Hpass.
  unfold handleRequest. rewrite Hm, Hp, eqb_refl. simpl.
  destruct (prepare request) as [[response|[isStream u]]|e] eqn:Hprep.
  - by destruct (Hpass response Ht).
  - assert (Hno : ~ unforwardable request).
    { intros H. apply Hiff in H as [e H]. discriminate. }
    split; [|done]. split; [done|].
    destruct (fetch u) as [|st stream]; [discriminate|].
    destruct (negb _); [discriminate|]. by destruct isStream.
  - assert (Hyes : unforwardable request) by (apply Hiff; by exists e).
    split; [done|]. intros _. by exists e.
Qed.

End Forwarded.

(** ** The server *)

Section ServerFacts.
Import Gateway Forwarding.

Lemma not_any_origin (reply : Server.Reply) :
  Server.headers reply = [] \/
  Server.headers reply = [(js "Content-Type", js "application/json")] ->
  ~ Server.allowsAnyOrigin reply.
Proof.
  unfold Server.allowsAnyOrigin. intros [-> | ->]; vm_compute; discriminate.
Qed.

(** X24: a response of the server can be read by a page of another
    origin exactly when its status is 200: the preflight answer, the
    model list and the two successful chat answers carry
    [Access-Control-Allow-Origin: *]; no error answer does. *)
Theorem any_origin_iff_ok (fetch : UpstreamRequest -> FetchResult)
    (clock : Z * Z) (request : Request) :
  let reply := fst (Server.handler fetch clock request) in
  Server.allowsAnyOrigin reply <-> Server.status reply = 200.
Proof.
  assert (Hyes : forall reply,
            Server.allowsAnyOrigin reply -> Server.status reply = 200 ->
            Server.allowsAnyOrigin reply <-> Server.status reply = 200)
    by (intros; split; done).
  assert (Hno : forall reply,
            ~ Server.allowsAnyOrigin reply -> Server.status reply <> 200 ->
            Server.allowsAnyOrigin reply <-> Server.status reply = 200)
    by (intros; split; done).
  unfold Server.handler, Server.handleCORS.
  destruct (eqb (method request) (js "OPTIONS")).
  { apply Hyes; [vm_compute|]; reflexivity. }
  destruct (_ && _).
  { apply Hyes; [vm_compute|]; reflexivity. }
  destruct (handleRequest_cases fetch clock request)
    as [[Hnil Hwhy]|(isStream & u & _ & _ & _ & Hreq)].
  - revert Hnil Hwhy. unfold handleRequest.
    destruct (negb (eqb (method request) (js "POST"))).
    { intros _ _. apply Hno; [apply not_any_origin; by left|done]. }
    destruct (negb (includes _ _)).
    { intros _ _. apply Hno; [apply not_any_origin; by left|done]. }
    destruct (prepare request) as [[response|[s u]]|e] eqn:Hprep.
    + rewrite (prepare_inl request response Hprep). intros _ _.
      apply Hno; [apply not_any_origin; by right|done].
    + destruct (fetch u) as [|st stream]; [discriminate|].
      destruct (negb _); [discriminate|]. by destruct s.
    + intros _ _. apply Hno; [apply not_any_origin; by right|done].
  - rewrite Hreq. unfold answer.
    destruct (fetch u) as [|st stream].
    { apply Hno; [apply not_any_origin; by right|done]. }
    destruct (ok st) eqn:Hok; simpl.
    + destruct isStream; (apply Hyes; [vm_compute|]; reflexivity).
    + apply Hno; [apply not_any_origin; by right|]. simpl.
      intros ->. discriminate Hok.
Qed.

(** X25: a request that is no POST, or whose path does not include
    [/chat/completions], is answered from its method and path alone: its
    headers and body are not looked at, the clock is not read and no
    upstream call is made. *)
Theorem other_routes_read_nothing (fetch fetch' : UpstreamRequest -> FetchResult)
    (clock clock' : Z * Z) (r r' : Request) :
  sameRoute r r' ->
  method r <> js "POST" \/
  includes (js "/chat/completions") (pathname r) = false ->
  Server.handler fetch clock r = Server.handler fetch' clock' r' /\
  snd (Server.handler fetch clock r) = [].
Proof.
  intros [Hm Hp] Hroute.
  unfold Server.handler, Server.handleCORS, handleRequest.
  rewrite <- Hm, <- Hp.
  destruct (eqb (method r) (js "OPTIONS")); [done|].
  destruct (_ && _); [done|].
  destruct Hroute as [Hne|Hpath].
  - apply eqb_neq in Hne. by rewrite Hne.
  - rewrite Hpath. simpl. by destruct (negb _).
Qed.

End ServerFacts.

Section ServerWitnesses.
Import Gateway Forwarding ServerSamples.

Lemma credential_precedence_witness :
  missing (headersGet (js "authorization") (headers requestFull)) = false /\
  token requestFull = headersGet (js "authorization") (headers requestFull).
Proof.
  assert (H : missing (headersGet (js "authorization") (headers requestFull))
              = false) by (vm_compute; reflexivity).
  split; [exact H|].
  exact (proj1 (proj2 (credential_precedence requestFull)) H).
Defined.

Example full_request_forwarded :
  handleRequest helloUpstream Samples.clock requestFull
  = (mkResponse 200 (Some (js "application/json"))
       (Document (StreamReducer.collectStreamData Samples.clock Samples.hello)),
     [forwardedFull]).
Proof. vm_compute. reflexivity. Qed.

Lemma other_fields_forwarded_witness :
  snd (handleRequest helloUpstream Samples.clock requestFull)
  = [forwardedFull] /\
  lookup (js "temperature") (forwarded forwardedFull)
  = lookup (js "temperature") fullFields.
Proof.
  assert (Hu : snd (handleRequest helloUpstream Samples.clock requestFull)
               = [forwardedFull]) by (vm_compute; reflexivity).
  assert (Hp : JSON.parse (TextDecoder.decodeAll (body requestFull))
               = Ok (Obj fullFields)) by (vm_compute; reflexivity).
  assert (Hk : existsb (eqb (js "temperature")) overridden = false)
    by (vm_compute; reflexivity).
  split; [exact Hu|].
  exact (proj2 (other_fields_forwarded helloUpstream Samples.clock requestFull
                  forwardedFull fullFields Hu Hp (js "temperature")) Hk).
Defined.

Lemma model_mapping_witness :
  lookup (js "model") (forwarded forwardedFull) = Str (js "default-model") /\
  lookup (js "model") (forwarded forwardedOther)
  = lookup (js "model") otherFields.
Proof.
  assert (Hu : snd (handleRequest helloUpstream Samples.clock requestFull)
               = [forwardedFull]) by (vm_compute; reflexivity).
  assert (Hp : JSON.parse (TextDecoder.decodeAll (body requestFull))
               = Ok (Obj fullFields)) by (vm_compute; reflexivity).
  assert (Hk : ToString (lookup (js "model") fullFields)
               = Ok (js "claude-4.0")) by (vm_compute; reflexivity).
  assert (Hu' : snd (handleRequest helloUpstream Samples.clock requestOther)
                = [forwardedOther]) by (vm_compute; reflexivity).
  assert (Hp' : JSON.parse (TextDecoder.decodeAll (body requestOther))
                = Ok (Obj otherFields)) by (vm_compute; reflexivity).
  assert (Hk' : ToString (lookup (js "model") otherFields) = Ok (js "gpt-5"))
    by (vm_compute; reflexivity).
  assert (Hne : js "gpt-5" <> js "claude-4.0")
    by (apply eqb_neq; vm_compute; reflexivity).
  assert (Hin : existsb (eqb (js "gpt-5")) inherited = false)
    by (vm_compute; reflexivity).
  split.
  - destruct (model_mapping helloUpstream Samples.clock requestFull
                forwardedFull fullFields Hu Hp) as (key & Hkey & Hmapped & _).
    rewrite Hk in Hkey. injection Hkey as <-. by apply Hmapped.
  - destruct (model_mapping helloUpstream Samples.clock requestOther
                forwardedOther otherFields Hu' Hp') as (key & Hkey & _ & Hkept).
    rewrite Hk' in Hkey. injection Hkey as <-. by apply Hkept.
Defined.

Lemma upstream_error_mirrored_witness :
  snd (handleRequest busyUpstream Samples.clock requestFull)
  = [forwardedFull] /\
  exists v,
    fst (handleRequest busyUpstream Samples.clock requestFull)
    = errorResponse 429 (Text v) (js "server_error") /\
    truthy v = true.
Proof.
  assert (Hu : snd (handleRequest busyUpstream Samples.clock requestFull)
               = [forwardedFull]) by (vm_compute; reflexivity).
  assert (Hs : bodyStatus 429) by (unfold bodyStatus; lia).
  split; [exact Hu|].
  destruct (upstream_error_mirrored busyUpstream Samples.clock requestFull
              forwardedFull 429 busyBody Hu eq_refl Hs eq_refl)
    as (v & Hv & Ht & _).
  exists v. split; [exact Hv|exact Ht].
Defined.

Lemma stream_only_on_true_witness :
  fst (handleRequest helloUpstream Samples.clock requestFull)
  = mkResponse 200 (Some (js "application/json"))
      (Document (StreamReducer.collectStreamData Samples.clock Samples.hello))
  /\
  fst (handleRequest helloUpstream Samples.clock requestOther)
  = mkResponse 200 (Some (js "text/event-stream")) (PassThrough Samples.hello).
Proof.
  assert (Hu : snd (handleRequest helloUpstream Samples.clock requestFull)
               = [forwardedFull]) by (vm_compute; reflexivity).
  assert (Hp : JSON.parse (TextDecoder.decodeAll (body requestFull))
               = Ok (Obj fullFields)) by (vm_compute; reflexivity).
  assert (Hno : lookup (js "stream") fullFields = Str (js "true"))
    by (vm_compute; reflexivity).
  assert (Hu' : snd (handleRequest helloUpstream Samples.clock requestOther)
                = [forwardedOther]) by (vm_compute; reflexivity).
  assert (Hp' : JSON.parse (TextDecoder.decodeAll (body requestOther))
                = Ok (Obj otherFields)) by (vm_compute; reflexivity).
  assert (Hyes : lookup (js "stream") otherFields = Boolean true)
    by (vm_compute; reflexivity).
  assert (Hs : bodyStatus 200) by (unfold bodyStatus; lia).
  split.
  - apply (proj2 (stream_only_on_true helloUpstream Samples.clock requestFull
                    forwardedFull fullFields 200 Samples.hello
                    Hu Hp eq_refl Hs eq_refl)).
    rewrite Hno. discriminate.
  - exact (proj1 (stream_only_on_true helloUpstream Samples.clock requestOther
                    forwardedOther otherFields 200 Samples.hello
                    Hu' Hp' eq_refl Hs eq_refl) Hyes).
Defined.

Lemma stopped_before_forwarding_witness :
  unforwardable requestNoMessages /\
  exists e,
    handleRequest Samples.quietUpstream Samples.clock requestNoMessages
    = (internalError e, []).
Proof.
  assert (Hp : JSON.parse (TextDecoder.decodeAll (body requestNoMessages))
               = Ok (Obj [(js "model", Str (js "gpt-5"))]))
    by (vm_compute; reflexivity).
  assert (Hun : unforwardable requestNoMessages).
  { unfold unforwardable. rewrite Hp. right. exact I. }
  assert (Hpath : includes (js "/chat/completions")
                    (pathname requestNoMessages) = true)
    by (vm_compute; reflexivity).
  assert (Ht : missing (token requestNoMessages) = false)
    by (vm_compute; reflexivity).
  split; [exact Hun|].
  exact (proj2 (stopped_before_forwarding Samples.quietUpstream Samples.clock
                  requestNoMessages eq_refl Hpath Ht) Hun).
Defined.

Lemma other_routes_read_nothing_witness :
  Server.handler Samples.quietUpstream Samples.clock getModels
  = Server.handler helloUpstream (0, 0) getModelsWithKey /\
  snd (Server.handler Samples.quietUpstream Samples.clock getModels) = [].
Proof.
  assert (Hne : method getModels <> js "POST")
    by (apply eqb_neq; vm_compute; reflexivity).
  exact (other_routes_read_nothing Samples.quietUpstream helloUpstream
           Samples.clock (0, 0) getModels getModelsWithKey
           (conj eq_refl eq_refl) (or_introl Hne)).
Defined.

End ServerWitnesses.
